(** * The evaluation driver [eval/main.py]

    A shallow embedding of the orchestrator of the multimodal-math
    evaluation: argument defaults, dataset selection, the loading loop,
    the early return, engine construction, and the per-dataset
    evaluation loop that writes one JSON report per dataset.

    [main] is written in a state-and-exception monad over a [World] that
    holds the file system the driver touches and the trace of every
    external call it makes (in program order, with the call's outcome).
    The modules the driver imports ([utils.data_loaders],
    [utils.processing], [vllm], and the fallible parts of [os], [open]
    and [json]) are an interface, [Externals]: every statement below is
    for an arbitrary implementation of it, each call being free to
    return or to raise. *)

From Stdlib Require Import ZArith Ascii Floats.PrimFloat.
From stdpp Require Import base option list strings gmap pretty.

Local Open Scope string_scope.
Local Open Scope list_scope.
Set Warnings "-clear-no-such-hyp".

(** ** Exceptions and results *)

(** A Python exception, identified by its class name. *)
Inductive exn := PyExc (cls : string).

Inductive result (A : Type) :=
| Ok (a : A)
| Raise (e : exn).
Arguments Ok {A} a.
Arguments Raise {A} e.

Definition is_ok {A} (r : result A) : bool :=
  match r with Ok _ => true | Raise _ => false end.

(** ** Python values used by the driver *)

(** An insertion-ordered [dict] with string keys: assigning to a key that
    is present replaces its value in place, a new key goes to the end. *)
Definition dict (V : Type) : Type := list (string * V).

Fixpoint dict_set {V} (k : string) (v : V) (d : dict V) : dict V :=
  match d with
  | [] => [(k, v)]
  | (k', v') :: d' =>
      if String.eqb k k' then (k, v) :: d' else (k', v') :: dict_set k v d'
  end.

Fixpoint dict_get {V} (k : string) (d : dict V) : option V :=
  match d with
  | [] => None
  | (k', v') :: d' => if String.eqb k k' then Some v' else dict_get k d'
  end.

Definition dict_keys {V} (d : dict V) : list string := d.*1.

(** [k in d] *)
Definition dict_has {V} (k : string) (d : dict V) : bool :=
  match dict_get k d with Some _ => true | None => false end.

(** [d[k]], a [KeyError] when the key is absent. *)
Definition dict_getitem {V} (k : string) (d : dict V) : result V :=
  match dict_get k d with
  | Some v => Ok v
  | None => Raise (PyExc "KeyError")
  end.

(** [s.split(sep)] for a one-character separator. *)
Fixpoint str_split (sep : ascii) (s : string) : list string :=
  match s with
  | EmptyString => [EmptyString]
  | String c s' =>
      if Ascii.eqb c sep then EmptyString :: str_split sep s'
      else match str_split sep s' with
           | h :: t => String c h :: t
           | [] => [String c EmptyString]
           end
  end.

(** [s.upper()] on ASCII text (dataset names are ASCII). *)
Definition ascii_upper (c : ascii) : ascii :=
  let n := nat_of_ascii c in
  if (97 <=? n)%nat && (n <=? 122)%nat then ascii_of_nat (n - 32) else c.

Fixpoint str_upper (s : string) : string :=
  match s with
  | EmptyString => EmptyString
  | String c s' => String (ascii_upper c) (str_upper s')
  end.

Fixpoint ends_with_sep (s : string) : bool :=
  match s with
  | EmptyString => false
  | String c EmptyString => Ascii.eqb c "/"
  | String _ s' => ends_with_sep s'
  end.

(** [os.path.join(a, b)] (POSIX): an absolute [b] replaces [a]; otherwise
    the parts are joined by one separator unless [a] is empty or already
    ends with one. *)
Definition os_path_join (a b : string) : string :=
  if String.prefix "/" b then b
  else if String.eqb a "" || ends_with_sep a then a +:+ b
  else a +:+ "/" +:+ b.

(** ** Command line *)

(** The namespace returned by [parse_arguments], one field per
    [add_argument], in declaration order. *)
Record Args := {
  model : string;
  output_dir : string;
  max_tokens : Z;
  min_pixels : Z;
  max_pixels : Z;
  max_model_len : Z;
  temperature : float;
  top_p : float;
  repetition_penalty : float;
  tensor_parallel_size : Z;
  eval_threads : Z;
  system_prompt : string;
  datasets : string;
  data_path : string
}.

(** The options as given on the command line, already tokenised and
    converted by [argparse]: the two required ones, and the optional ones
    when present. *)
Record Cli := {
  cli_model : string;
  cli_output_dir : string;
  cli_max_tokens : option Z;
  cli_min_pixels : option Z;
  cli_max_pixels : option Z;
  cli_max_model_len : option Z;
  cli_temperature : option float;
  cli_top_p : option float;
  cli_repetition_penalty : option float;
  cli_tensor_parallel_size : option Z;
  cli_eval_threads : option Z;
  cli_system_prompt : option string;
  cli_datasets : option string;
  cli_data_path : option string
}.

Definition default_system_prompt : string :=
  "You FIRST think about the reasoning process as an internal monologue and then provide the final answer. The reasoning process MUST BE enclosed within <think> </think> tags. The final answer MUST BE put in \boxed{}.".

#[warnings="-inexact-float"]
Definition parse_arguments (c : Cli) : Args :=
  {| model := cli_model c;
     output_dir := cli_output_dir c;
     max_tokens := default 2048%Z (cli_max_tokens c);
     min_pixels := default 262144%Z (cli_min_pixels c);
     max_pixels := default 1000000%Z (cli_max_pixels c);
     max_model_len := default 8192%Z (cli_max_model_len c);
     temperature := default 0.0%float (cli_temperature c);
     top_p := default 0.95%float (cli_top_p c);
     repetition_penalty := default 1.0%float (cli_repetition_penalty c);
     tensor_parallel_size := default 2%Z (cli_tensor_parallel_size c);
     eval_threads := default 32%Z (cli_eval_threads c);
     system_prompt := default default_system_prompt (cli_system_prompt c);
     datasets := default "all" (cli_datasets c);
     data_path := default "NoisyRollout/eval/data" (cli_data_path c) |}.

(** A value stored in the namespace. *)
Inductive argval :=
| AStr (s : string)
| AInt (z : Z)
| AFloat (x : float).

(** [vars(args)]: the namespace as a dict, every attribute in order. *)
Definition vars (a : Args) : dict argval :=
  [ ("model", AStr (model a));
    ("output_dir", AStr (output_dir a));
    ("max_tokens", AInt (max_tokens a));
    ("min_pixels", AInt (min_pixels a));
    ("max_pixels", AInt (max_pixels a));
    ("max_model_len", AInt (max_model_len a));
    ("temperature", AFloat (temperature a));
    ("top_p", AFloat (top_p a));
    ("repetition_penalty", AFloat (repetition_penalty a));
    ("tensor_parallel_size", AInt (tensor_parallel_size a));
    ("eval_threads", AInt (eval_threads a));
    ("system_prompt", AStr (system_prompt a));
    ("datasets", AStr (datasets a));
    ("data_path", AStr (data_path a)) ].

(** ** Data exchanged with the imported modules *)

(** The six loader functions imported from [utils.data_loaders]. *)
Inductive loader :=
| load_geo3k_dataset
| load_wemath_dataset
| load_mathvista_dataset
| load_mathverse_dataset
| load_mathvision_dataset
| load_hallubench_dataset.

(** What [calculate_metrics] returns: a dict.  Its values are numbers
    or dicts of numbers when the metrics are as the driver expects; a
    value may also be a string or [None]. *)
Inductive mvalue :=
| MNum (x : float)
| MMap (d : dict float)
| MStr (s : string)
| MNone.

Definition Metrics : Type := dict mvalue.

Inductive torch_dtype := bfloat16.

(** Keyword arguments of [LLM(...)]. *)
Record LLMArgs := {
  llm_model : string;
  llm_tensor_parallel_size : Z;
  llm_dtype : torch_dtype;
  llm_gpu_memory_utilization : float;
  llm_max_model_len : Z
}.

(** Keyword arguments of [SamplingParams(...)]. *)
Record SamplingArgs := {
  sp_temperature : float;
  sp_top_p : float;
  sp_max_tokens : Z;
  sp_repetition_penalty : float
}.

(** The values of [output_dict]. *)
Inductive pyval (R : Type) :=
| VResults (results : list R)
| VMetrics (metrics : Metrics)
| VConfig (config : dict argval).
Arguments VResults {R} results.
Arguments VMetrics {R} metrics.
Arguments VConfig {R} config.

Definition OutputDict (R : Type) : Type := dict (pyval R).

(** The content of a report file: just opened for writing (truncated),
    left incomplete by a [json.dump] that raised, or the complete JSON
    document of an [output_dict]. *)
Inductive file (R : Type) :=
| FileEmpty
| FilePartial
| FileJson (obj : OutputDict R).
Arguments FileEmpty {R}.
Arguments FilePartial {R}.
Arguments FileJson {R} obj.

(** The imported modules.  Each call takes and returns the state of the
    world outside the driver, so successive calls may answer differently,
    and each may raise.  [ext_mkdir], [ext_open_w], [ext_json_dump] and
    [ext_close] stand for the ways the operating system can refuse the
    operation (permissions, a full disk, a value that does not
    serialise); [ext_close] is the close of the report file when its
    [with] block is left, which flushes what [json.dump] buffered. *)
Class Externals := {
  Sample : Type;
  Prompt : Type;
  Meta : Type;
  Output : Type;
  Result : Type;
  Engine : Type;
  SamplingParams : Type;
  ExtState : Type;
  ext_load : loader → string → ExtState → result (list Sample) * ExtState;
  ext_prepare_prompts :
    string → list Sample → Args → ExtState →
    result (list Prompt * list Meta) * ExtState;
  ext_process_outputs :
    list Output → list Meta → Z → ExtState → result (list Result) * ExtState;
  ext_calculate_metrics : list Result → ExtState → result Metrics * ExtState;
  ext_LLM : LLMArgs → ExtState → result Engine * ExtState;
  ext_SamplingParams : SamplingArgs → ExtState → result SamplingParams * ExtState;
  ext_generate :
    Engine → list Prompt → SamplingParams → ExtState →
    result (list Output) * ExtState;
  ext_mkdir : string → ExtState → result unit * ExtState;
  ext_open_w : string → ExtState → result unit * ExtState;
  ext_json_dump : string → OutputDict Result → ExtState → result unit * ExtState;
  ext_close : string → ExtState → result unit * ExtState;
  format_4f : float → string
}.

(** ** The world of a run *)

Section Driver.
Context {X : Externals}.

(** One external call of the driver, with its arguments and outcome.
    [EvJsonDump] is the body of the [with] block, and its outcome is the
    one of the block: of [json.dump], then of the close of the file. *)
Inductive event :=
| EvMakedirs (path : string) (exist_ok : bool) (r : result unit)
| EvLoad (ld : loader) (path : string) (r : result (list Sample))
| EvPrint (line : string)
| EvLLM (kw : LLMArgs) (r : result Engine)
| EvSamplingParams (kw : SamplingArgs) (r : result SamplingParams)
| EvPreparePrompts (name : string) (samples : list Sample) (args : Args)
    (r : result (list Prompt * list Meta))
| EvGenerate (llm : Engine) (prompts : list Prompt) (sp : SamplingParams)
    (r : result (list Output))
| EvProcessOutputs (outputs : list Output) (metadata : list Meta) (threads : Z)
    (r : result (list Result))
| EvCalculateMetrics (results : list Result) (r : result Metrics)
| EvOpenW (path : string) (r : result unit)
| EvJsonDump (path : string) (obj : OutputDict Result) (r : result unit).

Record World := {
  ext : ExtState;
  dirs : gset string;
  files : gmap string (file Result);
  trace : list event
}.

(** State and exception monad. *)
Definition M (A : Type) : Type := World → result A * World.

Definition ret {A} (a : A) : M A := fun w => (Ok a, w).

Definition raise {A} (e : exn) : M A := fun w => (Raise e, w).

Definition bind {A B} (m : M A) (k : A → M B) : M B :=
  fun w =>
    match m w with
    | (Ok a, w') => k a w'
    | (Raise e, w') => (Raise e, w')
    end.

Notation "'do' x <- m ; k" := (bind m (fun x => k))
  (at level 10, x name, m at level 100, k at level 200,
   format "'[v' 'do'  x  <-  m ; '/' k ']'").
Notation "m ;; k" := (bind m (fun _ => k))
  (at level 100, k at level 200, right associativity,
   format "'[v' m ;; '/' k ']'").

Definition lift {A} (r : result A) : M A := fun w => (r, w).

Definition log (e : event) (w : World) : World :=
  {| ext := ext w; dirs := dirs w; files := files w; trace := trace w ++ [e] |}.

(** A call into an imported module: run it on the outside state, record
    the call and its outcome, and propagate an exception. *)
Definition call {A} (f : ExtState → result A * ExtState)
    (ev : result A → event) : M A :=
  fun w =>
    let '(r, s) := f (ext w) in
    (r, log (ev r)
          {| ext := s; dirs := dirs w; files := files w; trace := trace w |}).

Definition set_file (path : string) (c : file Result) : M unit :=
  fun w =>
    (Ok tt, {| ext := ext w; dirs := dirs w;
               files := <[path := c]> (files w); trace := trace w |}).

Definition add_dir (path : string) : M unit :=
  fun w =>
    (Ok tt, {| ext := ext w; dirs := {[path]} ∪ dirs w;
               files := files w; trace := trace w |}).

Definition print (line : string) : M unit :=
  fun w => (Ok tt, log (EvPrint line) w).

(** [os.makedirs(path, exist_ok=...)]: an existing directory is accepted
    when [exist_ok] holds and is a [FileExistsError] otherwise, as is an
    existing file of that name; a missing directory is created unless
    the operating system refuses. *)
Definition os_makedirs (path : string) (exist_ok : bool) : M unit :=
  fun w =>
    if bool_decide (path ∈ dirs w) then
      if exist_ok then (Ok tt, log (EvMakedirs path exist_ok (Ok tt)) w)
      else
        let e := PyExc "FileExistsError" in
        (Raise e, log (EvMakedirs path exist_ok (Raise e)) w)
    else if bool_decide (is_Some (files w !! path)) then
      let e := PyExc "FileExistsError" in
      (Raise e, log (EvMakedirs path exist_ok (Raise e)) w)
    else
      (call (ext_mkdir path) (EvMakedirs path exist_ok);;
       add_dir path) w.

(** The body and the exit of the [with] block:
    [json.dump(obj, f, ensure_ascii=False, indent=2)], then the close of
    [f], made however the dump ended.  The block is left normally when
    both returned; an exception of the close replaces one of the dump. *)
Definition json_dump_close (path : string) (obj : OutputDict Result)
    (s : ExtState) : result unit * ExtState :=
  let '(r, s') := ext_json_dump path obj s in
  match ext_close path s' with
  | (Ok _, s'') => (r, s'')
  | (Raise e, s'') => (Raise e, s'')
  end.

(** [with open(path, 'w', encoding='utf-8') as f:
       json.dump(obj, f, ensure_ascii=False, indent=2)]:
    opening truncates the file; a block that raises, in the dump or in
    the close, leaves it incomplete; a block left normally leaves the
    whole document. *)
Definition write_json (path : string) (obj : OutputDict Result) : M unit :=
  call (ext_open_w path) (EvOpenW path);;
  set_file path FileEmpty;;
  fun w =>
    match call (json_dump_close path obj) (EvJsonDump path obj) w with
    | (Ok tt, w') => set_file path (FileJson obj) w'
    | (Raise e, w') =>
        match set_file path FilePartial w' with
        | (_, w'') => (Raise e, w'')
        end
    end.

(** ** The loading loop (lines 60-83) *)

(** One branch of the [if]/[elif] chain:
    [all_samples[key] = loader(args.data_path)] and the progress line. *)
Definition load_branch (args : Args) (key : string) (ld : loader)
    (label : string) (all_samples : dict (list Sample))
    : M (dict (list Sample)) :=
  do samples <- call (ext_load ld (data_path args)) (EvLoad ld (data_path args));
  let all_samples := dict_set key samples all_samples in
  do loaded <- lift (dict_getitem key all_samples);
  print ("Loaded " +:+ pretty (length loaded) +:+ " samples from " +:+ label);;
  ret all_samples.

Definition load_dataset (args : Args) (all_samples : dict (list Sample))
    (dataset_name : string) : M (dict (list Sample)) :=
  if String.eqb dataset_name "geo3k" then
    load_branch args "geo3k" load_geo3k_dataset "Geo3K" all_samples
  else if String.eqb dataset_name "wemath" then
    load_branch args "wemath" load_wemath_dataset "WeMath" all_samples
  else if String.eqb dataset_name "mathvista" then
    load_branch args "mathvista" load_mathvista_dataset "MathVista" all_samples
  else if String.eqb dataset_name "mathverse" then
    load_branch args "mathverse" load_mathverse_dataset "MathVerse" all_samples
  else if String.eqb dataset_name "mathvision" then
    load_branch args "mathvision" load_mathvision_dataset "MathVision" all_samples
  else if String.eqb dataset_name "hallubench" then
    load_branch args "hallubench" load_hallubench_dataset "HalluBench" all_samples
  else ret all_samples.

Fixpoint load_datasets (args : Args) (datasets_to_eval : list string)
    (all_samples : dict (list Sample)) : M (dict (list Sample)) :=
  match datasets_to_eval with
  | [] => ret all_samples
  | dataset_name :: rest =>
      do all_samples <- load_dataset args all_samples dataset_name;
      load_datasets args rest all_samples
  end.

(** ** The evaluation loop (lines 112-140) *)

(** [f"{x:.4f}"]: a number is formatted, a string is a [ValueError]
    (unknown format code), a dict or [None] a [TypeError] (unsupported
    format string). *)
Definition format_num (v : mvalue) : M string :=
  match v with
  | MNum x => ret (format_4f x)
  | MStr _ => raise (PyExc "ValueError")
  | MMap _ | MNone => raise (PyExc "TypeError")
  end.

(** [v.items()]: only a dict has the method. *)
Definition items_of (v : mvalue) : M (dict float) :=
  match v with
  | MMap d => ret d
  | MNum _ | MStr _ | MNone => raise (PyExc "AttributeError")
  end.

Fixpoint print_sub_accuracies (sub : dict float) : M unit :=
  match sub with
  | [] => ret tt
  | (task, acc) :: rest =>
      print ("    " +:+ task +:+ ": " +:+ format_4f acc);;
      print_sub_accuracies rest
  end.

Definition report_path (args : Args) (dataset_name : string) : string :=
  os_path_join (output_dir args) (dataset_name +:+ ".json").

Definition output_dict_of (args : Args) (results : list Result)
    (metrics : Metrics) : OutputDict Result :=
  [ ("results", VResults results);
    ("metrics", VMetrics metrics);
    ("config", VConfig (vars args)) ].

(** The body of the loop for one [(dataset_name, samples)] item. *)
Definition evaluate_dataset (args : Args) (llm : Engine)
    (sampling_params : SamplingParams) (all_results : dict (list Result))
    (item : string * list Sample) : M (dict (list Result)) :=
  let '(dataset_name, samples) := item in
  do pm <- call (ext_prepare_prompts dataset_name samples args)
             (EvPreparePrompts dataset_name samples args);
  let '(prompts, metadata) := pm in
  do outputs <- call (ext_generate llm prompts sampling_params)
                  (EvGenerate llm prompts sampling_params);
  do results <- call (ext_process_outputs outputs metadata (eval_threads args))
                  (EvProcessOutputs outputs metadata (eval_threads args));
  let all_results := dict_set dataset_name results all_results in
  do metrics <- call (ext_calculate_metrics results) (EvCalculateMetrics results);
  let output_dict := output_dict_of args results metrics in
  let output_path := report_path args dataset_name in
  write_json output_path output_dict;;
  print (str_upper dataset_name +:+ " Results:");;
  print ("  Total samples: " +:+ pretty (length results));;
  do accuracy <- lift (dict_getitem "accuracy" metrics);
  do shown <- format_num accuracy;
  print ("  Accuracy: " +:+ shown);;
  (if dict_has "sub_accuracies" metrics then
     print "  Task/Category Accuracies:";;
     do sub <- lift (dict_getitem "sub_accuracies" metrics);
     do sub_items <- items_of sub;
     print_sub_accuracies sub_items
   else ret tt);;
  print "";;
  ret all_results.

Fixpoint evaluate_all (args : Args) (llm : Engine)
    (sampling_params : SamplingParams) (all_results : dict (list Result))
    (items : dict (list Sample)) : M (dict (list Result)) :=
  match items with
  | [] => ret all_results
  | item :: rest =>
      do all_results <- evaluate_dataset args llm sampling_params all_results item;
      evaluate_all args llm sampling_params all_results rest
  end.

(** ** [main] *)

Definition all_datasets : list string :=
  ["geo3k"; "wemath"; "mathvista"; "mathverse"; "mathvision"; "hallubench"].

Definition datasets_to_eval (args : Args) : list string :=
  if negb (String.eqb (datasets args) "all") then str_split "," (datasets args)
  else all_datasets.

#[warnings="-inexact-float"]
Definition llm_args (args : Args) : LLMArgs :=
  {| llm_model := model args;
     llm_tensor_parallel_size := tensor_parallel_size args;
     llm_dtype := bfloat16;
     llm_gpu_memory_utilization := 0.7%float;
     llm_max_model_len := max_model_len args |}.

Definition sampling_args (args : Args) : SamplingArgs :=
  {| sp_temperature := temperature args;
     sp_top_p := top_p args;
     sp_max_tokens := max_tokens args;
     sp_repetition_penalty := repetition_penalty args |}.

Definition no_datasets_notice : string :=
  "No datasets loaded. Please check the paths and dataset names.".

Definition main (argv : Cli) : M unit :=
  let args := parse_arguments argv in
  os_makedirs (output_dir args) true;;
  do all_samples <- load_datasets args (datasets_to_eval args) [];
  match all_samples with
  | [] => print no_datasets_notice
  | _ :: _ =>
      print ("Initializing model from " +:+ model args);;
      do llm <- call (ext_LLM (llm_args args)) (EvLLM (llm_args args));
      do sampling_params <- call (ext_SamplingParams (sampling_args args))
                              (EvSamplingParams (sampling_args args));
      let all_results :=
        foldl (fun acc dataset_name => dict_set dataset_name [] acc)
              [] (dict_keys all_samples) in
      do all_results <- evaluate_all args llm sampling_params all_results all_samples;
      print ("All results saved to " +:+ output_dir args)
  end.

(** [if __name__ == "__main__": main()]: the interpreter exits with
    status 0 when [main] returns, and with status 1 when an ordinary
    exception escapes it.  A [SystemExit] carries its own status and a
    [KeyboardInterrupt] ends the process by a signal; they are not told
    apart here, and the properties below use the status of the runs
    that return only. *)
Definition exit_status (r : result unit) : Z :=
  match r with Ok _ => 0%Z | Raise _ => 1%Z end.

Definition run_script (argv : Cli) (w : World) : Z * World :=
  let '(r, w') := main argv w in (exit_status r, w').

End Driver.

Arguments event : clear implicits.
Arguments World : clear implicits.

(** ** What a trace shows *)

Section Observations.
Context {X : Externals}.

(** The events a computation adds to the trace, its outcome and the
    world it leaves. *)
Definition events_of {A} (m : M A) (w : World X) : list (event X) :=
  drop (length (trace w)) (trace (m w).2).

Definition outcome {A} (m : M A) (w : World X) : result A := (m w).1.

Definition final {A} (m : M A) (w : World X) : World X := (m w).2.

(** Loaders called, in order. *)
Definition ev_loader (e : event X) : option loader :=
  match e with EvLoad ld _ _ => Some ld | _ => None end.
Definition loads (evs : list (event X)) : list loader := omap ev_loader evs.

(** Datasets whose evaluation started (the first step of an iteration
    is [prepare_prompts]), in order. *)
Definition ev_prepared (e : event X) : option string :=
  match e with EvPreparePrompts d _ _ _ => Some d | _ => None end.
Definition prepared (evs : list (event X)) : list string := omap ev_prepared evs.

(** Files a [json.dump] was started on, successful or not, in order. *)
Definition ev_dumped (e : event X) : option string :=
  match e with EvJsonDump p _ _ => Some p | _ => None end.
Definition dumped (evs : list (event X)) : list string := omap ev_dumped evs.

(** Reports completely written, with their content, in order. *)
Definition ev_written (e : event X) : option (string * OutputDict Result) :=
  match e with EvJsonDump p obj (Ok _) => Some (p, obj) | _ => None end.
Definition written (evs : list (event X)) : list (string * OutputDict Result) :=
  omap ev_written evs.

(** Files opened for writing, successfully or not, in order. *)
Definition ev_opened (e : event X) : option string :=
  match e with EvOpenW p _ => Some p | _ => None end.
Definition opened (evs : list (event X)) : list string := omap ev_opened evs.

(** Calls of [llm.generate], in order. *)
Definition ev_generated (e : event X)
    : option (Engine * list Prompt * SamplingParams) :=
  match e with EvGenerate llm ps sp _ => Some (llm, ps, sp) | _ => None end.
Definition generated (evs : list (event X)) := omap ev_generated evs.

(** Calls of the [LLM] constructor, in order. *)
Definition ev_constructed (e : event X) : option (LLMArgs * result Engine) :=
  match e with EvLLM kw r => Some (kw, r) | _ => None end.
Definition constructed (evs : list (event X)) := omap ev_constructed evs.

(** Calls of the [SamplingParams] constructor, in order. *)
Definition ev_configured (e : event X)
    : option (SamplingArgs * result SamplingParams) :=
  match e with EvSamplingParams kw r => Some (kw, r) | _ => None end.
Definition configured (evs : list (event X)) := omap ev_configured evs.

(** Lines printed, in order. *)
Definition ev_printed (e : event X) : option string :=
  match e with EvPrint line => Some line | _ => None end.
Definition printed (evs : list (event X)) : list string := omap ev_printed evs.

(** Datasets whose iteration ran to its last statement, the bare
    [print()]: the dataset of the latest [prepare_prompts] is recorded
    when a blank line is printed. *)
Fixpoint completed_from (current : option string) (evs : list (event X))
    : list string :=
  match evs with
  | [] => []
  | EvPreparePrompts d _ _ _ :: evs' => completed_from (Some d) evs'
  | EvPrint EmptyString :: evs' =>
      match current with
      | Some d => d :: completed_from None evs'
      | None => completed_from None evs'
      end
  | _ :: evs' => completed_from current evs'
  end.

Definition completed (evs : list (event X)) : list string :=
  completed_from None evs.

End Observations.

(** The loader and the key behind a recognised dataset name. *)
Definition loader_of (name : string) : option loader :=
  if String.eqb name "geo3k" then Some load_geo3k_dataset
  else if String.eqb name "wemath" then Some load_wemath_dataset
  else if String.eqb name "mathvista" then Some load_mathvista_dataset
  else if String.eqb name "mathverse" then Some load_mathverse_dataset
  else if String.eqb name "mathvision" then Some load_mathvision_dataset
  else if String.eqb name "hallubench" then Some load_hallubench_dataset
  else None.

Definition loader_label (ld : loader) : string :=
  match ld with
  | load_geo3k_dataset => "Geo3K"
  | load_wemath_dataset => "WeMath"
  | load_mathvista_dataset => "MathVista"
  | load_mathverse_dataset => "MathVerse"
  | load_mathvision_dataset => "MathVision"
  | load_hallubench_dataset => "HalluBench"
  end.

Definition recognized (name : string) : bool :=
  match loader_of name with Some _ => true | None => false end.

(** The names of a list in order of first occurrence, skipping those
    already [seen]. *)
Fixpoint first_occurrences (seen l : list string) : list string :=
  match l with
  | [] => []
  | x :: l' =>
      if bool_decide (x ∈ seen) then first_occurrences seen l'
      else x :: first_occurrences (seen ++ [x]) l'
  end.

(** The datasets a run is asked to evaluate: the recognised names of the
    request, each once, in order of first request. *)
Definition selection (args : Args) : list string :=
  first_occurrences [] (filter (fun n => recognized n = true) (datasets_to_eval args)).

(** ** Vocabulary for the traces of a run *)

Section Vocabulary.
Context {X : Externals}.
Implicit Types (w : World X) (evs : list (event X)).

(** An event of a loading step that went through: a loader that returned
    on [args.data_path], or its progress line. *)
Definition load_ok_event (args : Args) (e : event X) : Prop :=
  match e with
  | EvLoad _ p (Ok _) => p = data_path args
  | EvPrint line =>
      ∃ (n : nat) ld,
        line = "Loaded " +:+ pretty n +:+ " samples from " +:+ loader_label ld
  | _ => False
  end.

Definition sub_accuracy_line (item : string * float) : string :=
  "    " +:+ item.1 +:+ ": " +:+ format_4f item.2.

(** The lines an iteration prints after writing its report. *)
Definition sub_accuracy_lines (metrics : Metrics) : list string :=
  match dict_get "sub_accuracies" metrics with
  | Some (MMap sub) => "  Task/Category Accuracies:" :: map sub_accuracy_line sub
  | _ => []
  end.

Definition summary_lines (d : string) (results : list Result)
    (metrics : Metrics) (x : float) : list string :=
  [ str_upper d +:+ " Results:";
    "  Total samples: " +:+ pretty (length results);
    "  Accuracy: " +:+ format_4f x ] ++
  sub_accuracy_lines metrics.

(** The events of an iteration that runs to its end, for given answers
    of the imported modules. *)
Definition iteration_events (args : Args) (llm : Engine) (sp : SamplingParams)
    (d : string) (samples : list Sample) (ps : list Prompt) (ms : list Meta)
    (outs : list Output) (rs : list Result) (m : Metrics) (x : float)
    : list (event X) :=
  [ EvPreparePrompts d samples args (Ok (ps, ms));
    EvGenerate llm ps sp (Ok outs);
    EvProcessOutputs outs ms (eval_threads args) (Ok rs);
    EvCalculateMetrics rs (Ok m);
    EvOpenW (report_path args d) (Ok tt);
    EvJsonDump (report_path args d) (output_dict_of args rs m) (Ok tt) ] ++
  map EvPrint (summary_lines d rs m x) ++ [EvPrint ""].

(** The answers recorded in the events of an iteration were given by the
    imported modules. *)
Definition answered (args : Args) (llm : Engine) (sp : SamplingParams)
    (d : string) (samples : list Sample) (ps : list Prompt) (ms : list Meta)
    (outs : list Output) (rs : list Result) (m : Metrics) : Prop :=
  (∃ s s', ext_prepare_prompts d samples args s = (Ok (ps, ms), s')) ∧
  (∃ s s', ext_generate llm ps sp s = (Ok outs, s')) ∧
  (∃ s s', ext_process_outputs outs ms (eval_threads args) s = (Ok rs, s')) ∧
  (∃ s s', ext_calculate_metrics rs s = (Ok m, s')).

(** What an iteration for dataset [d] may do after calling
    [prepare_prompts]: generate on the given engine with the given
    sampling object, process, aggregate, open and dump its own report
    file, and print. *)
Definition iteration_event (args : Args) (llm : Engine) (sp : SamplingParams)
    (d : string) (e : event X) : Prop :=
  match e with
  | EvGenerate llm' _ sp' _ => llm' = llm ∧ sp' = sp
  | EvProcessOutputs _ _ threads _ => threads = eval_threads args
  | EvCalculateMetrics _ _ => True
  | EvOpenW p _ => p = report_path args d
  | EvJsonDump p obj _ =>
      p = report_path args d ∧ ∃ rs m, obj = output_dict_of args rs m
  | EvPrint _ => True
  | _ => False
  end.

(** The traces of the evaluation loop over [items]: complete iterations
    in order, ended by the end of the list ([true]) or by an iteration
    that raises ([false]). *)
Inductive eval_trace (args : Args) (llm : Engine) (sp : SamplingParams)
    : dict (list Sample) → bool → list (event X) → Prop :=
| eval_trace_nil : eval_trace args llm sp [] true []
| eval_trace_ok d samples items ps ms outs rs m x ok evs :
    answered args llm sp d samples ps ms outs rs m →
    dict_get "accuracy" m = Some (MNum x) →
    eval_trace args llm sp items ok evs →
    eval_trace args llm sp ((d, samples) :: items) ok
      (iteration_events args llm sp d samples ps ms outs rs m x ++ evs)
| eval_trace_raise d samples items r0 tail :
    Forall (iteration_event args llm sp d) tail →
    prepared tail = [] →
    dumped tail = [] ∨ dumped tail = [report_path args d] →
    (written tail = [] ∨
     ∃ rs m, written tail = [(report_path args d, output_dict_of args rs m)]) →
    "" ∉ printed tail →
    eval_trace args llm sp ((d, samples) :: items) false
      (EvPreparePrompts d samples args r0 :: tail).

(** What the evaluation loop may do: everything an iteration may do,
    for the run's arguments, engine and sampling object. *)
Definition evaluation_event (args : Args) (llm : Engine) (sp : SamplingParams)
    (e : event X) : Prop :=
  match e with
  | EvPreparePrompts _ _ a _ => a = args
  | EvGenerate llm' _ sp' _ => llm' = llm ∧ sp' = sp
  | EvProcessOutputs _ _ threads _ => threads = eval_threads args
  | EvCalculateMetrics _ _ => True
  | EvOpenW _ _ => True
  | EvJsonDump _ obj _ => ∃ rs m, obj = output_dict_of args rs m
  | EvPrint _ => True
  | _ => False
  end.

(** What the loading loop left when it went through. *)
Definition loaded (args : Args) (all_samples : dict (list Sample))
    (levs : list (event X)) : Prop :=
  Forall (load_ok_event args) levs ∧
  loads levs = omap loader_of (datasets_to_eval args) ∧
  dict_keys all_samples = selection args ∧
  ∀ k v, dict_get k all_samples = Some v →
         ∃ ld, loader_of k = Some ld ∧ EvLoad ld (data_path args) (Ok v) ∈ levs.

Definition initializing_line (args : Args) : string :=
  "Initializing model from " +:+ model args.

Definition saved_line (args : Args) : string :=
  "All results saved to " +:+ output_dir args.

(** The traces of [main], by the place where the run ends. *)
Inductive main_trace (args : Args) : result unit → list (event X) → Prop :=
| main_makedirs_raised e :
    main_trace args (Raise e) [EvMakedirs (output_dir args) true (Raise e)]
| main_load_raised e ld levs :
    Forall (load_ok_event args) levs →
    loads levs ++ [ld] `prefix_of` omap loader_of (datasets_to_eval args) →
    main_trace args (Raise e)
      (EvMakedirs (output_dir args) true (Ok tt) ::
       levs ++ [EvLoad ld (data_path args) (Raise e)])
| main_no_datasets :
    selection args = [] →
    main_trace args (Ok tt)
      [EvMakedirs (output_dir args) true (Ok tt); EvPrint no_datasets_notice]
| main_llm_raised e all_samples levs :
    loaded args all_samples levs → selection args ≠ [] →
    main_trace args (Raise e)
      (EvMakedirs (output_dir args) true (Ok tt) ::
       levs ++ [EvPrint (initializing_line args);
                EvLLM (llm_args args) (Raise e)])
| main_sampling_raised e all_samples levs llm :
    loaded args all_samples levs → selection args ≠ [] →
    main_trace args (Raise e)
      (EvMakedirs (output_dir args) true (Ok tt) ::
       levs ++ [EvPrint (initializing_line args);
                EvLLM (llm_args args) (Ok llm);
                EvSamplingParams (sampling_args args) (Raise e)])
| main_evaluated r all_samples levs llm sp eevs :
    loaded args all_samples levs → selection args ≠ [] →
    eval_trace args llm sp all_samples (is_ok r) eevs →
    main_trace args r
      (EvMakedirs (output_dir args) true (Ok tt) ::
       levs ++ [EvPrint (initializing_line args);
                EvLLM (llm_args args) (Ok llm);
                EvSamplingParams (sampling_args args) (Ok sp)] ++
       eevs ++ (if is_ok r then [EvPrint (saved_line args)] else [])).

(** Events of the loading phase, and of the engine set-up. *)
Definition loading_event (e : event X) : Prop :=
  match e with
  | EvLoad _ _ _ => True
  | EvPrint line => line ≠ ""
  | _ => False
  end.

Definition setup_event (e : event X) : Prop :=
  match e with
  | EvLLM _ _ | EvSamplingParams _ _ => True
  | EvPrint line => line ≠ ""
  | _ => False
  end.

Definition evaluating_event (e : event X) : Prop :=
  match e with
  | EvMakedirs _ _ _ | EvLoad _ _ _ | EvLLM _ _ | EvSamplingParams _ _ => False
  | _ => True
  end.

(** The six ways a run can go, by its parts: [makedirs] raised; a loader
    raised; no dataset was selected; the engine constructor raised; the
    sampling constructor raised; the evaluation loop was entered. *)
Definition run_cases (args : Args) (r : result unit) (rmk : result unit)
    (levs setup eevs : list (event X)) (closing : list string) : Prop :=
  (∃ e, r = Raise e ∧ rmk = Raise e ∧ levs = [] ∧ setup = [] ∧ eevs = [] ∧
        closing = []) ∨
  (∃ e ld levs0,
     r = Raise e ∧ rmk = Ok tt ∧
     levs = levs0 ++ [EvLoad ld (data_path args) (Raise e)] ∧
     Forall (load_ok_event args) levs0 ∧
     setup = [] ∧ eevs = [] ∧ closing = []) ∨
  (r = Ok tt ∧ rmk = Ok tt ∧ levs = [] ∧ setup = [] ∧ eevs = [] ∧
   closing = [no_datasets_notice] ∧ selection args = []) ∨
  (∃ e all_samples,
     r = Raise e ∧ rmk = Ok tt ∧ loaded args all_samples levs ∧
     selection args ≠ [] ∧
     setup = [EvPrint (initializing_line args);
              EvLLM (llm_args args) (Raise e)] ∧
     eevs = [] ∧ closing = []) ∨
  (∃ e all_samples llm,
     r = Raise e ∧ rmk = Ok tt ∧ loaded args all_samples levs ∧
     selection args ≠ [] ∧
     setup = [EvPrint (initializing_line args);
              EvLLM (llm_args args) (Ok llm);
              EvSamplingParams (sampling_args args) (Raise e)] ∧
     eevs = [] ∧ closing = []) ∨
  (∃ all_samples llm sp,
     rmk = Ok tt ∧ loaded args all_samples levs ∧ selection args ≠ [] ∧
     setup = [EvPrint (initializing_line args);
              EvLLM (llm_args args) (Ok llm);
              EvSamplingParams (sampling_args args) (Ok sp)] ∧
     eval_trace args llm sp all_samples (is_ok r) eevs ∧
     closing = if is_ok r then [saved_line args] else []).

(** Steps of the set-up that returned: no [makedirs] and no loader
    raised. *)
Definition loading_step_returned (e : event X) : Prop :=
  match e with
  | EvMakedirs _ _ (Raise _) | EvLoad _ _ (Raise _) => False
  | _ => True
  end.

End Vocabulary.

(** ** Vocabulary for the exact traces of a run *)

#[global] Instance loader_eq_dec : EqDecision loader.
Proof. solve_decision. Defined.

(** The exception of a result, if it is one. *)
Definition exn_of {A} (r : result A) : option exn :=
  match r with Ok _ => None | Raise ex => Some ex end.

(** The progress line of the loading loop. *)
Definition loaded_line (n : nat) (ld : loader) : string :=
  "Loaded " +:+ pretty n +:+ " samples from " +:+ loader_label ld.

(** [all_results] as lines 108-110 leave it: every key of [all_samples],
    in order, with an empty list. *)
Definition initial_results {S R : Type} (all_samples : dict (list S))
    : dict (list R) :=
  foldl (fun acc dataset_name => dict_set dataset_name [] acc)
        [] (dict_keys all_samples).

(** The number of occurrences of a character in a string. *)
Fixpoint count_char (c : ascii) (s : string) : nat :=
  match s with
  | EmptyString => 0
  | String c' s' => (if Ascii.eqb c' c then 1 else 0) + count_char c s'
  end.

(** The first characters of the lines a run prints before its closing
    line: progress lines, the line before the engine is constructed, and
    the summaries (headed by a dataset name in capitals, then indented). *)
Definition body_line (line : string) : Prop :=
  match line with
  | EmptyString => True
  | String c _ => c ∈ ["L"; "I"; " "; "G"; "W"; "M"; "H"]%char
  end.

Section Exact.
Context {X : Externals}.
Implicit Types (w : World X) (evs : list (event X)).

(** The exception a call raised, if it raised. *)
Definition ev_raised (e : event X) : option exn :=
  match e with
  | EvMakedirs _ _ r => exn_of r
  | EvLoad _ _ r => exn_of r
  | EvPrint _ => None
  | EvLLM _ r => exn_of r
  | EvSamplingParams _ r => exn_of r
  | EvPreparePrompts _ _ _ r => exn_of r
  | EvGenerate _ _ _ r => exn_of r
  | EvProcessOutputs _ _ _ r => exn_of r
  | EvCalculateMetrics _ r => exn_of r
  | EvOpenW _ r => exn_of r
  | EvJsonDump _ _ r => exn_of r
  end.
Definition raised (evs : list (event X)) : list exn := omap ev_raised evs.

(** The sample lists a given loader returned, in order. *)
Definition ev_loaded (ld : loader) (e : event X) : option (list Sample) :=
  match e with
  | EvLoad ld' _ (Ok samples) => if decide (ld' = ld) then Some samples else None
  | _ => None
  end.
Definition loaded_by (ld : loader) (evs : list (event X)) : list (list Sample) :=
  omap (ev_loaded ld) evs.

(** What an event does to the content [c] of the file at [p]: a
    successful open truncates it, a [with] block left normally leaves
    the document, one that raises leaves it incomplete. *)
Definition replay_event (p : string) (c : option (file Result)) (e : event X)
    : option (file Result) :=
  match e with
  | EvOpenW q (Ok _) => if String.eqb q p then Some FileEmpty else c
  | EvJsonDump q obj (Ok _) => if String.eqb q p then Some (FileJson obj) else c
  | EvJsonDump q _ (Raise _) => if String.eqb q p then Some FilePartial else c
  | _ => c
  end.
Definition replay (p : string) (c : option (file Result)) (evs : list (event X))
    : option (file Result) :=
  foldl (replay_event p) c evs.

(** The traces of the loading loop over [names], from the dict [all]:
    an unrecognised name leaves no event, a recognised one its loader
    call and, when that returned, the progress line. *)
Inductive load_trace (args : Args)
    : list string → dict (list Sample) → result (dict (list Sample)) →
      list (event X) → Prop :=
| load_trace_nil all : load_trace args [] all (Ok all) []
| load_trace_skip name names all r evs :
    loader_of name = None →
    load_trace args names all r evs →
    load_trace args (name :: names) all r evs
| load_trace_ok name names all ld samples r evs :
    loader_of name = Some ld →
    load_trace args names (dict_set name samples all) r evs →
    load_trace args (name :: names) all r
      (EvLoad ld (data_path args) (Ok samples) ::
       EvPrint (loaded_line (length samples) ld) :: evs)
| load_trace_raise name names all ld e :
    loader_of name = Some ld →
    load_trace args (name :: names) all (Raise e)
      [EvLoad ld (data_path args) (Raise e)].

(** The six calls of an iteration, all of them returning. *)
Definition pipeline_calls (args : Args) (llm : Engine) (sp : SamplingParams)
    (d : string) (samples : list Sample) (ps : list Prompt) (ms : list Meta)
    (outs : list Output) (rs : list Result) (m : Metrics) : list (event X) :=
  [ EvPreparePrompts d samples args (Ok (ps, ms));
    EvGenerate llm ps sp (Ok outs);
    EvProcessOutputs outs ms (eval_threads args) (Ok rs);
    EvCalculateMetrics rs (Ok m);
    EvOpenW (report_path args d) (Ok tt);
    EvJsonDump (report_path args d) (output_dict_of args rs m) (Ok tt) ].

(** A value the driver can iterate over with [.items()]. *)
Definition is_map (v : mvalue) : Prop :=
  match v with MMap _ => True | _ => False end.

(** The exception of formatting a value with [.4f], if it cannot be. *)
Definition format_error (v : mvalue) : option exn :=
  match v with
  | MNum _ => None
  | MStr _ => Some (PyExc "ValueError")
  | MMap _ | MNone => Some (PyExc "TypeError")
  end.

(** Metrics the summary can print: [accuracy] is a number, and
    [sub_accuracies], when present, is a dict. *)
Definition good_metrics (m : Metrics) (x : float) : Prop :=
  dict_get "accuracy" m = Some (MNum x) ∧
  ∀ v, dict_get "sub_accuracies" m = Some v → is_map v.

(** The exception of the driver's own reading of the metrics (lines
    135-138), if it raises: [metrics['accuracy']] is a [KeyError] without
    the key, the format of a value that is no number raises, and so does
    [.items()] on [sub_accuracies] when that is no dict. *)
Definition summary_error (m : Metrics) : option exn :=
  match dict_get "accuracy" m with
  | None => Some (PyExc "KeyError")
  | Some (MNum _) =>
      match dict_get "sub_accuracies" m with
      | Some (MMap _) | None => None
      | Some _ => Some (PyExc "AttributeError")
      end
  | Some v => format_error v
  end.

(** The lines of a summary that was cut short by that exception: the
    header and the total and, when the accuracy could be printed, the
    accuracy and the header of the sub-accuracies. *)
Definition partial_summary (d : string) (results : list Result)
    (metrics : Metrics) : list string :=
  [ str_upper d +:+ " Results:";
    "  Total samples: " +:+ pretty (length results) ] ++
  match dict_get "accuracy" metrics with
  | Some (MNum x) =>
      [ "  Accuracy: " +:+ format_4f x; "  Task/Category Accuracies:" ]
  | _ => []
  end.

(** The traces of an iteration that raises, with the exception: one of
    the six calls raised, or the driver's own reading of the metrics did,
    after the report was written. *)
Inductive failed_iteration (args : Args) (llm : Engine) (sp : SamplingParams)
    (d : string) (samples : list Sample) : exn → list (event X) → Prop :=
| failed_prepare e :
    failed_iteration args llm sp d samples e
      [ EvPreparePrompts d samples args (Raise e) ]
| failed_generate e ps ms :
    failed_iteration args llm sp d samples e
      [ EvPreparePrompts d samples args (Ok (ps, ms));
        EvGenerate llm ps sp (Raise e) ]
| failed_process e ps ms outs :
    failed_iteration args llm sp d samples e
      [ EvPreparePrompts d samples args (Ok (ps, ms));
        EvGenerate llm ps sp (Ok outs);
        EvProcessOutputs outs ms (eval_threads args) (Raise e) ]
| failed_metrics e ps ms outs rs :
    failed_iteration args llm sp d samples e
      [ EvPreparePrompts d samples args (Ok (ps, ms));
        EvGenerate llm ps sp (Ok outs);
        EvProcessOutputs outs ms (eval_threads args) (Ok rs);
        EvCalculateMetrics rs (Raise e) ]
| failed_open e ps ms outs rs m :
    failed_iteration args llm sp d samples e
      [ EvPreparePrompts d samples args (Ok (ps, ms));
        EvGenerate llm ps sp (Ok outs);
        EvProcessOutputs outs ms (eval_threads args) (Ok rs);
        EvCalculateMetrics rs (Ok m);
        EvOpenW (report_path args d) (Raise e) ]
| failed_dump e ps ms outs rs m :
    failed_iteration args llm sp d samples e
      [ EvPreparePrompts d samples args (Ok (ps, ms));
        EvGenerate llm ps sp (Ok outs);
        EvProcessOutputs outs ms (eval_threads args) (Ok rs);
        EvCalculateMetrics rs (Ok m);
        EvOpenW (report_path args d) (Ok tt);
        EvJsonDump (report_path args d) (output_dict_of args rs m) (Raise e) ]
| failed_no_accuracy ps ms outs rs m :
    dict_get "accuracy" m = None →
    failed_iteration args llm sp d samples (PyExc "KeyError")
      (pipeline_calls args llm sp d samples ps ms outs rs m ++
       [ EvPrint (str_upper d +:+ " Results:");
         EvPrint ("  Total samples: " +:+ pretty (length rs)) ])
| failed_accuracy_format ps ms outs rs m v e :
    dict_get "accuracy" m = Some v → format_error v = Some e →
    failed_iteration args llm sp d samples e
      (pipeline_calls args llm sp d samples ps ms outs rs m ++
       [ EvPrint (str_upper d +:+ " Results:");
         EvPrint ("  Total samples: " +:+ pretty (length rs)) ])
| failed_sub_accuracies_items ps ms outs rs m x v :
    dict_get "accuracy" m = Some (MNum x) →
    dict_get "sub_accuracies" m = Some v → ¬ is_map v →
    failed_iteration args llm sp d samples (PyExc "AttributeError")
      (pipeline_calls args llm sp d samples ps ms outs rs m ++
       [ EvPrint (str_upper d +:+ " Results:");
         EvPrint ("  Total samples: " +:+ pretty (length rs));
         EvPrint ("  Accuracy: " +:+ format_4f x);
         EvPrint "  Task/Category Accuracies:" ]).

(** The traces of the evaluation loop over [items]: complete iterations
    in order, up to the end of the list ([None]) or to an iteration that
    raises ([Some e]). *)
Inductive eval_run (args : Args) (llm : Engine) (sp : SamplingParams)
    : dict (list Sample) → option exn → list (event X) → Prop :=
| eval_run_nil : eval_run args llm sp [] None []
| eval_run_ok d samples items ps ms outs rs m x o evs :
    good_metrics m x →
    eval_run args llm sp items o evs →
    eval_run args llm sp ((d, samples) :: items) o
      (iteration_events args llm sp d samples ps ms outs rs m x ++ evs)
| eval_run_failed d samples items e tail :
    failed_iteration args llm sp d samples e tail →
    eval_run args llm sp ((d, samples) :: items) (Some e) tail.

(** The trace ends with a call that raised [ex], the only one that
    raised. *)
Definition raised_last (ex : exn) (evs : list (event X)) : Prop :=
  ∃ pre e, evs = pre ++ [e] ∧ ev_raised e = Some ex ∧ raised pre = [].


(** The outcome recorded for a call of [prepare_prompts], [generate] or
    [process_outputs] is what the imported function answers to those
    arguments, in some state of the outside. *)
Definition answered_event (e : event X) : Prop :=
  match e with
  | EvPreparePrompts d samples a r =>
      ∃ s s', ext_prepare_prompts d samples a s = (r, s')
  | EvGenerate llm ps sp r => ∃ s s', ext_generate llm ps sp s = (r, s')
  | EvProcessOutputs outs ms threads r =>
      ∃ s s', ext_process_outputs outs ms threads s = (r, s')
  | _ => True
  end.

(** A computation that only adds events to the trace, all of them
    satisfying [P]. *)
Definition appends (P : event X → Prop) {A} (m : M A) : Prop :=
  ∀ w, ∃ evs, trace (m w).2 = trace w ++ evs ∧ Forall P evs.

(** The calls of the evaluation loop. *)
Definition pipeline_event (e : event X) : Prop :=
  match e with
  | EvPreparePrompts _ _ _ _ | EvGenerate _ _ _ _ | EvProcessOutputs _ _ _ _
  | EvCalculateMetrics _ _ | EvOpenW _ _ | EvJsonDump _ _ _ => True
  | _ => False
  end.

(** The arguments the driver passes to a call, for the namespace
    [args]. *)
Definition call_of (args : Args) (e : event X) : Prop :=
  match e with
  | EvMakedirs path exist_ok _ => path = output_dir args ∧ exist_ok = true
  | EvLoad _ path _ => path = data_path args
  | EvLLM kw _ => kw = llm_args args
  | EvSamplingParams kw _ => kw = sampling_args args
  | EvPreparePrompts _ _ a _ => a = args
  | EvProcessOutputs _ _ threads _ => threads = eval_threads args
  | _ => True
  end.

(** The parts of a run: the outcome of [makedirs], the events of the
    loading loop, of the engine set-up and of the evaluation loop, and
    the closing lines. *)
Inductive run_parts (args : Args)
    : result unit → result unit → list (event X) → list (event X) →
      list (event X) → list string → Prop :=
| run_makedirs_raised e :
    run_parts args (Raise e) (Raise e) [] [] [] []
| run_load_raised e levs :
    load_trace args (datasets_to_eval args) [] (Raise e) levs →
    run_parts args (Raise e) (Ok tt) levs [] [] []
| run_no_datasets :
    load_trace args (datasets_to_eval args) [] (Ok []) [] →
    run_parts args (Ok tt) (Ok tt) [] [] [] [no_datasets_notice]
| run_llm_raised e all_samples levs :
    load_trace args (datasets_to_eval args) [] (Ok all_samples) levs →
    all_samples ≠ [] →
    run_parts args (Raise e) (Ok tt) levs
      [EvPrint (initializing_line args); EvLLM (llm_args args) (Raise e)]
      [] []
| run_sampling_raised e all_samples levs llm :
    load_trace args (datasets_to_eval args) [] (Ok all_samples) levs →
    all_samples ≠ [] →
    run_parts args (Raise e) (Ok tt) levs
      [EvPrint (initializing_line args); EvLLM (llm_args args) (Ok llm);
       EvSamplingParams (sampling_args args) (Raise e)]
      [] []
| run_iteration_raised e all_samples levs llm sp eevs :
    load_trace args (datasets_to_eval args) [] (Ok all_samples) levs →
    all_samples ≠ [] →
    eval_run args llm sp all_samples (Some e) eevs →
    run_parts args (Raise e) (Ok tt) levs
      [EvPrint (initializing_line args); EvLLM (llm_args args) (Ok llm);
       EvSamplingParams (sampling_args args) (Ok sp)]
      eevs []
| run_completed all_samples levs llm sp eevs :
    load_trace args (datasets_to_eval args) [] (Ok all_samples) levs →
    all_samples ≠ [] →
    eval_run args llm sp all_samples None eevs →
    run_parts args (Ok tt) (Ok tt) levs
      [EvPrint (initializing_line args); EvLLM (llm_args args) (Ok llm);
       EvSamplingParams (sampling_args args) (Ok sp)]
      eevs [saved_line args].

End Exact.

(** ** A family of concrete environments

    Samples, prompts, metadata and generations are numbers, a result is a
    correctness flag, the engine is a handle and the sampling object is
    its own keyword record.  The outside state counts the calls made so
    far.  An environment is fixed by what each loader answers, what the
    engine answers to a batch and what the aggregator answers. *)
Module Scenario.

Definition count {A} (r : result A) (s : nat) : result A * nat := (r, S s).

Definition env (load : loader → result (list nat))
    (generate : list nat → result (list nat))
    (metrics : list bool → result Metrics) : Externals :=
  {| Sample := nat; Prompt := nat; Meta := nat; Output := nat; Result := bool;
     Engine := nat; SamplingParams := SamplingArgs; ExtState := nat;
     ext_load := fun ld _ => count (load ld);
     ext_prepare_prompts := fun _ samples _ => count (Ok (samples, samples));
     ext_process_outputs := fun outputs metadata _ =>
       count (Ok (zip_with Nat.eqb outputs metadata));
     ext_calculate_metrics := fun results => count (metrics results);
     ext_LLM := fun _ s => (Ok s, S s);
     ext_SamplingParams := fun kw => count (Ok kw);
     ext_generate := fun _ prompts _ => count (generate prompts);
     ext_mkdir := fun _ => count (Ok tt);
     ext_open_w := fun _ => count (Ok tt);
     ext_json_dump := fun _ _ => count (Ok tt);
     ext_close := fun _ => count (Ok tt);
     format_4f := fun _ => "1.0000" |}.

Definition cli (dir : string) (names : option string) : Cli :=
  {| cli_model := "model"; cli_output_dir := dir;
     cli_max_tokens := None; cli_min_pixels := None; cli_max_pixels := None;
     cli_max_model_len := None; cli_temperature := None; cli_top_p := None;
     cli_repetition_penalty := None; cli_tensor_parallel_size := None;
     cli_eval_threads := None; cli_system_prompt := None;
     cli_datasets := names; cli_data_path := Some "data" |}.

(** An empty file system, and one where the output directory exists. *)
Definition start (X : Externals) (s : @ExtState X) : World X :=
  {| ext := s; dirs := ∅; files := ∅; trace := [] |}.

Definition start_in (X : Externals) (s : @ExtState X) (dir : string) : World X :=
  {| ext := s; dirs := {[dir]}; files := ∅; trace := [] |}.

Definition full_marks : Metrics := [("accuracy", MNum 1.0%float)].

Definition accuracy_only (results : list bool) : result Metrics := Ok full_marks.

(** Every loader returns two samples, generation echoes the prompts. *)
Definition healthy : Externals :=
  env (fun _ => Ok [1; 2]%nat) (fun prompts => Ok prompts) accuracy_only.

(** As [healthy], but the Geo3K loader raises. *)
Definition geo3k_missing : Externals :=
  env (fun ld => match ld with
                 | load_geo3k_dataset => Raise (PyExc "DataLoadError")
                 | _ => Ok [1; 2]%nat
                 end)
      (fun prompts => Ok prompts) accuracy_only.

(** As [healthy], but the WeMath loader raises. *)
Definition wemath_missing : Externals :=
  env (fun ld => match ld with
                 | load_wemath_dataset => Raise (PyExc "DataLoadError")
                 | _ => Ok [1; 2]%nat
                 end)
      (fun prompts => Ok prompts) accuracy_only.

(** As [healthy], but the Geo3K loader finds no sample. *)
Definition geo3k_empty : Externals :=
  env (fun ld => match ld with
                 | load_geo3k_dataset => Ok []
                 | _ => Ok [1; 2]%nat
                 end)
      (fun prompts => Ok prompts) accuracy_only.

(** WeMath has one sample, [3], and generation raises on its batch. *)
Definition wemath_generation_error : Externals :=
  env (fun ld => match ld with
                 | load_wemath_dataset => Ok [3]%nat
                 | _ => Ok [1; 2]%nat
                 end)
      (fun prompts => match prompts with
                      | [3%nat] => Raise (PyExc "GenerationError")
                      | _ => Ok prompts
                      end)
      accuracy_only.

(** As [healthy], but the close of the report at [path] raises: what
    [json.dump] buffered cannot be flushed. *)
Definition close_fails_on (path : string) : Externals :=
  {| Sample := nat; Prompt := nat; Meta := nat; Output := nat; Result := bool;
     Engine := nat; SamplingParams := SamplingArgs; ExtState := nat;
     ext_load := fun _ _ => count (Ok [1; 2]%nat);
     ext_prepare_prompts := fun _ samples _ => count (Ok (samples, samples));
     ext_process_outputs := fun outputs metadata _ =>
       count (Ok (zip_with Nat.eqb outputs metadata));
     ext_calculate_metrics := fun results => count (accuracy_only results);
     ext_LLM := fun _ s => (Ok s, S s);
     ext_SamplingParams := fun kw => count (Ok kw);
     ext_generate := fun _ prompts _ => count (Ok prompts);
     ext_mkdir := fun _ => count (Ok tt);
     ext_open_w := fun _ => count (Ok tt);
     ext_json_dump := fun _ _ => count (Ok tt);
     ext_close := fun p =>
       count (if String.eqb p path then Raise (PyExc "OSError") else Ok tt);
     format_4f := fun _ => "1.0000" |}.

End Scenario.

(** ** Environments with faults

    As in [Scenario], with more of the outside left open: what a loader
    answers may depend on the number of calls made so far, and the
    aggregator, [open], [json.dump] and the close of the file may
    answer anything. *)
Module Faults.
Import Scenario.

Definition env (load : loader → nat → result (list nat))
    (metrics : list bool → result Metrics)
    (open_w dump close : string → result unit) : Externals :=
  {| Sample := nat; Prompt := nat; Meta := nat; Output := nat; Result := bool;
     Engine := nat; SamplingParams := SamplingArgs; ExtState := nat;
     ext_load := fun ld _ s => (load ld s, S s);
     ext_prepare_prompts := fun _ samples _ => count (Ok (samples, samples));
     ext_process_outputs := fun outputs metadata _ =>
       count (Ok (zip_with Nat.eqb outputs metadata));
     ext_calculate_metrics := fun results => count (metrics results);
     ext_LLM := fun _ s => (Ok s, S s);
     ext_SamplingParams := fun kw => count (Ok kw);
     ext_generate := fun _ prompts _ => count (Ok prompts);
     ext_mkdir := fun _ => count (Ok tt);
     ext_open_w := fun p => count (open_w p);
     ext_json_dump := fun p _ => count (dump p);
     ext_close := fun p => count (close p);
     format_4f := fun _ => "1.0000" |}.

Definition fine (p : string) : result unit := Ok tt.

(** Every loader returns the number of calls made before its own. *)
Definition numbered : Externals :=
  env (fun _ s => Ok [s]) accuracy_only fine fine fine.


(** The aggregator returns sub-accuracies for two tasks. *)
Definition two_tasks : Metrics :=
  [ ("accuracy", MNum 1.0%float);
    ("sub_accuracies", MMap [("algebra", 1.0%float); ("geometry", 1.0%float)]) ].

Definition with_tasks : Externals :=
  env (fun _ _ => Ok [1; 2]%nat) (fun _ => Ok two_tasks) fine fine fine.

(** The disk is full: [json.dump] raises. *)
Definition disk_full : Externals :=
  env (fun _ _ => Ok [1; 2]%nat) accuracy_only fine
      (fun _ => Raise (PyExc "OSError")) fine.

(** The disk fills up when the buffer is flushed: [json.dump] returns
    and the close of the file raises. *)
Definition flush_fails : Externals :=
  env (fun _ _ => Ok [1; 2]%nat) accuracy_only fine fine
      (fun _ => Raise (PyExc "OSError")).

(** The Geo3K loader finds no sample, and the aggregator returns a dict
    without [accuracy]. *)
Definition empty_without_accuracy : Externals :=
  env (fun ld _ => match ld with
                   | load_geo3k_dataset => Ok []
                   | _ => Ok [1; 2]%nat
                   end)
      (fun _ => Ok []) fine fine fine.

(** The accuracy is a string. *)
Definition accuracy_text : Externals :=
  env (fun _ _ => Ok [1; 2]%nat) (fun _ => Ok [("accuracy", MStr "n/a")])
      fine fine fine.

(** The report file cannot be opened. *)
Definition read_only : Externals :=
  env (fun _ _ => Ok [1; 2]%nat) accuracy_only
      (fun _ => Raise (PyExc "PermissionError")) fine fine.

(** A report left by an earlier run. *)
Definition stale : file bool := FileJson [].

Definition start_with (X : Externals) (s : @ExtState X) (dir path : string)
    (c : file (@Result X)) : World X :=
  {| ext := s; dirs := {[dir]}; files := {[path := c]}; trace := [] |}.

End Faults.

(** * Properties *)

(** ** Dictionaries, names and paths *)

Section Dict.
Context {V : Type}.
Implicit Types (d : dict V) (k : string) (v : V).

Lemma dict_get_set_eq k v d : dict_get k (dict_set k v d) = Some v.
Proof.
  induction d as [|[k' v'] d IH]; csimpl.
  - by rewrite String.eqb_refl.
  - destruct (String.eqb k k') eqn:E; csimpl.
    + by rewrite String.eqb_refl.
    + by rewrite E.
Qed.

Lemma dict_get_set_ne k k' v d :
  k ≠ k' → dict_get k' (dict_set k v d) = dict_get k' d.
Proof.
  intros Hne. induction d as [|[k0 v0] d IH]; csimpl.
  - destruct (String.eqb_spec k' k); congruence.
  - destruct (String.eqb_spec k k0) as [->|Hk]; csimpl.
    + destruct (String.eqb_spec k' k0); congruence.
    + destruct (String.eqb_spec k' k0); congruence.
Qed.

Lemma dict_getitem_set k v d : dict_getitem k (dict_set k v d) = Ok v.
Proof. unfold dict_getitem. by rewrite dict_get_set_eq. Qed.

Lemma dict_keys_set k v d :
  dict_keys (dict_set k v d) =
  if bool_decide (k ∈ dict_keys d) then dict_keys d else dict_keys d ++ [k].
Proof.
  unfold dict_keys. induction d as [|[k' v'] d IH]; csimpl; [done|].
  destruct (String.eqb_spec k k') as [->|Hk]; csimpl.
  - rewrite bool_decide_eq_true_2 by set_solver. done.
  - rewrite IH. repeat case_bool_decide; try done; set_solver.
Qed.

Lemma dict_get_None k d : dict_get k d = None ↔ k ∉ dict_keys d.
Proof.
  unfold dict_keys. induction d as [|[k' v'] d IH]; csimpl.
  - split; [intros _; apply not_elem_of_nil|done].
  - destruct (String.eqb_spec k k') as [->|Hk].
    + split; [done|]. intros H. destruct H. apply list_elem_of_here.
    + rewrite IH. rewrite not_elem_of_cons. naive_solver.
Qed.

Lemma dict_get_elem_of k v d : dict_get k d = Some v → (k, v) ∈ d.
Proof.
  induction d as [|[k' v'] d IH]; csimpl; [done|].
  destruct (String.eqb_spec k k') as [->|Hk].
  - intros [= ->]. apply list_elem_of_here.
  - intros H. apply list_elem_of_further. auto.
Qed.

Lemma elem_of_dict_get k v d :
  NoDup (dict_keys d) → (k, v) ∈ d → dict_get k d = Some v.
Proof.
  unfold dict_keys. induction d as [|[k' v'] d IH]; csimpl.
  - intros _ H. by apply elem_of_nil in H.
  - intros [Hk' Hnd]%NoDup_cons [Heq|Hin]%elem_of_cons.
    + injection Heq as -> ->. by rewrite String.eqb_refl.
    + destruct (String.eqb_spec k k') as [->|Hne]; [|auto].
      destruct Hk'. apply list_elem_of_fmap. by exists (k', v).
Qed.

End Dict.

Example str_split_request :
  str_split "," "geo3k,foo, wemath," = ["geo3k"; "foo"; " wemath"; ""].
Proof. reflexivity. Qed.

Example str_split_empty : str_split "," "" = [""].
Proof. reflexivity. Qed.

Example os_path_join_plain : os_path_join "out" "geo3k.json" = "out/geo3k.json".
Proof. reflexivity. Qed.

Example os_path_join_trailing_sep :
  os_path_join "out/" "geo3k.json" = "out/geo3k.json".
Proof. reflexivity. Qed.

Example str_upper_name : str_upper "geo3k" = "GEO3K".
Proof. reflexivity. Qed.

Lemma loader_of_all_datasets :
  omap loader_of all_datasets =
  [load_geo3k_dataset; load_wemath_dataset; load_mathvista_dataset;
   load_mathverse_dataset; load_mathvision_dataset; load_hallubench_dataset].
Proof. reflexivity. Qed.

Ltac case_eqb :=
  match goal with
  | |- context [String.eqb ?a ?b] =>
      destruct (String.eqb_spec a b) as [->|?]
  end.

Lemma recognized_elem_of name : recognized name = true ↔ name ∈ all_datasets.
Proof.
  unfold recognized, loader_of, all_datasets. split.
  - repeat (case_eqb; [intros _; set_solver|]). discriminate.
  - rewrite !elem_of_cons, elem_of_nil.
    intros [->|[->|[->|[->|[->|[->|[]]]]]]]; reflexivity.
Qed.

Lemma loader_of_inj n1 n2 ld :
  loader_of n1 = Some ld → loader_of n2 = Some ld → n1 = n2.
Proof.
  unfold loader_of. repeat case_eqb; congruence.
Qed.

Lemma append_cancel_l (a x y : string) : a +:+ x = a +:+ y → x = y.
Proof. induction a as [|c a IH]; simpl; [done|]. intros [= H]. auto. Qed.

(** Distinct recognised names have distinct report files. *)
Lemma report_path_inj args d1 d2 :
  recognized d1 = true → recognized d2 = true →
  report_path args d1 = report_path args d2 → d1 = d2.
Proof.
  rewrite !recognized_elem_of. unfold all_datasets, report_path, os_path_join.
  rewrite !elem_of_cons, !elem_of_nil.
  intros H1 H2.
  destruct (String.eqb (output_dir args) "" || ends_with_sep (output_dir args));
    destruct H1 as [->|[->|[->|[->|[->|[->|[]]]]]]];
    destruct H2 as [->|[->|[->|[->|[->|[->|[]]]]]]];
    simpl; intros H; try reflexivity;
    apply append_cancel_l in H; discriminate H.
Qed.

Lemma first_occurrences_spec seen l x :
  x ∈ first_occurrences seen l → x ∈ l ∧ x ∉ seen.
Proof.
  revert seen. induction l as [|y l IH]; intros seen; simpl.
  - by intros ?%elem_of_nil.
  - case_bool_decide as Hy.
    + intros [? ?]%IH. split; [by apply list_elem_of_further|done].
    + intros [->|Hin]%elem_of_cons; [split; [apply list_elem_of_here|done]|].
      apply IH in Hin as [? Hn]. split; [by apply list_elem_of_further|].
      intros ?. apply Hn. apply elem_of_app. by left.
Qed.

Lemma first_occurrences_NoDup seen l : NoDup (first_occurrences seen l).
Proof.
  revert seen. induction l as [|y l IH]; intros seen; simpl.
  - constructor.
  - case_bool_decide; [apply IH|].
    constructor; [|apply IH].
    intros [_ Hn]%first_occurrences_spec. apply Hn, elem_of_app.
    right. apply list_elem_of_here.
Qed.

Lemma first_occurrences_id seen l :
  NoDup l → (∀ x, x ∈ l → x ∉ seen) → first_occurrences seen l = l.
Proof.
  revert seen. induction l as [|y l IH]; intros seen Hnd Hdis; simpl; [done|].
  apply NoDup_cons in Hnd as [Hy Hnd].
  rewrite bool_decide_eq_false_2 by (apply Hdis, list_elem_of_here).
  f_equal. apply IH; [done|].
  intros x Hx [Hs| ->%list_elem_of_singleton]%elem_of_app; [|done].
  by apply (Hdis x); [apply list_elem_of_further|].
Qed.

Lemma first_occurrences_elem_of seen l x :
  x ∈ l → x ∉ seen → x ∈ first_occurrences seen l.
Proof.
  revert seen. induction l as [|y l IH]; intros seen; simpl.
  - by intros ?%elem_of_nil.
  - intros [->|Hin]%elem_of_cons Hx.
    + rewrite bool_decide_eq_false_2 by done. apply list_elem_of_here.
    + case_bool_decide as Hy; [by apply IH|].
      destruct (decide (x = y)) as [->|Hne]; [apply list_elem_of_here|].
      apply list_elem_of_further, IH; [done|].
      intros [?| ->%list_elem_of_singleton]%elem_of_app; done.
Qed.

(** ** The loading loop *)

Section Loading.
Context {X : Externals}.
Implicit Types (w : World X) (evs : list (event X)).


Lemma load_branch_run args key ld label all w r w' :
  load_branch args key ld label all w = (r, w') →
  dirs w' = dirs w ∧ files w' = files w ∧
  ((∃ samples,
      r = Ok (dict_set key samples all) ∧
      trace w' = trace w ++
        [EvLoad ld (data_path args) (Ok samples);
         EvPrint ("Loaded " +:+ pretty (length samples) +:+ " samples from "
                  +:+ label)]) ∨
   (∃ e, r = Raise e ∧
         trace w' = trace w ++ [EvLoad ld (data_path args) (Raise e)])).
Proof.
  unfold load_branch, bind, call, lift, print, ret, log.
  destruct (ext_load ld (data_path args) (ext w)) as [[samples|e] s]; simpl.
  - rewrite dict_getitem_set. simpl. intros [= <- <-]. simpl.
    split_and!; [done..|]. left. exists samples. by rewrite <- app_assoc.
  - intros [= <- <-]. simpl. split_and!; [done..|]. right. by exists e.
Qed.

Lemma load_dataset_unfold args all name :
  load_dataset args all name =
  match loader_of name with
  | Some ld => load_branch args name ld (loader_label ld) all
  | None => ret all
  end.
Proof. unfold load_dataset, loader_of. repeat case_eqb; reflexivity. Qed.

Lemma load_datasets_run args names all w r w' :
  load_datasets args names all w = (r, w') →
  ∃ evs,
    trace w' = trace w ++ evs ∧ dirs w' = dirs w ∧ files w' = files w ∧
    loads evs `prefix_of` omap loader_of names ∧
    match r with
    | Ok all' =>
        Forall (load_ok_event args) evs ∧
        length evs = 2 * length (loads evs) ∧
        loads evs = omap loader_of names ∧
        dict_keys all' =
          dict_keys all ++
          first_occurrences (dict_keys all)
            (filter (fun n => recognized n = true) names) ∧
        (∀ k v, dict_get k all' = Some v →
           dict_get k all = Some v ∨
           ∃ ld, loader_of k = Some ld ∧
                 EvLoad ld (data_path args) (Ok v) ∈ evs)
    | Raise e =>
        ∃ ld evs0,
          evs = evs0 ++ [EvLoad ld (data_path args) (Raise e)] ∧
          Forall (load_ok_event args) evs0
    end.
Proof.
  revert all w. induction names as [|name names IH]; intros all w; simpl.
  - intros [= <- <-]. exists []. rewrite !app_nil_r.
    split_and!; try done. by left.
  - unfold bind. rewrite load_dataset_unfold.
    unfold recognized at 1.
    destruct (loader_of name) as [ld|] eqn:Hld; simpl.
    + destruct (load_branch args name ld (loader_label ld) all w)
        as [[all1|e] w1] eqn:Hb;
        apply load_branch_run in Hb as (Hd & Hf & [(samples & Hr & Ht)|(e' & Hr & Ht)]);
        try discriminate Hr.
      * injection Hr as ->. intros Hrest.
        apply IH in Hrest as (evs & Ht' & Hd' & Hf' & Hpre & Hres).
        set (e1 := EvLoad ld (data_path args) (Ok samples)) in *.
        set (e2 := EvPrint ("Loaded " +:+ pretty (length samples)
                            +:+ " samples from " +:+ loader_label ld)) in *.
        assert (load_ok_event args e1 ∧ load_ok_event args e2) as [He1 He2]
          by (split; simpl; eauto).
        exists (e1 :: e2 :: evs). split_and!.
        -- rewrite Ht', Ht, <- app_assoc. done.
        -- congruence.
        -- congruence.
        -- simpl. by apply prefix_cons.
        -- destruct r as [all'|e].
           ++ destruct Hres as (Hok & Hlen & Hloads & Hkeys & Hprov). split_and!.
              ** by repeat constructor.
              ** simpl. lia.
              ** simpl. by f_equal.
              ** rewrite Hkeys, dict_keys_set. rewrite filter_cons_True by
                   (unfold recognized; by rewrite Hld).
                 simpl. case_bool_decide; [done|]. by rewrite <- app_assoc.
              ** intros k v Hget. apply Hprov in Hget as [Hget|(ld' & ? & ?)].
                 --- destruct (decide (name = k)) as [->|Hne].
                     +++ rewrite dict_get_set_eq in Hget. injection Hget as ->.
                         right. exists ld. split; [done|]. apply list_elem_of_here.
                     +++ rewrite dict_get_set_ne in Hget by done. by left.
                 --- right. exists ld'. split; [done|].
                     by do 2 apply list_elem_of_further.
           ++ destruct Hres as (ld' & evs0 & Hevs & Hok).
              exists ld', (e1 :: e2 :: evs0). split; [by rewrite Hevs|].
              by repeat constructor.
      * injection Hr as ->. intros [= <- <-].
        exists [EvLoad ld (data_path args) (Raise e')]. split_and!; try done.
        -- simpl. apply prefix_cons, prefix_nil.
        -- exists ld, []. split; [done|constructor].
    + intros Hrest. apply IH in Hrest as (evs & Ht' & Hd' & Hf' & Hpre & Hres).
      exists evs. split_and!; try done.
      destruct r as [all'|e]; [|done].
      destruct Hres as (Hok & Hlen & Hloads & Hkeys & Hprov). split_and!; try done.
      rewrite Hkeys. rewrite filter_cons_False; [done|].
      unfold recognized. by rewrite Hld.
Qed.

End Loading.

(** ** One iteration of the evaluation loop *)

Section Iteration.
Context {X : Externals}.
Implicit Types (w : World X) (evs : list (event X)).







Lemma print_sub_accuracies_run sub w :
  print_sub_accuracies sub w =
  (Ok tt, {| ext := ext w; dirs := dirs w; files := files w;
             trace := trace w ++ map (fun it => EvPrint (sub_accuracy_line it)) sub |}).
Proof.
  revert w. induction sub as [|[task acc] sub IH]; intros w; simpl.
  - unfold ret. rewrite app_nil_r. by destruct w.
  - unfold bind, print. rewrite IH. simpl. by rewrite <- app_assoc.
Qed.

Lemma omap_prints {B} (f : event X → option B) lines :
  (∀ line, f (EvPrint line) = None) → omap f (map EvPrint lines) = [].
Proof. intros Hf. induction lines as [|l lines IH]; csimpl; [done|]. by rewrite Hf. Qed.

Lemma printed_prints lines : printed (map EvPrint lines) = lines.
Proof. unfold printed. induction lines as [|l lines IH]; csimpl; [done|]. by f_equal. Qed.

Lemma summary_lines_not_blank d rs m x : "" ∉ summary_lines d rs m x.
Proof.
  unfold summary_lines. simpl. rewrite !not_elem_of_cons. split_and!.
  - by destruct d.
  - done.
  - done.
  - unfold sub_accuracy_lines.
    destruct (dict_get "sub_accuracies" m) as [[?|sub|?|]|];
      try apply not_elem_of_nil.
    rewrite not_elem_of_cons. split; [done|].
    intros ([task acc] & Heq & _)%list_elem_of_fmap. discriminate Heq.
Qed.

Lemma evaluate_dataset_ok args llm sp ar d samples w ar' w' :
  evaluate_dataset args llm sp ar (d, samples) w = (Ok ar', w') →
  ∃ ps ms outs rs m x,
    trace w' = trace w ++ iteration_events args llm sp d samples ps ms outs rs m x ∧
    dict_get "accuracy" m = Some (MNum x) ∧
    answered args llm sp d samples ps ms outs rs m ∧
    dirs w' = dirs w ∧
    files w' =
      <[report_path args d := FileJson (output_dict_of args rs m)]> (files w) ∧
    ar' = dict_set d rs ar.
Proof.
  unfold evaluate_dataset, write_json, bind, call, lift, print, ret, raise, log,
    set_file, format_num, items_of, iteration_events, answered.
  destruct w as [s ds fs tr]. simpl.
  destruct (ext_prepare_prompts d samples args s) as [[[ps ms]|e] s1] eqn:H1;
    simpl; [|done].
  destruct (ext_generate llm ps sp s1) as [[outs|e] s2] eqn:H2; simpl; [|done].
  destruct (ext_process_outputs outs ms (eval_threads args) s2) as [[rs|e] s3]
    eqn:H3; simpl; [|done].
  destruct (ext_calculate_metrics rs s3) as [[m|e] s4] eqn:H4; simpl; [|done].
  destruct (ext_open_w (report_path args d) s4) as [[[]|e] s5]; simpl; [|done].
  destruct (json_dump_close (report_path args d) (output_dict_of args rs m) s5)
    as [[[]|e] s6]; simpl; [|done].
  unfold dict_getitem, dict_has, sub_accuracy_lines, summary_lines.
  destruct (dict_get "accuracy" m) as [[x|?|?|]|] eqn:Hacc; simpl; [|done..].
  destruct (dict_get "sub_accuracies" m) as [[y|sub|?|]|] eqn:Hsub; simpl;
    [done| |done|done|].
  - rewrite print_sub_accuracies_run. simpl. intros [= <- <-]. simpl.
    exists ps, ms, outs, rs, m, x. rewrite Hsub. split_and!; eauto.
    + rewrite <- !app_assoc. simpl. do 10 f_equal.
      by rewrite map_map.
    + by rewrite insert_insert_eq.
  - intros [= <- <-]. simpl.
    exists ps, ms, outs, rs, m, x. rewrite Hsub. split_and!; eauto.
    + by rewrite <- !app_assoc.
    + by rewrite insert_insert_eq.
Qed.

Ltac iteration_failed d :=
  intros [= <- <-]; simpl; rewrite <- ?app_assoc; simpl;
  eexists _, _; split; [reflexivity|]; split_and!;
  [ repeat (constructor; [simpl; eauto|]); constructor
  | done
  | intros ? ?; rewrite ?lookup_insert_ne by done; done
  | reflexivity
  | simpl; eauto
  | simpl; first [by left | right; eexists _, _; split; [reflexivity|];
                  by rewrite ?lookup_insert_eq]
  | simpl; rewrite ?not_elem_of_cons; split_and?;
    try apply not_elem_of_nil; try done; by destruct d
  | simpl; intros ? Hno;
    first [ done
          | (apply not_elem_of_cons in Hno as [? _];
             by rewrite ?lookup_insert_ne) ] ].

(** An iteration that raises: it started with [prepare_prompts], did
    only what an iteration may do, touched no file but its own report,
    dumped at most once, and never reached the closing blank line. *)
Lemma evaluate_dataset_raise args llm sp ar d samples w e w' :
  evaluate_dataset args llm sp ar (d, samples) w = (Raise e, w') →
  ∃ r0 tail,
    trace w' = trace w ++ EvPreparePrompts d samples args r0 :: tail ∧
    Forall (iteration_event args llm sp d) tail ∧
    dirs w' = dirs w ∧
    (∀ p, p ≠ report_path args d → files w' !! p = files w !! p) ∧
    prepared tail = [] ∧
    (dumped tail = [] ∨ dumped tail = [report_path args d]) ∧
    (written tail = [] ∨
     ∃ rs m, written tail = [(report_path args d, output_dict_of args rs m)] ∧
             files w' !! report_path args d =
               Some (FileJson (output_dict_of args rs m))) ∧
    ("" ∉ printed tail) ∧
    (∀ p, p ∉ opened tail → files w' !! p = files w !! p).
Proof.
  unfold evaluate_dataset, write_json, bind, call, lift, print, ret, raise, log,
    set_file, format_num, items_of.
  destruct w as [s ds fs tr]. simpl.
  destruct (ext_prepare_prompts d samples args s) as [[[ps ms]|e0] s1]; simpl;
    [|iteration_failed d].
  destruct (ext_generate llm ps sp s1) as [[outs|e0] s2]; simpl;
    [|iteration_failed d].
  destruct (ext_process_outputs outs ms (eval_threads args) s2) as [[rs|e0] s3];
    simpl; [|iteration_failed d].
  destruct (ext_calculate_metrics rs s3) as [[m|e0] s4]; simpl;
    [|iteration_failed d].
  destruct (ext_open_w (report_path args d) s4) as [[[]|e0] s5]; simpl;
    [|iteration_failed d].
  destruct (json_dump_close (report_path args d) (output_dict_of args rs m) s5)
    as [[[]|e0] s6]; simpl; [|iteration_failed d].
  unfold dict_getitem, dict_has.
  destruct (dict_get "accuracy" m) as [[x|?|?|]|]; simpl;
    [|iteration_failed d..].
  destruct (dict_get "sub_accuracies" m) as [[y|sub|?|]|]; simpl;
    [iteration_failed d| |iteration_failed d|iteration_failed d|].
  - rewrite print_sub_accuracies_run. simpl. discriminate.
  - discriminate.
Qed.

(** The observations of a completed iteration. *)
Lemma iteration_events_obs args llm sp d samples ps ms outs rs m x :
  let evs := iteration_events args llm sp d samples ps ms outs rs m x in
  prepared evs = [d] ∧
  dumped evs = [report_path args d] ∧
  written evs = [(report_path args d, output_dict_of args rs m)] ∧
  generated evs = [(llm, ps, sp)] ∧
  loads evs = [] ∧ constructed evs = [] ∧ configured evs = [] ∧
  opened evs = [report_path args d].
Proof.
  unfold iteration_events. simpl.
  unfold prepared, dumped, written, generated, loads, constructed, configured,
    opened.
  csimpl. rewrite !omap_app, !omap_prints by done. done.
Qed.

Lemma iteration_events_cons args llm sp d samples ps ms outs rs m x :
  ∃ body,
    iteration_events args llm sp d samples ps ms outs rs m x =
      EvPreparePrompts d samples args (Ok (ps, ms)) :: body ∧
    prepared body = [] ∧
    written body = [(report_path args d, output_dict_of args rs m)].
Proof.
  unfold iteration_events. eexists. split; [reflexivity|].
  unfold prepared, written. simpl. rewrite !omap_app, !omap_prints by done.
  done.
Qed.

Lemma completed_from_skip cur l rest :
  prepared l = [] → "" ∉ printed l →
  completed_from cur (l ++ rest) = completed_from cur rest.
Proof.
  unfold prepared, printed.
  induction l as [|e l IH]; [done|]. destruct e; csimpl; try done.
  intros Hp Hb. apply not_elem_of_cons in Hb as [Hne Hb].
  destruct line; [done|]. by apply IH.
Qed.

Lemma completed_from_iteration cur args llm sp d samples ps ms outs rs m x rest :
  completed_from cur
    (iteration_events args llm sp d samples ps ms outs rs m x ++ rest) =
  d :: completed_from None rest.
Proof.
  unfold iteration_events.
  generalize (summary_lines_not_blank d rs m x).
  generalize (summary_lines d rs m x). intros lines Hl.
  rewrite <- !app_assoc. simpl.
  rewrite completed_from_skip; [done|by apply omap_prints|].
  by rewrite printed_prints.
Qed.

Lemma completed_from_raise cur d samples args r0 tail :
  prepared tail = [] → "" ∉ printed tail →
  completed_from cur (EvPreparePrompts d samples args r0 :: tail) = [].
Proof.
  intros Hp Hb. simpl. rewrite <- (app_nil_r tail).
  by rewrite completed_from_skip.
Qed.

End Iteration.

(** ** The evaluation loop *)

Section Evaluation.
Context {X : Externals}.
Implicit Types (w : World X) (evs : list (event X)).


Lemma evaluate_all_step args llm sp ar item items w r w' :
  evaluate_all args llm sp ar (item :: items) w = (r, w') →
  (∃ ar1 w1,
     evaluate_dataset args llm sp ar item w = (Ok ar1, w1) ∧
     evaluate_all args llm sp ar1 items w1 = (r, w')) ∨
  (∃ e, evaluate_dataset args llm sp ar item w = (Raise e, w') ∧ r = Raise e).
Proof.
  simpl. unfold bind at 1.
  destruct (evaluate_dataset args llm sp ar item w) as [[ar1|e] w1]; intros H.
  - left. eauto.
  - right. injection H as <- <-. eauto.
Qed.

Lemma evaluate_all_run args llm sp items ar w r w' :
  NoDup (dict_keys items) →
  Forall (fun d => recognized d = true) (dict_keys items) →
  evaluate_all args llm sp ar items w = (r, w') →
  ∃ evs,
    trace w' = trace w ++ evs ∧
    dirs w' = dirs w ∧
    eval_trace args llm sp items (is_ok r) evs ∧
    (∀ p obj, (p, obj) ∈ written evs → files w' !! p = Some (FileJson obj)) ∧
    (∀ p, p ∉ map (report_path args) (dict_keys items) →
          files w' !! p = files w !! p) ∧
    (∀ p, p ∉ opened evs → files w' !! p = files w !! p).
Proof.
  revert ar w. induction items as [|[d samples] items IH]; intros ar w Hnd Hrec.
  - simpl. intros [= <- <-]. exists []. rewrite app_nil_r.
    split_and!; try done; [constructor|]. by intros p obj ?%elem_of_nil.
  - unfold dict_keys in Hnd, Hrec. csimpl in Hnd. csimpl in Hrec.
    apply NoDup_cons in Hnd as [Hd Hnd]. apply Forall_cons in Hrec as [Hrd Hrec].
    intros [(ar1 & w1 & Hit & Hrest)|(e & Hit & ->)]%evaluate_all_step.
    + apply evaluate_dataset_ok in Hit
        as (ps & ms & outs & rs & m & x & Ht & Hacc & Hans & Hdirs & Hf & _).
      apply IH in Hrest as (evs & Ht' & Hdirs' & Htr & Hw & Hframe & Hopen); [|done..].
      exists (iteration_events args llm sp d samples ps ms outs rs m x ++ evs).
      split_and!.
      * by rewrite Ht', Ht, <- app_assoc.
      * congruence.
      * by constructor.
      * intros p obj. unfold written. rewrite omap_app.
        intros [Hin|Hin]%elem_of_app; [|by apply Hw].
        destruct (iteration_events_obs args llm sp d samples ps ms outs rs m x)
          as (_ & _ & Hwr & _).
        unfold written in Hwr. rewrite Hwr in Hin.
        apply list_elem_of_singleton in Hin. injection Hin as -> ->.
        rewrite Hframe, Hf; [by rewrite lookup_insert_eq|].
        intros (d' & Heq & Hin)%list_elem_of_fmap.
        apply report_path_inj in Heq; [|done|].
        -- by subst d'.
        -- by eapply Forall_forall in Hrec.
      * intros p Hp. csimpl in Hp. apply not_elem_of_cons in Hp as [Hp1 Hp2].
        rewrite Hframe by done. rewrite Hf. by rewrite lookup_insert_ne.
      * intros p. unfold opened. rewrite omap_app.
        destruct (iteration_events_obs args llm sp d samples ps ms outs rs m x)
          as (_ & _ & _ & _ & _ & _ & _ & Hop).
        unfold opened in Hop. rewrite Hop.
        intros [Hp1%not_elem_of_cons Hp2]%not_elem_of_app.
        rewrite Hopen by done. rewrite Hf. rewrite lookup_insert_ne; [done|].
        by destruct Hp1.
    + apply evaluate_dataset_raise in Hit
        as (r0 & tail & Ht & Hev & Hdirs & Hframe & Hprep & Hdump & Hwr & Hblank
            & Hopen).
      exists (EvPreparePrompts d samples args r0 :: tail). split_and!; try done.
      * constructor; try done.
        destruct Hwr as [?|(rs & m & ? & _)]; [by left|right; eauto].
      * intros p obj.
        change (written (EvPreparePrompts d samples args r0 :: tail))
          with (written tail).
        destruct Hwr as [Hwr|(rs & m & Hwr & Hfile)]; rewrite Hwr.
        -- by intros ?%elem_of_nil.
        -- by intros [= -> ->]%list_elem_of_singleton.
      * intros p Hp. csimpl in Hp. apply not_elem_of_cons in Hp as [Hp1 Hp2].
        by apply Hframe.
Qed.

End Evaluation.

Lemma app_split_at {A} (P : A → Prop) (l1 l2 t1 t2 : list A) x :
  l1 ++ l2 = t1 ++ x :: t2 → P x → Forall (fun y => ¬ P y) l1 →
  ∃ t, t1 = l1 ++ t ∧ l2 = t ++ x :: t2.
Proof.
  revert t1. induction l1 as [|y l1 IH]; intros t1 Heq Hx Hl1; simpl in *.
  - by exists t1.
  - apply Forall_cons in Hl1 as [Hy Hl1].
    destruct t1 as [|z t1]; simpl in Heq; injection Heq as -> Heq.
    + done.
    + destruct (IH _ Heq Hx Hl1) as (t & -> & ->). by exists t.
Qed.

Lemma app_split_at_r {A} (P : A → Prop) (l1 l2 t1 t2 : list A) x :
  l1 ++ l2 = t1 ++ x :: t2 → P x → Forall (fun y => ¬ P y) l2 →
  ∃ t, l1 = t1 ++ x :: t ∧ t2 = t ++ l2.
Proof.
  revert t1. induction l1 as [|y l1 IH]; intros t1 Heq Hx Hl2; simpl in *.
  - subst l2. apply Forall_app in Hl2 as [_ Hl2].
    apply Forall_cons in Hl2 as [Hn _]. done.
  - destruct t1 as [|z t1]; simpl in Heq; injection Heq as -> Heq.
    + by exists l1.
    + destruct (IH _ Heq Hx Hl2) as (t & -> & ->). by exists t.
Qed.

Lemma omap_nil_Forall {A B} (f : A → option B) (l : list A) :
  omap f l = [] → Forall (fun e => ¬ is_Some (f e)) l.
Proof.
  induction l as [|e l IH]; [constructor|].
  csimpl. destruct (f e) eqn:E; [done|].
  intros H. constructor; [|auto]. rewrite E. by intros [? ?].
Qed.

Lemma split_unique {A B} (f : A → option B) (l1 l2 t1 t2 : list A) x y :
  l1 ++ x :: l2 = t1 ++ y :: t2 → is_Some (f y) →
  omap f l1 = [] → omap f l2 = [] →
  t1 = l1 ∧ y = x ∧ t2 = l2.
Proof.
  intros Heq Hy H1 H2.
  eapply (app_split_at (fun e => is_Some (f e))) in Heq as (t & -> & Heq);
    [|done|by apply omap_nil_Forall].
  destruct t as [|z t]; simpl in Heq; injection Heq as -> ->.
  - by rewrite app_nil_r.
  - rewrite omap_app in H2. csimpl in H2. destruct Hy as [b Hb].
    rewrite Hb in H2. by destruct (omap f t).
Qed.

Section EvaluationTraces.
Context {X : Externals}.
Implicit Types (w : World X) (evs : list (event X)).


Lemma iteration_evaluation_event args llm sp d e :
  iteration_event args llm sp d e → evaluation_event args llm sp e.
Proof. destruct e; simpl; naive_solver. Qed.

Lemma evaluation_events_obs args llm sp evs :
  Forall (evaluation_event args llm sp) evs →
  loads evs = [] ∧ constructed evs = [] ∧ configured evs = [] ∧
  Forall (fun g => g.1.1 = llm ∧ g.2 = sp) (generated evs).
Proof.
  unfold loads, constructed, configured, generated.
  induction 1 as [|e evs He _ IH]; [by split_and!|].
  destruct IH as (? & ? & ? & ?).
  destruct e; csimpl; try done.
  split_and!; try done. constructor; [|done]. simpl. destruct He. by subst.
Qed.

Lemma eval_trace_events args llm sp items ok evs :
  eval_trace args llm sp items ok evs →
  Forall (evaluation_event args llm sp) evs.
Proof.
  induction 1 as [|d samples items ps ms outs rs m x ok evs _ _ _ IH
                  |d samples items r0 tail Hev _ _ _ _].
  - constructor.
  - apply Forall_app. split; [|done]. unfold iteration_events.
    apply Forall_app. split.
    + repeat (constructor; [simpl; eauto|]). constructor.
    + apply Forall_app. split; [|by repeat constructor].
      apply Forall_fmap, Forall_true. done.
  - constructor; [done|].
    eapply Forall_impl; [exact Hev|]. apply iteration_evaluation_event.
Qed.

(** Evaluation follows the order of the items: what was prepared, dumped,
    written and completed are prefixes of the keys, whole when the loop
    ends normally. *)
Lemma eval_trace_order args llm sp items ok evs :
  eval_trace args llm sp items ok evs →
  (prepared evs `prefix_of` dict_keys items ∧
   dumped evs `prefix_of` map (report_path args) (dict_keys items) ∧
   (written evs).*1 `prefix_of` map (report_path args) (dict_keys items) ∧
   ∀ cur, completed_from cur evs `prefix_of` dict_keys items) ∧
  (ok = true →
   prepared evs = dict_keys items ∧
   dumped evs = map (report_path args) (dict_keys items) ∧
   (written evs).*1 = map (report_path args) (dict_keys items) ∧
   ∀ cur, completed_from cur evs = dict_keys items).
Proof.
  induction 1 as [|d samples items ps ms outs rs m x ok evs _ _ _ IH
                  |d samples items r0 tail Hev Hprep Hdump Hwr Hblank].
  - by split_and!.
  - destruct IH as [(Hp & Hd & Hw & Hc) Hok].
    destruct (iteration_events_obs args llm sp d samples ps ms outs rs m x)
      as (Ep & Ed & Ew & _).
    change (dict_keys ((d, samples) :: items)) with (d :: dict_keys items).
    change (map (report_path args) (d :: dict_keys items))
      with (report_path args d :: map (report_path args) (dict_keys items)).
    unfold prepared, dumped, written in *.
    rewrite !omap_app, Ep, Ed, Ew, fmap_app. split.
    + split_and!.
      * by apply (prefix_app [_]).
      * by apply (prefix_app [_]).
      * by apply (prefix_app [_]).
      * intros cur. rewrite completed_from_iteration. by apply prefix_cons.
    + intros ->. destruct Hok as (Hp' & Hd' & Hw' & Hc'); [done|].
      rewrite Hp', Hd', Hw'. split_and!; try done.
      intros cur. by rewrite completed_from_iteration, Hc'.
  - split; [|done].
    change (dict_keys ((d, samples) :: items)) with (d :: dict_keys items).
    change (map (report_path args) (d :: dict_keys items))
      with (report_path args d :: map (report_path args) (dict_keys items)).
    change (prepared (EvPreparePrompts d samples args r0 :: tail))
      with (d :: prepared tail).
    change (dumped (EvPreparePrompts d samples args r0 :: tail))
      with (dumped tail).
    change (written (EvPreparePrompts d samples args r0 :: tail))
      with (written tail).
    rewrite Hprep. split_and!.
    + apply prefix_cons, prefix_nil.
    + destruct Hdump as [->| ->]; [apply prefix_nil|apply prefix_cons, prefix_nil].
    + destruct Hwr as [->|(rs & m & ->)];
        [apply prefix_nil|apply prefix_cons, prefix_nil].
    + intros cur. rewrite completed_from_raise by done. apply prefix_nil.
Qed.

Lemma prepared_nil_Forall evs :
  prepared evs = [] → Forall (fun e => ¬ is_Some (ev_prepared e)) evs.
Proof. apply omap_nil_Forall. Qed.

(** When an iteration starts, the report of every dataset whose
    iteration started earlier has been written. *)
Lemma eval_trace_reports_first args llm sp items ok evs :
  eval_trace args llm sp items ok evs →
  ∀ t1 d s a r0 t2,
    evs = t1 ++ EvPreparePrompts d s a r0 :: t2 →
    (written t1).*1 = map (report_path args) (prepared t1).
Proof.
  induction 1 as [|d samples items ps ms outs rs m x ok evs _ _ _ IH
                  |d samples items r0 tail Hev Hprep Hdump Hwr Hblank];
    intros t1 d' s' a' r0' t2 Heq.
  - by destruct t1.
  - destruct t1 as [|e t1]; [done|].
    destruct (iteration_events_cons args llm sp d samples ps ms outs rs m x)
      as (body & Hbody & Hpb & Hwb).
    rewrite Hbody in Heq. simpl in Heq. injection Heq as <- Heq.
    eapply (app_split_at (fun e => is_Some (ev_prepared e))) in Heq
      as (t & -> & Hevs); [|by eexists|by apply prepared_nil_Forall].
    specialize (IH _ _ _ _ _ _ Hevs).
    change (written (EvPreparePrompts d samples args (Ok (ps, ms)) :: body ++ t))
      with (written (body ++ t)).
    change (prepared (EvPreparePrompts d samples args (Ok (ps, ms)) :: body ++ t))
      with (d :: prepared (body ++ t)).
    unfold prepared, written in *. rewrite !omap_app, Hpb, Hwb, fmap_app, IH.
    done.
  - destruct t1 as [|e t1]; [done|]. simpl in Heq. injection Heq as <- Heq.
    rewrite Heq in Hprep. unfold prepared in Hprep. rewrite omap_app in Hprep.
    by destruct (omap ev_prepared t1).
Qed.

(** An iteration that completed is in the trace as a whole. *)
Lemma eval_trace_completed args llm sp items ok evs cur d :
  eval_trace args llm sp items ok evs →
  d ∈ completed_from cur evs →
  ∃ samples ps ms outs rs m x t1 t2,
    (d, samples) ∈ items ∧
    answered args llm sp d samples ps ms outs rs m ∧
    dict_get "accuracy" m = Some (MNum x) ∧
    evs = t1 ++ iteration_events args llm sp d samples ps ms outs rs m x ++ t2.
Proof.
  intros Htr. revert cur.
  induction Htr as [|d0 samples items ps ms outs rs m x ok evs Hans Hacc _ IH
                    |d0 samples items r0 tail Hev Hprep Hdump Hwr Hblank];
    intros cur.
  - by intros ?%elem_of_nil.
  - rewrite completed_from_iteration.
    intros [->|Hin]%elem_of_cons.
    + exists samples, ps, ms, outs, rs, m, x, [], evs.
      split_and!; try done. apply list_elem_of_here.
    + apply IH in Hin
        as (samples' & ps' & ms' & outs' & rs' & m' & x' & t1 & t2 & ? & ? & ? & ->).
      exists samples', ps', ms', outs', rs', m', x',
        (iteration_events args llm sp d0 samples ps ms outs rs m x ++ t1), t2.
      split_and!; try done; [by apply list_elem_of_further|].
      by rewrite <- app_assoc.
  - rewrite completed_from_raise by done. by intros ?%elem_of_nil.
Qed.

End EvaluationTraces.

(** ** The whole run *)

Lemma first_occurrences_nil l : first_occurrences [] l = [] → l = [].
Proof.
  destruct l as [|x l]; [done|]. cbn [first_occurrences].
  case_bool_decide as Hx; [by apply elem_of_nil in Hx|done].
Qed.

Lemma filter_recognized_loaders names :
  filter (fun n => recognized n = true) names = [] ↔ omap loader_of names = [].
Proof.
  induction names as [|n names IH]; [done|]. csimpl.
  unfold recognized at 1. destruct (loader_of n) eqn:E.
  - rewrite filter_cons_True by (unfold recognized; by rewrite E). done.
  - rewrite filter_cons_False by (unfold recognized; by rewrite E). done.
Qed.

Section Run.
Context {X : Externals}.
Implicit Types (w : World X) (evs : list (event X)).





Lemma os_makedirs_run path w r w' :
  os_makedirs path true w = (r, w') →
  trace w' = trace w ++ [EvMakedirs path true r] ∧
  files w' = files w ∧
  dirs w ⊆ dirs w' ∧
  (r = Ok tt → path ∈ dirs w') ∧
  (path ∈ dirs w → r = Ok tt ∧ dirs w' = dirs w) ∧
  (path ∉ dirs w → r = Ok tt → dirs w' = {[path]} ∪ dirs w).
Proof.
  unfold os_makedirs, bind, call, add_dir, log.
  case_bool_decide as Hdir.
  - intros [= <- <-]. simpl. split_and!; try done.
  - case_bool_decide as Hfile.
    + intros [= <- <-]. simpl. split_and!; try done.
    + destruct (ext_mkdir path (ext w)) as [[[]|e] s]; simpl;
        intros [= <- <-]; simpl; split_and!; try done; set_solver.
Qed.

Lemma selection_keys args :
  NoDup (selection args) ∧ Forall (fun d => recognized d = true) (selection args).
Proof.
  unfold selection. split; [apply first_occurrences_NoDup|].
  apply Forall_forall. intros d [Hin _]%first_occurrences_spec.
  by apply list_elem_of_filter in Hin as [? _].
Qed.

Lemma load_events_obs args levs :
  Forall (load_ok_event args) levs →
  prepared levs = [] ∧ dumped levs = [] ∧ written levs = [] ∧
  generated levs = [] ∧ constructed levs = [] ∧ configured levs = [] ∧
  opened levs = [] ∧ "" ∉ printed levs.
Proof.
  unfold prepared, dumped, written, generated, constructed, configured,
    opened, printed.
  induction 1 as [|e levs He _ IH]; [split_and!; try done; apply not_elem_of_nil|].
  destruct IH as (? & ? & ? & ? & ? & ? & ? & ?).
  destruct e; csimpl; try done. simpl in He. destruct He as (n & ld & ->).
  split_and!; try done. by apply not_elem_of_cons.
Qed.

Lemma main_run argv w r w' :
  main argv w = (r, w') →
  let args := parse_arguments argv in
  ∃ evs,
    trace w' = trace w ++ evs ∧
    (∃ rest,
       evs = EvMakedirs (output_dir args) true
               (os_makedirs (output_dir args) true w).1 :: rest) ∧
    main_trace args r evs ∧
    dirs w ⊆ dirs w' ∧
    (output_dir args ∈ dirs w →
       dirs w' = dirs w ∧
       ∃ rest, evs = EvMakedirs (output_dir args) true (Ok tt) :: rest) ∧
    (∀ rest, evs = EvMakedirs (output_dir args) true (Ok tt) :: rest →
             output_dir args ∈ dirs w') ∧
    (∀ p obj, (p, obj) ∈ written evs → files w' !! p = Some (FileJson obj)) ∧
    (∀ p, p ∉ map (report_path args) (selection args) →
          files w' !! p = files w !! p) ∧
    (∀ p, p ∉ opened evs → files w' !! p = files w !! p).
Proof.
  intros Hmain args. unfold main in Hmain. fold args in Hmain.
  unfold bind at 1 in Hmain.
  destruct (os_makedirs (output_dir args) true w) as [[[]|e] w0] eqn:Hmk;
    apply os_makedirs_run in Hmk as (Ht0 & Hf0 & Hsub & Hin & Hex & Hnew).
  2:{ injection Hmain as <- <-. eexists. split; [exact Ht0|].
      split; [by eexists|].
      split_and!; try done.
      - constructor.
      - intros Hd. by destruct (Hex Hd).
      - by intros p obj ?%elem_of_nil.
      - intros. by rewrite Hf0.
      - intros. by rewrite Hf0. }
  assert (Hdirs0 : output_dir args ∈ dirs w → dirs w0 = dirs w)
    by (intros Hd; by destruct (Hex Hd)).
  specialize (Hin eq_refl). clear Hex Hnew.
  unfold bind at 1 in Hmain.
  destruct (load_datasets args (datasets_to_eval args) [] w0)
    as [[all_samples|e] w1] eqn:Hload;
    apply load_datasets_run in Hload as (levs & Ht1 & Hd1 & Hf1 & Hpre & Hres).
  2:{ injection Hmain as <- <-. destruct Hres as (ld & levs0 & -> & Hok).
      eexists. split; [by rewrite Ht1, Ht0, <- app_assoc|].
      split; [by eexists|].
      split_and!.
      - constructor; [done|]. unfold loads in *. by rewrite omap_app in Hpre.
      - by rewrite Hd1.
      - intros Hd. split; [rewrite Hd1; auto|by eexists].
      - intros _ _. by rewrite Hd1.
      - intros p obj. simpl. unfold written. rewrite omap_app. simpl.
        rewrite app_nil_r. intros (ev & Hev & Hw)%list_elem_of_omap.
        eapply Forall_forall in Hok; [|exact Hev]. by destruct ev as [| |?| | | | | | | |? ? []].
      - intros. by rewrite Hf1, Hf0.
      - intros. by rewrite Hf1, Hf0. }
  destruct Hres as (Hok & Hlen & Hloads & Hkeys & Hprov). csimpl in Hkeys.
  fold (selection args) in Hkeys.
  assert (Hloaded : loaded args all_samples levs).
  { split_and!; try done. intros k v Hget.
    by destruct (Hprov _ _ Hget) as [?|?]. }
  destruct (load_events_obs _ _ Hok) as (_ & _ & Hwl & _ & _ & _ & Hol & _).
  destruct all_samples as [|item items].
  - injection Hmain as <- <-.
    assert (Hsel : selection args = []) by done.
    assert (levs = []) as ->.
    { apply first_occurrences_nil, filter_recognized_loaders in Hsel.
      rewrite Hsel in Hloads. rewrite Hloads in Hlen. by destruct levs. }
    rewrite app_nil_r in Ht1.
    eexists. split; [simpl; by rewrite Ht1, Ht0, <- app_assoc|].
    split; [by eexists|].
    split_and!; simpl.
    + by constructor.
    + by rewrite Hd1.
    + intros Hd. split; [rewrite Hd1; auto|by eexists].
    + intros _ _. by rewrite Hd1.
    + by intros p obj ?%elem_of_nil.
    + intros. by rewrite Hf1, Hf0.
    + intros. by rewrite Hf1, Hf0.
  - assert (Hsel : selection args ≠ []) by (by rewrite <- Hkeys).
    clear Hprov. remember (item :: items) as all_samples eqn:Hall in *.
    clear Hall item items. revert Hmain.
    unfold bind, print, call, log. simpl.
    destruct (ext_LLM (llm_args args) (ext w1)) as [[llm|e] s2]; simpl.
    2:{ intros [= <- <-]. simpl.
        exists (EvMakedirs (output_dir args) true (Ok tt) ::
                levs ++ [EvPrint (initializing_line args);
                         EvLLM (llm_args args) (Raise e)]).
        split; [rewrite Ht1, Ht0, <- !app_assoc; done|].
        split; [by eexists|].
        split_and!.
        - by econstructor.
        - by rewrite Hd1.
        - intros Hd. split; [rewrite Hd1; auto|by eexists].
        - intros _ _. by rewrite Hd1.
        - intros p obj. unfold written. csimpl. rewrite omap_app.
          fold (written levs). rewrite Hwl. by intros ?%elem_of_nil.
        - intros. by rewrite Hf1, Hf0.
        - intros. by rewrite Hf1, Hf0. }
    destruct (ext_SamplingParams (sampling_args args) s2) as [[sp|e] s3]; simpl.
    2:{ intros [= <- <-]. simpl.
        exists (EvMakedirs (output_dir args) true (Ok tt) ::
                levs ++ [EvPrint (initializing_line args);
                         EvLLM (llm_args args) (Ok llm);
                         EvSamplingParams (sampling_args args) (Raise e)]).
        split; [rewrite Ht1, Ht0, <- !app_assoc; done|].
        split; [by eexists|].
        split_and!.
        - by econstructor.
        - by rewrite Hd1.
        - intros Hd. split; [rewrite Hd1; auto|by eexists].
        - intros _ _. by rewrite Hd1.
        - intros p obj. unfold written. csimpl. rewrite omap_app.
          fold (written levs). rewrite Hwl. by intros ?%elem_of_nil.
        - intros. by rewrite Hf1, Hf0.
        - intros. by rewrite Hf1, Hf0. }
    match goal with
    | |- context [evaluate_all args llm sp ?ar all_samples ?w2] =>
        destruct (evaluate_all args llm sp ar all_samples w2)
          as [r2 w3] eqn:Hev
    end.
    destruct (selection_keys args) as [Hnd Hrec]. rewrite <- Hkeys in Hnd, Hrec.
    apply evaluate_all_run in Hev
      as (eevs & Ht3 & Hd3 & Htr & Hwr & Hframe & Hopen); [|done..].
    simpl in Ht3, Hd3, Hframe, Hopen.
    assert (Hopened : ∀ tl, opened
              (EvMakedirs (output_dir args) true (Ok tt) ::
               levs ++ [EvPrint (initializing_line args);
                        EvLLM (llm_args args) (Ok llm);
                        EvSamplingParams (sampling_args args) (Ok sp)] ++
               eevs ++ map EvPrint tl) = opened eevs).
    { intros tl. unfold opened. csimpl. rewrite !omap_app.
      fold (opened levs). rewrite Hol. csimpl.
      by rewrite ?omap_app, omap_prints, app_nil_r. }
    assert (Hwritten : ∀ tl, written
              (EvMakedirs (output_dir args) true (Ok tt) ::
               levs ++ [EvPrint (initializing_line args);
                        EvLLM (llm_args args) (Ok llm);
                        EvSamplingParams (sampling_args args) (Ok sp)] ++
               eevs ++ map EvPrint tl) = written eevs).
    { intros tl. unfold written. csimpl. rewrite !omap_app.
      fold (written levs). rewrite Hwl. csimpl.
      by rewrite ?omap_app, omap_prints, app_nil_r. }
    destruct r2 as [ar'|e]; intros [= <- <-]; simpl.
    + exists (EvMakedirs (output_dir args) true (Ok tt) ::
              levs ++ [EvPrint (initializing_line args);
                       EvLLM (llm_args args) (Ok llm);
                       EvSamplingParams (sampling_args args) (Ok sp)] ++
              eevs ++ [EvPrint (saved_line args)]).
      split; [rewrite Ht3, Ht1, Ht0, <- !app_assoc; done|].
      split; [by eexists|].
      split_and!.
      * by apply (main_evaluated args (Ok tt) all_samples).
      * by rewrite Hd3, Hd1.
      * intros Hd. split; [rewrite Hd3, Hd1; auto|by eexists].
      * intros _ _. by rewrite Hd3, Hd1.
      * intros p obj Hpo. apply Hwr. rewrite <- (Hwritten [saved_line args]).
        exact Hpo.
      * intros p Hp. rewrite Hframe, Hf1, Hf0; [done|by rewrite Hkeys].
      * intros p Hp. rewrite Hopen, Hf1, Hf0; [done|].
        rewrite <- (Hopened [saved_line args]). exact Hp.
    + exists (EvMakedirs (output_dir args) true (Ok tt) ::
              levs ++ [EvPrint (initializing_line args);
                       EvLLM (llm_args args) (Ok llm);
                       EvSamplingParams (sampling_args args) (Ok sp)] ++
              eevs ++ []).
      split; [rewrite app_nil_r, Ht3, Ht1, Ht0, <- !app_assoc; done|].
      split; [by eexists|].
      split_and!.
      * by apply (main_evaluated args (Raise e) all_samples).
      * by rewrite Hd3, Hd1.
      * intros Hd. split; [rewrite Hd3, Hd1; auto|by eexists].
      * intros _ _. by rewrite Hd3, Hd1.
      * intros p obj Hpo. apply Hwr. rewrite <- (Hwritten []). exact Hpo.
      * intros p Hp. rewrite Hframe, Hf1, Hf0; [done|by rewrite Hkeys].
      * intros p Hp. rewrite Hopen, Hf1, Hf0; [done|].
        rewrite <- (Hopened []). exact Hp.
Qed.

End Run.

Section Claims.
Context {X : Externals}.
Implicit Types (w : World X) (evs : list (event X)).

(** [main] in terms of what it adds to the trace, its outcome and the
    world it leaves. *)
Lemma main_spec argv w :
  let args := parse_arguments argv in
  let evs := events_of (main argv) w in
  let w' := final (main argv) w in
  trace w' = trace w ++ evs ∧
  main_trace args (outcome (main argv) w) evs ∧
  dirs w ⊆ dirs w' ∧
  (output_dir args ∈ dirs w →
     dirs w' = dirs w ∧
     ∃ rest, evs = EvMakedirs (output_dir args) true (Ok tt) :: rest) ∧
  (∀ rest, evs = EvMakedirs (output_dir args) true (Ok tt) :: rest →
           output_dir args ∈ dirs w') ∧
  (∀ p obj, (p, obj) ∈ written evs → files w' !! p = Some (FileJson obj)) ∧
  (∀ p, p ∉ map (report_path args) (selection args) →
        files w' !! p = files w !! p) ∧
  (∀ p, p ∉ opened evs → files w' !! p = files w !! p).
Proof.
  unfold events_of, outcome, final.
  destruct (main argv w) as [r w'] eqn:Hmain. simpl.
  apply main_run in Hmain as (evs & Ht & _ & H). rewrite Ht.
  rewrite drop_app_length. by split.
Qed.




Lemma failed_load_not_ok args levs ld p e :
  Forall (load_ok_event args) levs → EvLoad ld p (Raise e) ∉ levs.
Proof.
  intros Hok Hin. eapply Forall_forall in Hok; [|exact Hin]. exact Hok.
Qed.

Lemma load_not_evaluation args llm sp eevs ld p r :
  Forall (evaluation_event args llm sp) eevs → EvLoad ld p r ∉ eevs.
Proof.
  intros Hok Hin. eapply Forall_forall in Hok; [|exact Hin]. exact Hok.
Qed.

Lemma completed_from_silent cur rest :
  "" ∉ printed rest → completed_from cur rest = [].
Proof.
  unfold printed. revert cur.
  induction rest as [|e rest IH]; intros cur; [done|].
  destruct e; csimpl; auto.
  intros [Hne Hb]%not_elem_of_cons. destruct line; [done|]. auto.
Qed.

Lemma completed_from_app_silent cur l rest :
  "" ∉ printed rest → completed_from cur (l ++ rest) = completed_from cur l.
Proof.
  intros Hb. revert cur. induction l as [|e l IH]; intros cur.
  - by apply completed_from_silent.
  - destruct e; simpl; auto. destruct line; [destruct cur|]; by rewrite ?IH.
Qed.



Lemma load_ok_loading_event args e : load_ok_event args e → loading_event e.
Proof. destruct e as [|? ? []| | | | | | | | |]; simpl; try done. by intros (? & ? & ->). Qed.

Lemma loading_events_obs levs :
  Forall loading_event levs →
  prepared levs = [] ∧ opened levs = [] ∧ dumped levs = [] ∧
  written levs = [] ∧ generated levs = [] ∧ constructed levs = [] ∧
  configured levs = [] ∧ "" ∉ printed levs.
Proof.
  unfold prepared, dumped, written, generated, constructed, configured,
    opened, printed.
  induction 1 as [|e levs He _ IH]; [split_and!; try done; apply not_elem_of_nil|].
  destruct IH as (? & ? & ? & ? & ? & ? & ? & ?).
  destruct e; csimpl; try done. simpl in He.
  split_and!; try done. by apply not_elem_of_cons.
Qed.

Lemma setup_events_obs setup :
  Forall setup_event setup →
  loads setup = [] ∧ prepared setup = [] ∧ opened setup = [] ∧
  dumped setup = [] ∧ written setup = [] ∧ generated setup = [] ∧
  "" ∉ printed setup.
Proof.
  unfold loads, prepared, dumped, written, generated, opened, printed.
  induction 1 as [|e levs He _ IH]; [split_and!; try done; apply not_elem_of_nil|].
  destruct IH as (? & ? & ? & ? & ? & ? & ?).
  destruct e; csimpl; try done. simpl in He.
  split_and!; try done. by apply not_elem_of_cons.
Qed.


Lemma evaluation_evaluating_event args llm sp e :
  evaluation_event args llm sp e → evaluating_event e.
Proof. by destruct e. Qed.

Lemma evaluating_events_obs eevs :
  Forall evaluating_event eevs →
  loads eevs = [] ∧ constructed eevs = [] ∧ configured eevs = [].
Proof.
  unfold loads, constructed, configured.
  induction 1 as [|e evs He _ IH]; [done|].
  destruct IH as (? & ? & ?). by destruct e.
Qed.

(** The observations of a trace made of a [makedirs], loading events,
    set-up events, evaluation events and closing lines. *)
Lemma segments_obs path rmk levs setup eevs closing :
  Forall loading_event levs →
  Forall setup_event setup →
  Forall evaluating_event eevs →
  "" ∉ closing →
  let evs := EvMakedirs path true rmk ::
             levs ++ setup ++ eevs ++ map EvPrint closing in
  loads evs = loads levs ∧
  constructed evs = constructed setup ∧
  configured evs = configured setup ∧
  prepared evs = prepared eevs ∧
  opened evs = opened eevs ∧
  dumped evs = dumped eevs ∧
  written evs = written eevs ∧
  generated evs = generated eevs ∧
  completed evs = completed eevs.
Proof.
  intros Hl Hs He Hc evs.
  destruct (loading_events_obs _ Hl) as (L1 & L2 & L3 & L4 & L5 & L6 & L7 & L8).
  destruct (setup_events_obs _ Hs) as (S1 & S2 & S3 & S4 & S5 & S6 & S7).
  destruct (evaluating_events_obs _ He) as (E1 & E2 & E3).
  unfold loads, constructed, configured, prepared, opened, dumped, written,
    generated in *.
  subst evs. csimpl. rewrite !omap_app, !omap_prints by done.
  rewrite L1, L2, L3, L4, L5, L6, L7, S1, S2, S3, S4, S5, S6, E1, E2, E3.
  rewrite !app_nil_r. split_and!; try done.
  unfold completed. simpl.
  rewrite completed_from_skip by done.
  rewrite completed_from_skip by done.
  rewrite completed_from_app_silent; [done|]. by rewrite printed_prints.
Qed.


(** Every trace of [main] is a [makedirs], loading events, engine
    set-up events, evaluation events and closing lines. *)
Lemma main_trace_parts args r evs :
  main_trace args r evs →
  ∃ rmk levs setup eevs closing,
    evs = EvMakedirs (output_dir args) true rmk ::
          levs ++ setup ++ eevs ++ map EvPrint closing ∧
    Forall loading_event levs ∧
    Forall setup_event setup ∧
    Forall evaluating_event eevs ∧
    ("" ∉ closing) ∧
    loads levs `prefix_of` omap loader_of (datasets_to_eval args) ∧
    (is_ok r = true → loads levs = omap loader_of (datasets_to_eval args)) ∧
    run_cases args r rmk levs setup eevs closing.
Proof.
  unfold run_cases.
  intros [e0|e0 ld0 levs Hok Hpre|Hsel|e0 all levs Hl Hsel
         |e0 all levs llm Hl Hsel|r0 all levs llm sp eevs Hl Hsel Htr].
  - exists (Raise e0), [], [], [], []. split_and!; try done;
      [apply not_elem_of_nil|apply prefix_nil|]. left. by exists e0.
  - exists (Ok tt), (levs ++ [EvLoad ld0 (data_path args) (Raise e0)]), [], [], [].
    simpl. rewrite app_nil_r. split_and!; try done.
    + apply Forall_app. split; [|by repeat constructor].
      eapply Forall_impl; [exact Hok|]. apply load_ok_loading_event.
    + apply not_elem_of_nil.
    + unfold loads in *. by rewrite omap_app.
    + right. left. by exists e0, ld0, levs.
  - exists (Ok tt), [], [], [], [no_datasets_notice].
    apply first_occurrences_nil in Hsel as Hfil.
    apply filter_recognized_loaders in Hfil.
    split_and!; try done.
    + apply not_elem_of_cons. split; [done|apply not_elem_of_nil].
    + apply prefix_nil.
    + right. right. by left.
  - exists (Ok tt), levs, [EvPrint (initializing_line args);
                           EvLLM (llm_args args) (Raise e0)], [], [].
    pose proof Hl as (Hok & Hloads & _). simpl. split_and!; try done.
    + eapply Forall_impl; [exact Hok|]. apply load_ok_loading_event.
    + by repeat constructor.
    + apply not_elem_of_nil.
    + by rewrite Hloads.
    + do 3 right. left. by exists e0, all.
  - exists (Ok tt), levs, [EvPrint (initializing_line args);
                           EvLLM (llm_args args) (Ok llm);
                           EvSamplingParams (sampling_args args) (Raise e0)],
      [], [].
    pose proof Hl as (Hok & Hloads & _). simpl. split_and!; try done.
    + eapply Forall_impl; [exact Hok|]. apply load_ok_loading_event.
    + by repeat constructor.
    + apply not_elem_of_nil.
    + by rewrite Hloads.
    + do 4 right. left. by exists e0, all, llm.
  - exists (Ok tt), levs, [EvPrint (initializing_line args);
                           EvLLM (llm_args args) (Ok llm);
                           EvSamplingParams (sampling_args args) (Ok sp)],
      eevs, (if is_ok r0 then [saved_line args] else []).
    pose proof Hl as (Hok & Hloads & _). split_and!; try done.
    + by destruct (is_ok r0).
    + eapply Forall_impl; [exact Hok|]. apply load_ok_loading_event.
    + by repeat constructor.
    + eapply Forall_impl; [by eapply eval_trace_events|].
      apply evaluation_evaluating_event.
    + destruct (is_ok r0); [|apply not_elem_of_nil].
      apply not_elem_of_cons. split; [done|apply not_elem_of_nil].
    + by rewrite Hloads.
    + do 5 right. by exists all, llm, sp.
Qed.

(** The parts of a run and what they show. *)
Lemma main_parts argv w :
  let args := parse_arguments argv in
  let evs := events_of (main argv) w in
  let r := outcome (main argv) w in
  ∃ rmk levs setup eevs closing,
    evs = EvMakedirs (output_dir args) true rmk ::
          levs ++ setup ++ eevs ++ map EvPrint closing ∧
    (Forall loading_event levs ∧ Forall setup_event setup ∧
     Forall evaluating_event eevs ∧ "" ∉ closing) ∧
    (loads evs = loads levs ∧
     constructed evs = constructed setup ∧
     configured evs = configured setup ∧
     prepared evs = prepared eevs ∧
     opened evs = opened eevs ∧
     dumped evs = dumped eevs ∧
     written evs = written eevs ∧
     generated evs = generated eevs ∧
     completed evs = completed eevs) ∧
    loads levs `prefix_of` omap loader_of (datasets_to_eval args) ∧
    (is_ok r = true → loads levs = omap loader_of (datasets_to_eval args)) ∧
    run_cases args r rmk levs setup eevs closing.
Proof.
  intros args evs r.
  destruct (main_spec argv w) as (_ & Hshape & _).
  apply main_trace_parts in Hshape
    as (rmk & levs & setup & eevs & closing & Hevs & Hl & Hs & He & Hc & H).
  exists rmk, levs, setup, eevs, closing. split; [done|]. split; [done|].
  split; [|done]. subst evs. rewrite Hevs. by apply segments_obs.
Qed.

(** C1, as amended: the driver has no handler around the loaders.  When
    a loader raises, that call is the last thing the run does: the
    exception leaves [main], nothing is printed about it, no later
    dataset is loaded, the engine is never constructed, nothing is
    generated and no file is opened or written. *)
Theorem load_error_ends_run argv w ld p e :
  let args := parse_arguments argv in
  let evs := events_of (main argv) w in
  EvLoad ld p (Raise e) ∈ evs →
  outcome (main argv) w = Raise e ∧
  (∃ levs,
     evs = EvMakedirs (output_dir args) true (Ok tt) ::
           levs ++ [EvLoad ld p (Raise e)] ∧
     Forall (load_ok_event args) levs) ∧
  constructed evs = [] ∧ generated evs = [] ∧ prepared evs = [] ∧
  opened evs = [] ∧ dumped evs = [] ∧
  files (final (main argv) w) = files w.
Proof.
  intros args evs Hin.
  destruct (main_spec argv w) as (Ht & Hshape & _ & _ & _ & _ & _ & Hopen).
  fold args evs in Ht, Hshape, Hopen.
  destruct Hshape as [e0|e0 ld0 levs Hok Hpre|Hsel|e0 all levs Hl Hsel
                     |e0 all levs llm Hl Hsel|r all levs llm sp eevs Hl Hsel Htr].
  - apply list_elem_of_singleton in Hin. discriminate Hin.
  - apply elem_of_cons in Hin as [Hin|Hin]; [discriminate Hin|].
    apply elem_of_app in Hin as [Hin|Hin];
      [by destruct (failed_load_not_ok _ _ _ _ _ Hok Hin)|].
    apply list_elem_of_singleton in Hin. injection Hin as -> -> ->.
    destruct (load_events_obs _ _ Hok) as (Hp & Hd & Hw & Hg & Hc & _ & Ho & _).
    split_and!; try done.
    + by exists levs.
    + unfold constructed in *. csimpl. by rewrite omap_app, Hc.
    + unfold generated in *. csimpl. by rewrite omap_app, Hg.
    + unfold prepared in *. csimpl. by rewrite omap_app, Hp.
    + unfold opened in *. csimpl. by rewrite omap_app, Ho.
    + unfold dumped in *. csimpl. by rewrite omap_app, Hd.
    + apply map_eq. intros q. apply Hopen. unfold opened in *. csimpl.
      rewrite omap_app, Ho. apply not_elem_of_nil.
  - repeat (apply elem_of_cons in Hin as [Hin|Hin]; [discriminate Hin|]).
    by apply elem_of_nil in Hin.
  - destruct Hl as (Hok & _).
    apply elem_of_cons in Hin as [Hin|Hin]; [discriminate Hin|].
    apply elem_of_app in Hin as [Hin|Hin];
      [by destruct (failed_load_not_ok _ _ _ _ _ Hok Hin)|].
    repeat (apply elem_of_cons in Hin as [Hin|Hin]; [discriminate Hin|]).
    by apply elem_of_nil in Hin.
  - destruct Hl as (Hok & _).
    apply elem_of_cons in Hin as [Hin|Hin]; [discriminate Hin|].
    apply elem_of_app in Hin as [Hin|Hin];
      [by destruct (failed_load_not_ok _ _ _ _ _ Hok Hin)|].
    repeat (apply elem_of_cons in Hin as [Hin|Hin]; [discriminate Hin|]).
    by apply elem_of_nil in Hin.
  - destruct Hl as (Hok & _). apply eval_trace_events in Htr.
    apply elem_of_cons in Hin as [Hin|Hin]; [discriminate Hin|].
    apply elem_of_app in Hin as [Hin|Hin];
      [by destruct (failed_load_not_ok _ _ _ _ _ Hok Hin)|].
    apply elem_of_app in Hin as [Hin|Hin].
    { repeat (apply elem_of_cons in Hin as [Hin|Hin]; [discriminate Hin|]).
      by apply elem_of_nil in Hin. }
    apply elem_of_app in Hin as [Hin|Hin];
      [by destruct (load_not_evaluation _ _ _ _ _ _ _ Htr Hin)|].
    destruct r; simpl in Hin.
    + apply list_elem_of_singleton in Hin. discriminate Hin.
    + by apply elem_of_nil in Hin.
Qed.






Lemma count_NoDup {A} `{EqDecision A} (x : A) (l : list A) :
  NoDup l → x ∈ l → length (filter (fun y => y = x) l) = 1.
Proof.
  induction 1 as [|y l Hy Hnd IH]; [by intros ?%elem_of_nil|].
  intros [->|Hin]%elem_of_cons.
  - rewrite filter_cons_True by done. simpl. f_equal.
    clear IH Hnd. induction l as [|z l IH]; [done|].
    apply not_elem_of_cons in Hy as [Hne Hy].
    rewrite filter_cons_False by congruence. auto.
  - rewrite filter_cons_False; [auto|]. intros ->. done.
Qed.

Lemma prefix_NoDup {A} (l1 l2 : list A) : l1 `prefix_of` l2 → NoDup l2 → NoDup l1.
Proof. intros [k ->] Hnd. by apply NoDup_app in Hnd as [? _]. Qed.

Lemma report_paths_NoDup args :
  NoDup (map (report_path args) (selection args)).
Proof.
  destruct (selection_keys args) as [Hnd Hrec].
  apply (NoDup_fmap_2_strong (report_path args)); [|done].
  intros d1 d2 H1 H2. apply report_path_inj.
  - by eapply Forall_forall in Hrec.
  - by eapply Forall_forall in Hrec.
Qed.

Lemma written_dumped evs p obj : (p, obj) ∈ written evs → p ∈ dumped evs.
Proof.
  unfold written, dumped. intros (e & He & Hw)%list_elem_of_omap.
  apply list_elem_of_omap. exists e. split; [done|].
  destruct e as [| | | | | | | | | |? ? []]; try done. by injection Hw as -> ->.
Qed.

Lemma selection_elem_of args d :
  d ∈ selection args ↔ d ∈ datasets_to_eval args ∧ recognized d = true.
Proof.
  unfold selection. split.
  - intros [Hin _]%first_occurrences_spec.
    by apply list_elem_of_filter in Hin as [? ?].
  - intros [Hin Hrec]. apply first_occurrences_elem_of; [|apply not_elem_of_nil].
    by apply list_elem_of_filter.
Qed.

Lemma report_path_plain args d :
  recognized d = true → output_dir args ≠ "" →
  ends_with_sep (output_dir args) = false →
  report_path args d = output_dir args +:+ "/" +:+ d +:+ ".json".
Proof.
  rewrite recognized_elem_of. unfold all_datasets, report_path, os_path_join.
  rewrite !elem_of_cons, elem_of_nil. intros Hd Hne Hsep. rewrite Hsep.
  destruct (String.eqb_spec (output_dir args) ""); [done|].
  by destruct Hd as [->|[->|[->|[->|[->|[->|[]]]]]]].
Qed.

(** C2: for every dataset whose iteration ran to its end, exactly one
    JSON document was dumped to [os.path.join(output_dir, dataset +
    ".json")], it is on disk when the run ends, and it is the dict with
    exactly the keys [results], [metrics] and [config]: the results
    [process_outputs] returned for this dataset, the metrics
    [calculate_metrics] returned on them, which contain [accuracy], and
    [vars(args)], which holds every command-line argument: the value
    given on the command line, or the default of the option when it was
    omitted.  The path reads [output_dir/dataset.json] when [output_dir]
    does not end with a separator. *)
#[warnings="-inexact-float"]
Theorem completed_dataset_report argv w d :
  let args := parse_arguments argv in
  let evs := events_of (main argv) w in
  d ∈ completed evs →
  ∃ llm sp samples ps ms outs rs m x,
    let obj := output_dict_of args rs m in
    answered args llm sp d samples ps ms outs rs m ∧
    length (filter (fun p => p = report_path args d) (dumped evs)) = 1 ∧
    (report_path args d, obj) ∈ written evs ∧
    files (final (main argv) w) !! report_path args d = Some (FileJson obj) ∧
    dict_keys obj = ["results"; "metrics"; "config"] ∧
    dict_get "results" obj = Some (VResults rs) ∧
    dict_get "metrics" obj = Some (VMetrics m) ∧
    dict_get "config" obj = Some (VConfig (vars args)) ∧
    vars args =
      [ ("model", AStr (cli_model argv));
        ("output_dir", AStr (cli_output_dir argv));
        ("max_tokens", AInt (default 2048%Z (cli_max_tokens argv)));
        ("min_pixels", AInt (default 262144%Z (cli_min_pixels argv)));
        ("max_pixels", AInt (default 1000000%Z (cli_max_pixels argv)));
        ("max_model_len", AInt (default 8192%Z (cli_max_model_len argv)));
        ("temperature", AFloat (default 0.0%float (cli_temperature argv)));
        ("top_p", AFloat (default 0.95%float (cli_top_p argv)));
        ("repetition_penalty",
         AFloat (default 1.0%float (cli_repetition_penalty argv)));
        ("tensor_parallel_size",
         AInt (default 2%Z (cli_tensor_parallel_size argv)));
        ("eval_threads", AInt (default 32%Z (cli_eval_threads argv)));
        ("system_prompt",
         AStr (default default_system_prompt (cli_system_prompt argv)));
        ("datasets", AStr (default "all" (cli_datasets argv)));
        ("data_path",
         AStr (default "NoisyRollout/eval/data" (cli_data_path argv))) ] ∧
    dict_get "accuracy" m = Some (MNum x) ∧
    (output_dir args ≠ "" → ends_with_sep (output_dir args) = false →
     report_path args d = output_dir args +:+ "/" +:+ d +:+ ".json").
Proof.
  intros args evs Hd.
  destruct (main_spec argv w) as (_ & _ & _ & _ & _ & Hfiles & _).
  destruct (main_parts argv w)
    as (rmk & levs & setup & eevs & closing & _ & _ & Hobs & _ & _ & Hcases).
  fold args evs in Hfiles, Hobs, Hcases.
  destruct Hobs as (_ & _ & _ & _ & _ & Hdump & Hwr & _ & Hcomp).
  rewrite Hcomp in Hd.
  destruct Hcases
    as [(e & _ & _ & _ & _ & -> & _)
       |[(e & ld & levs0 & _ & _ & _ & _ & _ & -> & _)
       |[(_ & _ & _ & _ & -> & _)
       |[(e & all & _ & _ & _ & _ & _ & -> & _)
       |[(e & all & llm & _ & _ & _ & _ & _ & -> & _)
       |(all & llm & sp & _ & Hl & _ & _ & Htr & _)]]]]];
    try by apply elem_of_nil in Hd.
  destruct Hl as (_ & _ & Hkeys & _).
  destruct (eval_trace_order _ _ _ _ _ _ Htr) as [(_ & Hdp & _) _].
  eapply eval_trace_completed in Hd
    as (samples & ps & ms & outs & rs & m & x & t1 & t2 & Hin & Hans & Hacc & Heq);
    [|exact Htr].
  assert (Hw : (report_path args d, output_dict_of args rs m) ∈ written evs).
  { rewrite Hwr, Heq. unfold written. rewrite !omap_app.
    apply elem_of_app. right. apply elem_of_app. left.
    destruct (iteration_events_obs args llm sp d samples ps ms outs rs m x)
      as (_ & _ & Hw & _).
    unfold written in Hw. rewrite Hw. apply list_elem_of_here. }
  exists llm, sp, samples, ps, ms, outs, rs, m, x. split_and!; try done.
  - apply count_NoDup; [|by eapply written_dumped].
    rewrite Hdump. eapply prefix_NoDup; [exact Hdp|].
    rewrite Hkeys. apply report_paths_NoDup.
  - by apply Hfiles.
  - apply report_path_plain.
    assert (Hsel : d ∈ selection args).
    { rewrite <- Hkeys. apply list_elem_of_fmap. by exists (d, samples). }
    by apply selection_elem_of in Hsel as [_ ?].
Qed.


(** C7: every call of [llm.generate] receives the one sampling object
    the run constructed, and it was constructed from exactly the
    temperature, top-p, maximum number of output tokens and repetition
    penalty resolved from the command line. *)
Theorem sampling_params_from_cli argv w llm ps sp :
  let args := parse_arguments argv in
  let evs := events_of (main argv) w in
  (llm, ps, sp) ∈ generated evs →
  configured evs = [(sampling_args args, Ok sp)] ∧
  sp_temperature (sampling_args args) = temperature args ∧
  sp_top_p (sampling_args args) = top_p args ∧
  sp_max_tokens (sampling_args args) = max_tokens args ∧
  sp_repetition_penalty (sampling_args args) = repetition_penalty args ∧
  (∀ x, cli_temperature argv = Some x → temperature args = x) ∧
  (∀ x, cli_top_p argv = Some x → top_p args = x) ∧
  (∀ n, cli_max_tokens argv = Some n → max_tokens args = n) ∧
  (∀ x, cli_repetition_penalty argv = Some x → repetition_penalty args = x).
Proof.
  intros args evs Hg.
  destruct (main_parts argv w)
    as (rmk & levs & setup & eevs & closing & _ & _ & Hobs & _ & _ & Hcases).
  fold args evs in Hobs, Hcases.
  destruct Hobs as (_ & _ & Hconf & _ & _ & _ & _ & Hgen & _).
  rewrite Hgen in Hg. rewrite Hconf.
  destruct Hcases
    as [(e & _ & _ & _ & _ & -> & _)
       |[(e & ld & levs0 & _ & _ & _ & _ & _ & -> & _)
       |[(_ & _ & _ & _ & -> & _)
       |[(e & all & _ & _ & _ & _ & _ & -> & _)
       |[(e & all & llm0 & _ & _ & _ & _ & _ & -> & _)
       |(all & llm0 & sp0 & _ & _ & _ & -> & Htr & _)]]]]];
    try by apply elem_of_nil in Hg.
  apply eval_trace_events, evaluation_events_obs in Htr as (_ & _ & _ & Hall).
  eapply Forall_forall in Hall; [|exact Hg]. simpl in Hall.
  destruct Hall as [_ ->].
  unfold args. simpl. split_and!; try done; by intros ? ->.
Qed.


(** C6, as amended: the engine constructor is called at most once in a
    run, with the keyword arguments resolved from the command line,
    after every loader call and before any call of [generate]; every
    call of [generate] is made on the instance that call returned, and
    the trace has no other event on an engine.  It is called exactly
    once when at least one requested name is recognised and neither
    [makedirs] nor a loader raised, and not at all when no requested
    name is recognised. *)
Theorem engine_constructed_at_most_once argv w :
  let args := parse_arguments argv in
  let evs := events_of (main argv) w in
  (length (constructed evs) ≤ 1)%nat ∧
  (∀ kw rl, (kw, rl) ∈ constructed evs → kw = llm_args args) ∧
  (∀ llm ps sp, (llm, ps, sp) ∈ generated evs →
                constructed evs = [(llm_args args, Ok llm)]) ∧
  (∀ pre kw rl post,
     evs = pre ++ EvLLM kw rl :: post →
     loads pre = omap loader_of (datasets_to_eval args) ∧
     loads post = [] ∧ generated pre = []) ∧
  (selection args = [] → constructed evs = []) ∧
  (selection args ≠ [] → Forall loading_step_returned evs →
   length (constructed evs) = 1).
Proof.
  intros args evs.
  destruct (main_parts argv w)
    as (rmk & levs & setup & eevs & closing & Hevs & Hparts & Hobs & _ & _ & Hcases).
  fold args evs in Hevs, Hobs, Hcases.
  destruct Hparts as (Hlev & Hset & Hev & Hcl).
  destruct Hobs as (Hloads & Hcons & _ & _ & _ & _ & _ & Hgen & _).
  destruct (loading_events_obs _ Hlev) as (_ & _ & _ & _ & Lg & Lc & _).
  destruct (evaluating_events_obs _ Hev) as (El & Ec & _).
  assert (Hpos : ∀ rl0 sfx,
            setup = EvPrint (initializing_line args) ::
                    EvLLM (llm_args args) rl0 :: sfx →
            loads levs = omap loader_of (datasets_to_eval args) →
            Forall setup_event sfx → constructed sfx = [] →
            ∀ pre kw rl post,
              evs = pre ++ EvLLM kw rl :: post →
              loads pre = omap loader_of (datasets_to_eval args) ∧
              loads post = [] ∧ generated pre = []).
  { intros rl0 sfx Hsetup Hl Hsfx Hcs pre kw rl post Heq.
    rewrite Hevs, Hsetup in Heq.
    change (EvMakedirs (output_dir args) true rmk ::
            levs ++ (EvPrint (initializing_line args) ::
                     EvLLM (llm_args args) rl0 :: sfx) ++
            eevs ++ map EvPrint closing)
      with ((EvMakedirs (output_dir args) true rmk :: levs) ++
            EvPrint (initializing_line args) ::
            EvLLM (llm_args args) rl0 :: sfx ++ eevs ++ map EvPrint closing)
      in Heq.
    rewrite (cons_middle (EvPrint _)), app_assoc in Heq.
    apply (split_unique ev_constructed) in Heq as (-> & _ & ->);
      [|by eexists|..].
    - destruct (setup_events_obs _ Hsfx) as (Sl & _).
      unfold loads, generated in *. csimpl.
      rewrite !omap_app, ?omap_prints by done. csimpl.
      rewrite Sl, El, Lg, Hl, !app_nil_r. done.
    - unfold constructed in *. csimpl. rewrite omap_app. csimpl.
      by rewrite Lc.
    - unfold constructed in *. rewrite !omap_app, omap_prints by done.
      by rewrite Hcs, Ec. }
  assert (Hnone : setup = [] → eevs = [] →
            ∀ pre kw rl post, evs = pre ++ EvLLM kw rl :: post → False).
  { intros -> -> pre kw rl post Heq.
    assert (Hin : EvLLM kw rl ∈ evs)
      by (rewrite Heq; apply elem_of_app; right; apply list_elem_of_here).
    rewrite Hevs in Hin. simpl in Hin.
    apply elem_of_cons in Hin as [Hin|Hin]; [discriminate Hin|].
    apply elem_of_app in Hin as [Hin|Hin].
    - eapply Forall_forall in Hlev; [|exact Hin]. exact Hlev.
    - apply list_elem_of_fmap in Hin as (? & Hin & _). discriminate Hin. }
  rewrite Hcons, Hgen.
  destruct Hcases
    as [(e & _ & -> & -> & -> & -> & ->)
       |[(e & ld & levs0 & _ & -> & -> & Hok0 & -> & -> & ->)
       |[(_ & _ & _ & -> & -> & _ & Hsel)
       |[(e & all & _ & -> & Hl & Hsel & -> & -> & ->)
       |[(e & all & llm0 & _ & -> & Hl & Hsel & -> & -> & ->)
       |(all & llm0 & sp0 & -> & Hl & Hsel & -> & Htr & _)]]]]]; simpl.
  - split_and!; try done.
    + lia.
    + by intros ? ? ?%elem_of_nil.
    + by intros ? ? ? ?%elem_of_nil.
    + intros pre kw rl post Heq. by destruct (Hnone eq_refl eq_refl _ _ _ _ Heq).
    + intros _ Hall. rewrite Hevs in Hall.
      apply Forall_cons in Hall as [[] _].
  - split_and!; try done.
    + lia.
    + by intros ? ? ?%elem_of_nil.
    + by intros ? ? ? ?%elem_of_nil.
    + intros pre kw rl post Heq. by destruct (Hnone eq_refl eq_refl _ _ _ _ Heq).
    + intros _ Hall. rewrite Hevs in Hall.
      apply Forall_cons in Hall as [_ Hall].
      rewrite !app_nil_r in Hall.
      apply Forall_app in Hall as [_ Hall].
      apply Forall_cons in Hall as [[] _].
  - split_and!; try done.
    + lia.
    + by intros ? ? ?%elem_of_nil.
    + by intros ? ? ? ?%elem_of_nil.
    + intros pre kw rl post Heq. by destruct (Hnone eq_refl eq_refl _ _ _ _ Heq).
  - destruct Hl as (_ & Hl & _). split_and!; try done.
    + by intros ? ? [= -> ->]%list_elem_of_singleton.
    + by intros ? ? ? ?%elem_of_nil.
    + eapply Hpos; try done; by repeat constructor.
  - destruct Hl as (_ & Hl & _). split_and!; try done.
    + by intros ? ? [= -> ->]%list_elem_of_singleton.
    + by intros ? ? ? ?%elem_of_nil.
    + eapply Hpos; try done; by repeat constructor.
  - destruct Hl as (_ & Hl & _).
    apply eval_trace_events, evaluation_events_obs in Htr as (_ & _ & _ & Hall).
    split_and!; try done.
    + by intros ? ? [= -> ->]%list_elem_of_singleton.
    + intros llm ps sp Hg. eapply Forall_forall in Hall; [|exact Hg].
      simpl in Hall. by destruct Hall as [-> _].
    + eapply Hpos; try done; by repeat constructor.
Qed.



Lemma no_selection args :
  Forall (fun n => recognized n = false) (datasets_to_eval args) ↔
  selection args = [].
Proof.
  unfold selection. split.
  - intros Hall.
    assert (filter (fun n => recognized n = true) (datasets_to_eval args) = [])
      as ->; [|done].
    induction Hall as [|n l Hn _ IH]; [done|].
    rewrite filter_cons_False by congruence. done.
  - intros Hsel%first_occurrences_nil.
    induction (datasets_to_eval args) as [|n l IH]; [constructor|].
    destruct (recognized n) eqn:E.
    + rewrite filter_cons_True in Hsel by done. done.
    + rewrite filter_cons_False in Hsel by congruence. constructor; auto.
Qed.

(** A run in which no requested name is recognised: [makedirs], then
    the notice, and nothing else. *)
Lemma no_selection_run argv w :
  let args := parse_arguments argv in
  let evs := events_of (main argv) w in
  selection args = [] →
  ∃ rmk,
    evs = EvMakedirs (output_dir args) true rmk ::
          (if is_ok rmk then [EvPrint no_datasets_notice] else []) ∧
    outcome (main argv) w = rmk ∧
    files (final (main argv) w) = files w.
Proof.
  intros args evs Hsel.
  destruct (main_spec argv w) as (_ & _ & _ & _ & _ & _ & _ & Hopen).
  destruct (main_parts argv w)
    as (rmk & levs & setup & eevs & closing & Hevs & _ & Hobs & Hpre & _ & Hcases).
  fold args evs in Hopen, Hevs, Hobs, Hpre, Hcases.
  exists rmk.
  assert (Hfiles : opened evs = [] → files (final (main argv) w) = files w).
  { intros Ho. apply map_eq. intros p. apply Hopen. rewrite Ho.
    apply not_elem_of_nil. }
  destruct Hobs as (_ & _ & _ & _ & Hop & _).
  destruct Hcases
    as [(e & Hr & -> & -> & -> & -> & ->)
       |[(e & ld & levs0 & _ & _ & -> & _)
       |[(Hr & -> & -> & -> & -> & -> & _)
       |[(e & all & _ & _ & _ & ? & _)
       |[(e & all & llm0 & _ & _ & _ & ? & _)
       |(all & llm0 & sp0 & _ & _ & ? & _)]]]]]; try done.
  - split_and!; try done. by apply Hfiles.
  - apply first_occurrences_nil, filter_recognized_loaders in Hsel.
    rewrite Hsel in Hpre. unfold loads in Hpre. rewrite omap_app in Hpre.
    apply prefix_nil_inv in Hpre. by destruct (omap ev_loader levs0).
  - split_and!; try done. by apply Hfiles.
Qed.

(** C4, as amended: when no requested name is recognised, the run
    prints the notice right after [makedirs] and returns: the engine is
    not constructed, nothing is generated, no file is opened or written.
    [main] returns normally, so the exit status is 0, as after a run
    that wrote reports. *)
Theorem no_recognised_dataset_returns_early argv w :
  let args := parse_arguments argv in
  let evs := events_of (main argv) w in
  Forall (fun n => recognized n = false) (datasets_to_eval args) →
  EvMakedirs (output_dir args) true (Ok tt) ∈ evs →
  evs = [EvMakedirs (output_dir args) true (Ok tt);
         EvPrint no_datasets_notice] ∧
  outcome (main argv) w = Ok tt ∧
  (run_script argv w).1 = 0%Z ∧
  constructed evs = [] ∧ generated evs = [] ∧
  opened evs = [] ∧ dumped evs = [] ∧
  files (final (main argv) w) = files w.
Proof.
  intros args evs Hall Hmk. apply no_selection in Hall.
  destruct (no_selection_run argv w Hall) as (rmk & Hevs & Hr & Hf).
  fold args evs in Hevs. rewrite Hevs in Hmk.
  assert (rmk = Ok tt) as ->.
  { destruct rmk as [[]|e]; [done|]. simpl in Hmk.
    apply list_elem_of_singleton in Hmk. discriminate Hmk. }
  simpl in Hevs. rewrite Hevs. split_and!; try done.
  unfold run_script, outcome in *. destruct (main argv w) as [r w'].
  simpl in *. by subst r.
Qed.


Lemma iteration_event_paths args llm sp d tail :
  Forall (iteration_event args llm sp d) tail →
  Forall (fun p => p = report_path args d) (opened tail) ∧
  Forall (fun p => p = report_path args d) (dumped tail).
Proof.
  unfold opened, dumped.
  induction 1 as [|e tail He _ [IH1 IH2]]; [by split|].
  destruct e; csimpl; try done; simpl in He.
  - split; [by constructor|done].
  - split; [done|]. constructor; [by destruct He|done].
Qed.

(** The loop opens and dumps only the report files of its items. *)
Lemma eval_trace_paths args llm sp items ok evs :
  eval_trace args llm sp items ok evs →
  Forall (fun p => p ∈ map (report_path args) (dict_keys items)) (opened evs) ∧
  Forall (fun p => p ∈ map (report_path args) (dict_keys items)) (dumped evs).
Proof.
  induction 1 as [|d samples items ps ms outs rs m x ok evs _ _ _ [IH1 IH2]
                  |d samples items r0 tail Hev Hprep Hdump Hwr Hblank].
  - by split.
  - destruct (iteration_events_obs args llm sp d samples ps ms outs rs m x)
      as (_ & Ed & _ & _ & _ & _ & _ & Eo).
    change (dict_keys ((d, samples) :: items)) with (d :: dict_keys items).
    unfold opened, dumped in *. rewrite !omap_app, Ed, Eo.
    split; (apply Forall_app; split;
            [repeat constructor; apply list_elem_of_here|]);
      (eapply Forall_impl; [eassumption|]);
      intros p Hp; by apply list_elem_of_further.
  - apply iteration_event_paths in Hev as [Ho Hd].
    change (dict_keys ((d, samples) :: items)) with (d :: dict_keys items).
    change (opened (EvPreparePrompts d samples args r0 :: tail))
      with (opened tail).
    change (dumped (EvPreparePrompts d samples args r0 :: tail))
      with (dumped tail).
    split; (eapply Forall_impl; [eassumption|]);
      intros p ->; apply list_elem_of_here.
Qed.

Lemma report_of_selected args p :
  p ∈ map (report_path args) (selection args) →
  ∃ d, recognized d = true ∧ d ∈ datasets_to_eval args ∧ p = report_path args d.
Proof.
  intros (d & -> & [? ?]%selection_elem_of)%list_elem_of_fmap. by exists d.
Qed.

(** C9: a requested name that is not one of the six is skipped in
    silence.  Its step of the loading loop does nothing at all: no
    loader call, no line printed, no exception.  No evaluation starts
    or completes for it, and every file the run opens, dumps to or
    changes is the report of a recognised requested dataset.  When no
    requested name is recognised the run is the early return: the
    notice follows [makedirs] and [main] returns. *)
Theorem unrecognised_names_ignored argv w name :
  let args := parse_arguments argv in
  let evs := events_of (main argv) w in
  let w' := final (main argv) w in
  name ∈ datasets_to_eval args → recognized name = false →
  (∀ all_samples w0, load_dataset args all_samples name w0 = (Ok all_samples, w0)) ∧
  (name ∉ prepared evs) ∧ (name ∉ completed evs) ∧
  (∀ p, p ∈ opened evs ++ dumped evs →
        ∃ d, recognized d = true ∧ d ∈ datasets_to_eval args ∧
             p = report_path args d) ∧
  (∀ p, files w' !! p ≠ files w !! p →
        ∃ d, recognized d = true ∧ d ∈ datasets_to_eval args ∧
             p = report_path args d) ∧
  (Forall (fun n => recognized n = false) (datasets_to_eval args) →
   ∃ rmk,
     evs = EvMakedirs (output_dir args) true rmk ::
           (if is_ok rmk then [EvPrint no_datasets_notice] else []) ∧
     outcome (main argv) w = rmk).
Proof.
  intros args evs w' Hreq Hrec.
  destruct (main_spec argv w) as (_ & _ & _ & _ & _ & _ & Hframe & _).
  destruct (main_parts argv w)
    as (rmk & levs & setup & eevs & closing & _ & _ & Hobs & _ & _ & Hcases).
  fold args evs w' in Hframe, Hobs, Hcases.
  destruct Hobs as (_ & _ & _ & Hprep & Hop & Hdump & _ & _ & Hcomp).
  assert (Hnot : name ∉ selection args).
  { intros [_ ?]%selection_elem_of. congruence. }
  assert (Heval :
    prepared eevs `prefix_of` selection args ∧
    completed eevs `prefix_of` selection args ∧
    Forall (fun p => p ∈ map (report_path args) (selection args)) (opened eevs) ∧
    Forall (fun p => p ∈ map (report_path args) (selection args)) (dumped eevs)).
  { destruct Hcases
      as [(e & _ & _ & _ & _ & -> & _)
         |[(e & ld & levs0 & _ & _ & _ & _ & _ & -> & _)
         |[(_ & _ & _ & _ & -> & _)
         |[(e & all & _ & _ & _ & _ & _ & -> & _)
         |[(e & all & llm0 & _ & _ & _ & _ & _ & -> & _)
         |(all & llm0 & sp0 & _ & Hl & _ & _ & Htr & _)]]]]];
      try (split_and!; [apply prefix_nil|apply prefix_nil|constructor..]).
    destruct Hl as (_ & _ & Hkeys & _).
    destruct (eval_trace_order _ _ _ _ _ _ Htr) as [(Hp & _ & _ & Hc) _].
    destruct (eval_trace_paths _ _ _ _ _ _ Htr) as [Ho Hd].
    rewrite Hkeys in Hp, Hc, Ho, Hd. split_and!; try done. apply Hc. }
  destruct Heval as (Hp & Hc & Ho & Hd).
  split_and!.
  - intros all_samples w0. rewrite load_dataset_unfold.
    unfold recognized in Hrec. by destruct (loader_of name).
  - rewrite Hprep. intros Hin. apply Hnot.
    destruct Hp as [k ->]. apply elem_of_app. by left.
  - rewrite Hcomp. intros Hin. apply Hnot.
    destruct Hc as [k ->]. apply elem_of_app. by left.
  - rewrite Hop, Hdump. intros p [Hin|Hin]%elem_of_app; apply report_of_selected.
    + by eapply Forall_forall in Ho.
    + by eapply Forall_forall in Hd.
  - intros p Hp'. apply report_of_selected.
    destruct (decide (p ∈ map (report_path args) (selection args))); [done|].
    destruct Hp'. by apply Hframe.
  - intros Hall%no_selection.
    destruct (no_selection_run argv w Hall) as (rmk' & ? & ? & _). by exists rmk'.
Qed.


(** Once [makedirs] and every loader have returned with a dataset
    selected, the engine constructor is called. *)
Lemma engine_called_when_loaded argv w :
  let args := parse_arguments argv in
  let evs := events_of (main argv) w in
  selection args ≠ [] → Forall loading_step_returned evs →
  ∃ rl, constructed evs = [(llm_args args, rl)].
Proof.
  intros args evs Hsel Hall.
  destruct (main_parts argv w)
    as (rmk & levs & setup & eevs & closing & Hevs & _ & Hobs & _ & _ & Hcases).
  fold args evs in Hevs, Hobs, Hcases.
  destruct Hobs as (_ & -> & _).
  rewrite Hevs in Hall.
  destruct Hcases
    as [(e & _ & -> & _)
       |[(e & ld & levs0 & _ & _ & -> & _)
       |[(_ & _ & _ & _ & _ & _ & ?)
       |[(e & all & _ & _ & _ & _ & -> & _)
       |[(e & all & llm0 & _ & _ & _ & _ & -> & _)
       |(all & llm0 & sp0 & _ & _ & _ & -> & _)]]]]]; try done.
  - by apply Forall_cons in Hall as [[] _].
  - apply Forall_cons in Hall as [_ Hall].
    apply Forall_app in Hall as [Hall _].
    apply Forall_app in Hall as [_ Hall].
    by apply Forall_cons in Hall as [[] _].
  - by eexists.
  - by eexists.
  - by eexists.
Qed.

Lemma length_zero_nil {A} (l : list A) : (length l ≤ 0)%nat → l = [].
Proof. destruct l; [done|]. simpl. lia. Qed.

(** C3, as amended: all datasets are loaded before the first one is
    evaluated; from then on, when the evaluation of a dataset starts,
    the report of every dataset whose evaluation started earlier has
    been written in full, and no loader is called any more.  A report
    is written in full when its [with] block was left normally:
    [json.dump] returned and so did the close of the file.  Whatever
    way the run ends, every report that was written in full is on disk
    with the content that was written. *)
Theorem reports_written_before_next_evaluation argv w :
  let args := parse_arguments argv in
  let evs := events_of (main argv) w in
  let w' := final (main argv) w in
  (∀ t1 d s a r0 t2,
     evs = t1 ++ EvPreparePrompts d s a r0 :: t2 →
     loads t1 = omap loader_of (datasets_to_eval args) ∧
     loads t2 = [] ∧
     (written t1).*1 = map (report_path args) (prepared t1)) ∧
  (∀ p obj, (p, obj) ∈ written evs → files w' !! p = Some (FileJson obj)).
Proof.
  intros args evs w'.
  destruct (main_spec argv w) as (_ & _ & _ & _ & _ & Hfiles & _).
  split; [|done].
  destruct (main_parts argv w)
    as (rmk & levs & setup & eevs & closing & Hevs & Hparts & _ & _ & _ & Hcases).
  fold args evs in Hevs, Hcases.
  destruct Hparts as (Hlev & Hset & Hev & Hcl).
  destruct (loading_events_obs _ Hlev) as (Lp & _ & _ & Lw & _).
  destruct (setup_events_obs _ Hset) as (Sl & Sp & _ & _ & Sw & _).
  destruct (evaluating_events_obs _ Hev) as (El & _).
  intros t1 d s a r0 t2 Heq. rewrite Hevs in Heq.
  change (EvMakedirs (output_dir args) true rmk ::
          levs ++ setup ++ eevs ++ map EvPrint closing)
    with ((EvMakedirs (output_dir args) true rmk :: levs) ++
          setup ++ eevs ++ map EvPrint closing) in Heq.
  rewrite app_assoc in Heq.
  eapply (app_split_at (fun e => is_Some (ev_prepared e))) in Heq
    as (t & -> & Heq); [|by eexists|].
  2:{ apply omap_nil_Forall. rewrite omap_app. csimpl.
      unfold prepared in Lp, Sp. by rewrite Lp, Sp. }
  eapply (app_split_at_r (fun e => is_Some (ev_prepared e))) in Heq
    as (t' & Heevs & ->); [|by eexists|].
  2:{ apply omap_nil_Forall. by apply omap_prints. }
  assert (Hloaded : loads levs = omap loader_of (datasets_to_eval args) ∧
                    (written t).*1 = map (report_path args) (prepared t)).
  { destruct Hcases
      as [(e & _ & _ & _ & _ & -> & _)
         |[(e & ld & levs0 & _ & _ & _ & _ & _ & -> & _)
         |[(_ & _ & _ & _ & -> & _)
         |[(e & all & _ & _ & _ & _ & _ & -> & _)
         |[(e & all & llm0 & _ & _ & _ & _ & _ & -> & _)
         |(all & llm0 & sp0 & _ & Hl & _ & _ & Htr & _)]]]]];
      try by destruct t.
    destruct Hl as (_ & Hl & _). split; [done|].
    by eapply eval_trace_reports_first. }
  destruct Hloaded as [Hl Hw].
  rewrite Heevs in El. unfold loads in El. rewrite omap_app in El.
  apply app_eq_nil in El as [Elt El']. csimpl in El'.
  unfold loads, written, prepared in *. csimpl.
  rewrite !omap_app, ?omap_prints by done.
  rewrite Lp, Lw, Sl, Sp, Sw, Elt, El', Hl, !app_nil_r. done.
Qed.

End Claims.

(** * The claims on concrete runs *)

Module Runs.
Import Scenario.

(** C1, as stated, fails: Geo3K and WeMath are requested and the Geo3K
    loader raises.  The run ends there with the exception: nothing is
    printed, and the WeMath loader is never called. *)
Lemma load_error_stops_the_run :
  let X := geo3k_missing in
  let argv := cli "out" (Some "geo3k,wemath") in
  let w := start X 0%nat in
  datasets_to_eval (parse_arguments argv) = ["geo3k"; "wemath"] ∧
  events_of (main argv) w =
    [ EvMakedirs "out" true (Ok tt);
      EvLoad load_geo3k_dataset "data" (Raise (PyExc "DataLoadError")) ] ∧
  outcome (main argv) w = Raise (PyExc "DataLoadError") ∧
  loads (events_of (main argv) w) = [load_geo3k_dataset] ∧
  printed (events_of (main argv) w) = [].
Proof. vm_compute. by split_and!. Qed.

Lemma load_error_ends_run_witness :
  let X := geo3k_missing in
  let argv := cli "out" (Some "geo3k,wemath") in
  let w := start X 0%nat in
  EvLoad load_geo3k_dataset "data" (Raise (PyExc "DataLoadError"))
    ∈ events_of (main argv) w ∧
  outcome (main argv) w = Raise (PyExc "DataLoadError").
Proof.
  intros X argv w.
  assert (H : EvLoad load_geo3k_dataset "data" (Raise (PyExc "DataLoadError"))
                ∈ events_of (main argv) w)
    by (vm_compute; apply list_elem_of_further, list_elem_of_here).
  split; [exact H|].
  exact (proj1 (load_error_ends_run argv w _ _ _ H)).
Defined.

#[warnings="-inexact-float"]
Lemma completed_dataset_report_witness :
  let X := healthy in
  let argv := cli "out" (Some "geo3k") in
  let w := start X 0%nat in
  "geo3k" ∈ completed (events_of (main argv) w) ∧
  ∃ rs m x,
    files (final (main argv) w) !! "out/geo3k.json" =
      Some (FileJson
              [ ("results", VResults rs);
                ("metrics", VMetrics m);
                ("config",
                 VConfig
                   [ ("model", AStr "model");
                     ("output_dir", AStr "out");
                     ("max_tokens", AInt 2048);
                     ("min_pixels", AInt 262144);
                     ("max_pixels", AInt 1000000);
                     ("max_model_len", AInt 8192);
                     ("temperature", AFloat 0.0%float);
                     ("top_p", AFloat 0.95%float);
                     ("repetition_penalty", AFloat 1.0%float);
                     ("tensor_parallel_size", AInt 2);
                     ("eval_threads", AInt 32);
                     ("system_prompt", AStr default_system_prompt);
                     ("datasets", AStr "geo3k");
                     ("data_path", AStr "data") ]) ]) ∧
    dict_get "accuracy" m = Some (MNum x).
Proof.
  intros X argv w.
  assert (H : "geo3k" ∈ completed (events_of (main argv) w))
    by (vm_compute; apply list_elem_of_here).
  split; [exact H|].
  destruct (completed_dataset_report argv w "geo3k" H)
    as (llm & sp & samples & ps & ms & outs & rs & m & x & _ & _ & _ & Hf & _
        & _ & _ & _ & _ & Hacc & _).
  exists rs, m, x. split; [exact Hf|exact Hacc].
Defined.

(** C3, as stated, fails: Geo3K and WeMath are requested and the WeMath
    loader raises.  Work on the second dataset, its loading, is done
    before any report of the first is written, and when it fails the
    run ends without a report for the first dataset. *)
Lemma second_dataset_loaded_before_first_report :
  let X := wemath_missing in
  let argv := cli "out" (Some "geo3k,wemath") in
  let w := start X 0%nat in
  events_of (main argv) w =
    [ EvMakedirs "out" true (Ok tt);
      EvLoad load_geo3k_dataset "data" (Ok [1; 2]%nat);
      EvPrint "Loaded 2 samples from Geo3K";
      EvLoad load_wemath_dataset "data" (Raise (PyExc "DataLoadError")) ] ∧
  outcome (main argv) w = Raise (PyExc "DataLoadError") ∧
  written (events_of (main argv) w) = [] ∧
  files (final (main argv) w) !! "out/geo3k.json" = None.
Proof. vm_compute. by split_and!. Qed.

(** The second report cannot be flushed when its file is closed:
    [json.dump] returned for both reports, the first was written in
    full before the second dataset was touched and is on disk, whole,
    when the run ends; the second is incomplete. *)
Lemma reports_written_before_next_evaluation_witness :
  let X := close_fails_on "out/wemath.json" in
  let argv := cli "out" (Some "geo3k,wemath") in
  let w := start X 0%nat in
  let evs := events_of (main argv) w in
  let t1 := take 18 evs in
  let report := output_dict_of (parse_arguments argv) [true; true] full_marks in
  evs = t1 ++ EvPreparePrompts "wemath" [1; 2]%nat (parse_arguments argv)
                (Ok ([1; 2]%nat, [1; 2]%nat)) :: drop 19 evs ∧
  ("out/geo3k.json", report) ∈ written evs ∧
  outcome (main argv) w = Raise (PyExc "OSError") ∧
  prepared t1 = ["geo3k"] ∧
  (written t1).*1 = map (report_path (parse_arguments argv)) (prepared t1) ∧
  files (final (main argv) w) !! "out/geo3k.json" = Some (FileJson report) ∧
  files (final (main argv) w) !! "out/wemath.json" = Some FilePartial.
Proof.
  intros X argv w evs t1 report.
  assert (H : evs = t1 ++ EvPreparePrompts "wemath" [1; 2]%nat
                             (parse_arguments argv)
                             (Ok ([1; 2]%nat, [1; 2]%nat)) :: drop 19 evs)
    by (vm_compute; reflexivity).
  assert (Hw : ("out/geo3k.json", report) ∈ written evs)
    by (vm_compute; apply list_elem_of_here).
  split; [exact H|]. split; [exact Hw|].
  split; [vm_compute; reflexivity|]. split; [vm_compute; reflexivity|].
  destruct (reports_written_before_next_evaluation argv w) as [Horder Hdisk].
  split; [exact (proj2 (proj2 (Horder _ _ _ _ _ _ H)))|].
  split; [exact (Hdisk _ _ Hw)|vm_compute; reflexivity].
Defined.

(** A run that fails while evaluating its second dataset: the report of
    the first is on disk, whole, and nothing was opened for the second. *)
Example first_report_survives_generation_error :
  let X := wemath_generation_error in
  let argv := cli "out" (Some "geo3k,wemath") in
  let w := start X 0%nat in
  outcome (main argv) w = Raise (PyExc "GenerationError") ∧
  completed (events_of (main argv) w) = ["geo3k"] ∧
  opened (events_of (main argv) w) = ["out/geo3k.json"] ∧
  files (final (main argv) w) !! "out/geo3k.json" =
    Some (FileJson (output_dict_of (parse_arguments argv) [true; true] full_marks)) ∧
  files (final (main argv) w) !! "out/wemath.json" = None.
Proof. vm_compute. by split_and!. Qed.

(** C4, as stated, fails on the exit status: a run in which no dataset
    is recognised and a run that evaluates Geo3K and writes its report
    both end with status 0. *)
Lemma early_return_exits_like_success :
  let X := healthy in
  let w := start X 0%nat in
  let idle := cli "out" (Some "nosuch") in
  let busy := cli "out" (Some "geo3k") in
  events_of (main idle) w =
    [EvMakedirs "out" true (Ok tt); EvPrint no_datasets_notice] ∧
  (run_script idle w).1 = 0%Z ∧
  (written (events_of (main busy) w)).*1 = ["out/geo3k.json"] ∧
  (run_script busy w).1 = 0%Z.
Proof. vm_compute. by split_and!. Qed.

Lemma no_recognised_dataset_returns_early_witness :
  let X := healthy in
  let argv := cli "out" (Some "nosuch") in
  let w := start X 0%nat in
  Forall (fun n => recognized n = false) (datasets_to_eval (parse_arguments argv)) ∧
  EvMakedirs "out" true (Ok tt) ∈ events_of (main argv) w ∧
  events_of (main argv) w =
    [EvMakedirs "out" true (Ok tt); EvPrint no_datasets_notice].
Proof.
  intros X argv w.
  assert (H1 : Forall (fun n => recognized n = false)
                 (datasets_to_eval (parse_arguments argv)))
    by (vm_compute; repeat constructor).
  assert (H2 : EvMakedirs (output_dir (parse_arguments argv)) true (Ok tt)
                 ∈ events_of (main argv) w)
    by (vm_compute; apply list_elem_of_here).
  split; [exact H1|]. split; [exact H2|].
  exact (proj1 (no_recognised_dataset_returns_early argv w H1 H2)).
Defined.


(** C6, as stated, fails: in a run where no requested name is
    recognised the engine is not constructed at all. *)
Lemma no_engine_without_dataset :
  let X := healthy in
  let argv := cli "out" (Some "nosuch") in
  let w := start X 0%nat in
  outcome (main argv) w = Ok tt ∧
  constructed (events_of (main argv) w) = [].
Proof. vm_compute. by split. Qed.

Lemma engine_constructed_at_most_once_witness :
  let X := healthy in
  let argv := cli "out" (Some "geo3k") in
  let w := start X 0%nat in
  selection (parse_arguments argv) ≠ [] ∧
  Forall loading_step_returned (events_of (main argv) w) ∧
  length (constructed (events_of (main argv) w)) = 1.
Proof.
  intros X argv w.
  assert (H1 : selection (parse_arguments argv) ≠ [])
    by (vm_compute; discriminate).
  assert (H2 : Forall loading_step_returned (events_of (main argv) w))
    by (vm_compute; repeat constructor).
  split; [exact H1|]. split; [exact H2|].
  destruct (engine_constructed_at_most_once argv w) as (_ & _ & _ & _ & _ & Hone).
  exact (Hone H1 H2).
Defined.

Lemma sampling_params_from_cli_witness :
  let X := healthy in
  let argv := cli "out" (Some "geo3k") in
  let w := start X 0%nat in
  let sp := sampling_args (parse_arguments argv) in
  (2%nat, [1; 2]%nat, sp) ∈ generated (events_of (main argv) w) ∧
  configured (events_of (main argv) w) = [(sp, Ok sp)].
Proof.
  intros X argv w sp.
  assert (H : (2%nat, [1; 2]%nat, sp) ∈ generated (events_of (main argv) w))
    by (vm_compute; apply list_elem_of_here).
  split; [exact H|].
  exact (proj1 (sampling_params_from_cli argv w _ _ _ H)).
Defined.


(** The output directory is there already: the run goes on, and no
    directory is added. *)
Example existing_output_dir_accepted :
  let X := healthy in
  let argv := cli "out" (Some "geo3k") in
  let w := start_in X 0%nat "out" in
  outcome (main argv) w = Ok tt ∧
  dirs (final (main argv) w) = dirs w.
Proof.
  intros X argv w. split; [vm_compute; reflexivity|].
  destruct (main_spec argv w) as (_ & _ & _ & Hex & _).
  apply Hex. by apply elem_of_singleton.
Qed.

Lemma unrecognised_names_ignored_witness :
  let X := healthy in
  let argv := cli "out" (Some "geo3k,nosuch") in
  let w := start X 0%nat in
  "nosuch" ∈ datasets_to_eval (parse_arguments argv) ∧
  recognized "nosuch" = false ∧
  "nosuch" ∉ prepared (events_of (main argv) w).
Proof.
  intros X argv w.
  assert (H : "nosuch" ∈ datasets_to_eval (parse_arguments argv))
    by (vm_compute; apply list_elem_of_further, list_elem_of_here).
  split; [exact H|]. split; [reflexivity|].
  exact (proj1 (proj2 (unrecognised_names_ignored argv w "nosuch" H eq_refl))).
Defined.

End Runs.

(** * Further properties of the driver *)

(** ** The request string *)

Lemma str_split_nonempty sep s : str_split sep s ≠ [].
Proof.
  destruct s as [|c s]; simpl; [done|].
  destruct (Ascii.eqb c sep); [done|]. by destruct (str_split sep s).
Qed.

Lemma str_split_join sep s :
  String.concat (String sep "") (str_split sep s) = s.
Proof.
  induction s as [|c s IH]; simpl; [done|].
  destruct (Ascii.eqb_spec c sep) as [->|Hne].
  - pose proof (str_split_nonempty sep s) as Hn.
    destruct (str_split sep s) as [|h t]; [done|].
    change (String.concat (String sep "") ("" :: h :: t))
      with (String sep (String.concat (String sep "") (h :: t))).
    by rewrite IH.
  - pose proof (str_split_nonempty sep s) as Hn.
    destruct (str_split sep s) as [|h [|h' t]]; [done|..].
    + simpl in *. by rewrite IH.
    + change (String.concat (String sep "") (String c h :: h' :: t))
        with (String c (String.concat (String sep "") (h :: h' :: t))).
      by rewrite IH.
Qed.

Lemma str_split_pieces sep s :
  Forall (fun piece => count_char sep piece = 0) (str_split sep s).
Proof.
  induction s as [|c s IH]; simpl; [by repeat constructor|].
  destruct (Ascii.eqb c sep) eqn:E; [by constructor|].
  destruct (str_split sep s) as [|h t]; simpl.
  - repeat constructor. simpl. by rewrite E.
  - apply Forall_cons in IH as [Hh Ht]. constructor; [|done].
    simpl. by rewrite E.
Qed.

Lemma str_split_length sep s :
  length (str_split sep s) = S (count_char sep s).
Proof.
  induction s as [|c s IH]; simpl; [done|].
  destruct (Ascii.eqb c sep); simpl; [by rewrite IH|].
  rewrite <- IH. by destruct (str_split sep s).
Qed.

(** X1: splitting the [--datasets] string on commas loses nothing.
    Unless the string is [all], joining the requested names with commas
    gives it back, and there is one name more than it has commas; no
    requested name contains a comma; and the request is never empty (the
    empty string requests the one name [""]). *)
Theorem request_split_join args :
  (datasets args ≠ "all" →
   String.concat "," (datasets_to_eval args) = datasets args ∧
   length (datasets_to_eval args) = S (count_char "," (datasets args))) ∧
  Forall (fun name => count_char "," name = 0) (datasets_to_eval args) ∧
  datasets_to_eval args ≠ [].
Proof.
  unfold datasets_to_eval.
  destruct (String.eqb_spec (datasets args) "all") as [Hall|Hne]; simpl.
  - split; [done|]. split; [|done]. by repeat constructor.
  - split; [|split].
    + intros _. split; [apply str_split_join|apply str_split_length].
    + apply str_split_pieces.
    + apply str_split_nonempty.
Qed.

(** ** The report *)

Lemma vars_inj (a a' : Args) : vars a = vars a' → a = a'.
Proof.
  destruct a, a'. unfold vars. simpl. intros H.
  injection H as -> -> -> -> -> -> -> -> -> -> -> -> -> ->. reflexivity.
Qed.

(** X2: a report identifies the run that wrote it.  Two reports that are
    equal as dicts carry the same results and the same metrics and were
    written under the same configuration, argument by argument:
    [vars(args)] keeps every attribute of the namespace. *)
Theorem report_determines_run `{X : Externals} (a a' : Args)
    (rs rs' : list Result) (m m' : Metrics) :
  output_dict_of a rs m = output_dict_of a' rs' m' →
  a = a' ∧ rs = rs' ∧ m = m'.
Proof.
  unfold output_dict_of. intros H.
  assert (Hv : vars a = vars a') by congruence.
  apply vars_inj in Hv. split_and!; congruence.
Qed.

(** ** Exact traces *)

Section ExactRuns.
Context {X : Externals}.
Implicit Types (w : World X) (evs : list (event X)).

Lemma replay_app p c evs1 evs2 :
  replay p c (evs1 ++ evs2) = replay p (replay p c evs1) evs2.
Proof. apply foldl_app. Qed.

Lemma replay_prints p c lines : replay p c (map EvPrint lines) = c.
Proof.
  unfold replay. induction lines as [|l lines IH]; simpl; [done|]. exact IH.
Qed.

Lemma replay_iteration_events p c args llm sp d samples ps ms outs rs m x :
  replay p c (iteration_events args llm sp d samples ps ms outs rs m x) =
  if String.eqb (report_path args d) p
  then Some (FileJson (output_dict_of args rs m)) else c.
Proof.
  unfold iteration_events. rewrite !replay_app, replay_prints.
  generalize (report_path args d). intros q. unfold replay. simpl.
  by destruct (String.eqb q p).
Qed.

Lemma load_trace_replay args names all r evs p c :
  load_trace args names all r evs → replay p c evs = c.
Proof. induction 1; simpl; auto. Qed.

Lemma dict_set_not_nil {V} k (v : V) d : dict_set k v d ≠ [].
Proof. destruct d as [|[k' v'] d]; simpl; [done|]. by destruct (String.eqb k k'). Qed.

Lemma load_trace_empty args names all all' evs :
  load_trace args names all (Ok all') evs → all' = [] → evs = [] ∧ all = [].
Proof.
  remember (Ok all') as r eqn:Hr. intros H. revert all' Hr.
  induction H as [all|name names all r evs Hld _ IH
                 |name names all ld samples r evs Hld _ IH
                 |name names all ld e Hld]; intros all' Hr Hnil.
  - injection Hr as ->. done.
  - eauto.
  - destruct (IH _ Hr Hnil) as [_ Hset]. by apply dict_set_not_nil in Hset.
  - discriminate Hr.
Qed.

Lemma load_datasets_exact args names all w r w' :
  load_datasets args names all w = (r, w') →
  ∃ evs,
    trace w' = trace w ++ evs ∧ dirs w' = dirs w ∧ files w' = files w ∧
    load_trace args names all r evs.
Proof.
  revert all w. induction names as [|name names IH]; intros all w; simpl.
  - intros [= <- <-]. exists []. rewrite app_nil_r. split_and!; try done.
    constructor.
  - unfold bind. rewrite load_dataset_unfold.
    destruct (loader_of name) as [ld|] eqn:Hld; simpl.
    + destruct (load_branch args name ld (loader_label ld) all w)
        as [[all1|e] w1] eqn:Hb;
        apply load_branch_run in Hb
          as (Hd & Hf & [(samples & Hr & Ht)|(e' & Hr & Ht)]);
        try discriminate Hr.
      * injection Hr as ->. intros Hrest.
        apply IH in Hrest as (evs & Ht' & Hd' & Hf' & Hlt).
        exists (EvLoad ld (data_path args) (Ok samples) ::
                EvPrint (loaded_line (length samples) ld) :: evs).
        split_and!.
        -- rewrite Ht', Ht, <- app_assoc. done.
        -- congruence.
        -- congruence.
        -- by constructor.
      * injection Hr as ->. intros [= <- <-].
        exists [EvLoad ld (data_path args) (Raise e')].
        split_and!; try done. by constructor.
    + intros Hrest. apply IH in Hrest as (evs & Ht' & Hd' & Hf' & Hlt).
      exists evs. split_and!; try done. by constructor.
Qed.

Ltac iteration_fails :=
  intros [= <- <-]; simpl; rewrite <- ?app_assoc; simpl;
  eexists; split; [reflexivity|]; split; [reflexivity|]; split;
  [ intros p; unfold replay; simpl;
    try (match goal with
         | |- context [String.eqb ?q p] =>
             destruct (String.eqb_spec q p) as [->|?]
         end;
         rewrite ?lookup_insert_eq, ?lookup_insert_ne by done);
    reflexivity
  | subst; econstructor; first [eassumption | reflexivity | by intros []] ].

(** One iteration, event by event. *)
Lemma evaluate_dataset_exact args llm sp ar d samples w r w' :
  evaluate_dataset args llm sp ar (d, samples) w = (r, w') →
  ∃ evs,
    trace w' = trace w ++ evs ∧ dirs w' = dirs w ∧
    (∀ p, files w' !! p = replay p (files w !! p) evs) ∧
    match r with
    | Ok ar' =>
        ∃ ps ms outs rs m x,
          evs = iteration_events args llm sp d samples ps ms outs rs m x ∧
          good_metrics m x ∧ ar' = dict_set d rs ar
    | Raise e => failed_iteration args llm sp d samples e evs
    end.
Proof.
  unfold evaluate_dataset, write_json, bind, call, lift, print, ret, raise, log,
    set_file, format_num, items_of.
  remember (report_path args d) as q eqn:Hq.
  destruct w as [s ds fs tr]. simpl.
  destruct (ext_prepare_prompts d samples args s) as [[[ps ms]|e0] s1]; simpl;
    [|iteration_fails].
  destruct (ext_generate llm ps sp s1) as [[outs|e0] s2]; simpl;
    [|iteration_fails].
  destruct (ext_process_outputs outs ms (eval_threads args) s2) as [[rs|e0] s3];
    simpl; [|iteration_fails].
  destruct (ext_calculate_metrics rs s3) as [[m|e0] s4]; simpl;
    [|iteration_fails].
  destruct (ext_open_w q s4) as [[[]|e0] s5]; simpl; [|iteration_fails].
  destruct (json_dump_close q (output_dict_of args rs m) s5)
    as [[[]|e0] s6]; simpl; [|iteration_fails].
  unfold dict_getitem, dict_has.
  destruct (dict_get "accuracy" m) as [[x|?|?|]|] eqn:Hacc; simpl;
    [|iteration_fails..].
  destruct (dict_get "sub_accuracies" m) as [[y|sub|?|]|] eqn:Hsub; simpl;
    [iteration_fails| |iteration_fails|iteration_fails|].
  - rewrite print_sub_accuracies_run. simpl. intros [= <- <-]. simpl.
    exists (iteration_events args llm sp d samples ps ms outs rs m x).
    split_and!.
    + unfold iteration_events, summary_lines, sub_accuracy_lines.
      rewrite Hsub, <- Hq, <- !app_assoc. simpl. do 10 f_equal.
      by rewrite map_map.
    + done.
    + intros p. rewrite replay_iteration_events, <- Hq.
      destruct (String.eqb_spec q p) as [->|?];
        by rewrite ?lookup_insert_eq, ?lookup_insert_ne.
    + exists ps, ms, outs, rs, m, x. split_and!; try done.
      split; [done|]. intros v. rewrite Hsub. by intros [= <-].
  - intros [= <- <-]. simpl.
    exists (iteration_events args llm sp d samples ps ms outs rs m x).
    split_and!.
    + unfold iteration_events, summary_lines, sub_accuracy_lines.
      rewrite Hsub, <- Hq, <- !app_assoc. done.
    + done.
    + intros p. rewrite replay_iteration_events, <- Hq.
      destruct (String.eqb_spec q p) as [->|?];
        by rewrite ?lookup_insert_eq, ?lookup_insert_ne.
    + exists ps, ms, outs, rs, m, x. split_and!; try done.
      split; [done|]. intros v. rewrite Hsub. by intros [= <-].
Qed.

(** The evaluation loop, event by event. *)
Lemma evaluate_all_exact args llm sp items ar w r w' :
  evaluate_all args llm sp ar items w = (r, w') →
  ∃ evs,
    trace w' = trace w ++ evs ∧ dirs w' = dirs w ∧
    eval_run args llm sp items (exn_of r) evs ∧
    (∀ p, files w' !! p = replay p (files w !! p) evs).
Proof.
  revert ar w. induction items as [|[d samples] items IH]; intros ar w.
  - simpl. intros [= <- <-]. exists []. rewrite app_nil_r.
    split_and!; try done. constructor.
  - intros [(ar1 & w1 & Hit & Hrest)|(e & Hit & ->)]%evaluate_all_step.
    + apply evaluate_dataset_exact in Hit
        as (evs1 & Ht1 & Hd1 & Hf1 & ps & ms & outs & rs & m & x & -> & Hm & _).
      apply IH in Hrest as (evs & Ht & Hd & Her & Hf).
      exists (iteration_events args llm sp d samples ps ms outs rs m x ++ evs).
      split_and!.
      * by rewrite Ht, Ht1, <- app_assoc.
      * congruence.
      * by constructor.
      * intros p. by rewrite replay_app, Hf, Hf1.
    + apply evaluate_dataset_exact in Hit as (evs1 & Ht1 & Hd1 & Hf1 & Hfail).
      exists evs1. split_and!; try done. by constructor.
Qed.

(** [main], event by event. *)
Lemma main_exact_run argv w r w' :
  main argv w = (r, w') →
  let args := parse_arguments argv in
  ∃ rmk levs setup eevs closing,
    trace w' = trace w ++
      EvMakedirs (output_dir args) true rmk ::
      levs ++ setup ++ eevs ++ map EvPrint closing ∧
    run_parts args r rmk levs setup eevs closing ∧
    (∀ p, files w' !! p = replay p (files w !! p) eevs).
Proof.
  intros Hmain args. unfold main in Hmain. fold args in Hmain.
  unfold bind at 1 in Hmain.
  destruct (os_makedirs (output_dir args) true w) as [[[]|e] w0] eqn:Hmk;
    apply os_makedirs_run in Hmk as (Ht0 & Hf0 & _).
  2:{ injection Hmain as <- <-. exists (Raise e), [], [], [], [].
      split; [exact Ht0|]. split; [constructor|]. intros p. by rewrite Hf0. }
  unfold bind at 1 in Hmain.
  destruct (load_datasets args (datasets_to_eval args) [] w0)
    as [[all_samples|e] w1] eqn:Hload;
    apply load_datasets_exact in Hload as (levs & Ht1 & Hd1 & Hf1 & Hlt).
  2:{ injection Hmain as <- <-. exists (Ok tt), levs, [], [], [].
      split; [by rewrite Ht1, Ht0, <- app_assoc, !app_nil_r|].
      split; [by constructor|]. intros p. by rewrite Hf1, Hf0. }
  destruct all_samples as [|item items].
  - injection Hmain as <- <-.
    destruct (load_trace_empty _ _ _ _ _ Hlt eq_refl) as [-> _].
    rewrite app_nil_r in Ht1.
    exists (Ok tt), [], [], [], [no_datasets_notice].
    split; [simpl; by rewrite Ht1, Ht0, <- app_assoc|].
    split; [by constructor|].
    intros p. simpl. by rewrite Hf1, Hf0.
  - assert (Hne : item :: items ≠ []) by done.
    remember (item :: items) as all_samples eqn:Hall in *.
    clear Hall item items. revert Hmain.
    unfold bind, print, call, log. simpl.
    destruct (ext_LLM (llm_args args) (ext w1)) as [[llm|e] s2]; simpl.
    2:{ intros [= <- <-]. simpl.
        exists (Ok tt), levs,
          [EvPrint (initializing_line args); EvLLM (llm_args args) (Raise e)],
          [], [].
        split; [rewrite Ht1, Ht0, <- !app_assoc; done|].
        split; [by econstructor|].
        intros p. simpl. by rewrite Hf1, Hf0. }
    destruct (ext_SamplingParams (sampling_args args) s2) as [[sp|e] s3]; simpl.
    2:{ intros [= <- <-]. simpl.
        exists (Ok tt), levs,
          [EvPrint (initializing_line args); EvLLM (llm_args args) (Ok llm);
           EvSamplingParams (sampling_args args) (Raise e)],
          [], [].
        split; [rewrite Ht1, Ht0, <- !app_assoc; done|].
        split; [by econstructor|].
        intros p. simpl. by rewrite Hf1, Hf0. }
    match goal with
    | |- context [evaluate_all args llm sp ?ar all_samples ?w2] =>
        destruct (evaluate_all args llm sp ar all_samples w2)
          as [r2 w3] eqn:Hev
    end.
    apply evaluate_all_exact in Hev as (eevs & Ht3 & Hd3 & Her & Hf3).
    simpl in Ht3, Hd3, Hf3.
    destruct r2 as [ar'|e]; intros [= <- <-]; simpl.
    + exists (Ok tt), levs,
        [EvPrint (initializing_line args); EvLLM (llm_args args) (Ok llm);
         EvSamplingParams (sampling_args args) (Ok sp)],
        eevs, [saved_line args].
      split; [rewrite Ht3, Ht1, Ht0, <- !app_assoc; done|].
      split; [by econstructor|].
      intros p. by rewrite Hf3, Hf1, Hf0.
    + exists (Ok tt), levs,
        [EvPrint (initializing_line args); EvLLM (llm_args args) (Ok llm);
         EvSamplingParams (sampling_args args) (Ok sp)],
        eevs, [].
      split; [rewrite Ht3, Ht1, Ht0, <- !app_assoc, !app_nil_r; done|].
      split; [by econstructor|].
      intros p. by rewrite Hf3, Hf1, Hf0.
Qed.

End ExactRuns.

(** ** The parts of a run *)

Section Parts.
Context {X : Externals}.
Implicit Types (w : World X) (evs : list (event X)) (e : event X).

Lemma load_trace_loading args names all r evs :
  load_trace args names all r evs → Forall loading_event evs.
Proof. induction 1; repeat constructor; done. Qed.

Lemma iteration_events_split args llm sp d samples ps ms outs rs m x :
  iteration_events args llm sp d samples ps ms outs rs m x =
  pipeline_calls args llm sp d samples ps ms outs rs m ++
  map EvPrint (summary_lines d rs m x ++ [""]).
Proof. unfold iteration_events. by rewrite map_app. Qed.

Lemma failed_iteration_evaluating args llm sp d samples ex tail :
  failed_iteration args llm sp d samples ex tail → Forall evaluating_event tail.
Proof. destruct 1; repeat constructor. Qed.

Lemma eval_run_evaluating args llm sp items o evs :
  eval_run args llm sp items o evs → Forall evaluating_event evs.
Proof.
  induction 1 as [|d samples items ps ms outs rs m x o evs _ _ IH
                  |d samples items ex tail Hf].
  - constructor.
  - apply Forall_app. split; [|done]. rewrite iteration_events_split.
    apply Forall_app. split; [repeat constructor|].
    apply Forall_fmap, Forall_true. done.
  - by eapply failed_iteration_evaluating.
Qed.

Lemma run_parts_shape args r rmk levs setup eevs closing :
  run_parts args r rmk levs setup eevs closing →
  Forall loading_event levs ∧ Forall setup_event setup ∧
  Forall evaluating_event eevs ∧ ("" ∉ closing).
Proof.
  destruct 1; split_and!;
    try (by repeat constructor);
    try (by eapply load_trace_loading);
    try (by eapply eval_run_evaluating);
    try apply not_elem_of_nil;
    by (apply not_elem_of_cons; split; [done|apply not_elem_of_nil]).
Qed.

(** [main] in terms of the parts of its trace. *)
Lemma main_exact argv w :
  let args := parse_arguments argv in
  let evs := events_of (main argv) w in
  let w' := final (main argv) w in
  ∃ rmk levs setup eevs closing,
    evs = EvMakedirs (output_dir args) true rmk ::
          levs ++ setup ++ eevs ++ map EvPrint closing ∧
    run_parts args (outcome (main argv) w) rmk levs setup eevs closing ∧
    (∀ p, files w' !! p = replay p (files w !! p) eevs) ∧
    (Forall loading_event levs ∧ Forall setup_event setup ∧
     Forall evaluating_event eevs ∧ "" ∉ closing) ∧
    (loads evs = loads levs ∧
     constructed evs = constructed setup ∧
     configured evs = configured setup ∧
     prepared evs = prepared eevs ∧
     opened evs = opened eevs ∧
     dumped evs = dumped eevs ∧
     written evs = written eevs ∧
     generated evs = generated eevs ∧
     completed evs = completed eevs).
Proof.
  unfold events_of, outcome, final.
  destruct (main argv w) as [r w'] eqn:Hmain. simpl.
  apply main_exact_run in Hmain
    as (rmk & levs & setup & eevs & closing & Ht & Hparts & Hf).
  exists rmk, levs, setup, eevs, closing.
  rewrite Ht, drop_app_length.
  destruct (run_parts_shape _ _ _ _ _ _ _ Hparts) as (? & ? & ? & ?).
  split; [done|]. split; [done|]. split; [done|]. split; [done|].
  by apply segments_obs.
Qed.

(** A call of the evaluation loop is among the events of that loop. *)
Lemma pipeline_event_eval path rmk levs setup eevs closing e :
  Forall loading_event levs → Forall setup_event setup →
  e ∈ EvMakedirs path true rmk :: levs ++ setup ++ eevs ++ map EvPrint closing →
  pipeline_event e → e ∈ eevs.
Proof.
  intros Hl Hs Hin He.
  apply elem_of_cons in Hin as [->|Hin]; [done|].
  apply elem_of_app in Hin as [Hin|Hin].
  { eapply Forall_forall in Hl; [|exact Hin]. by destruct e. }
  apply elem_of_app in Hin as [Hin|Hin].
  { eapply Forall_forall in Hs; [|exact Hin]. by destruct e. }
  apply elem_of_app in Hin as [Hin|Hin]; [done|].
  apply list_elem_of_fmap in Hin as (line & -> & _). done.
Qed.

End Parts.

(** ** Further properties of a run *)

Section Further.
Context {X : Externals}.
Implicit Types (w : World X) (evs : list (event X)) (e : event X).

Lemma load_trace_calls args names all r evs :
  load_trace args names all r evs → Forall (call_of args) evs.
Proof. induction 1; repeat constructor; done. Qed.

Lemma failed_iteration_calls args llm sp d samples ex tail :
  failed_iteration args llm sp d samples ex tail → Forall (call_of args) tail.
Proof. destruct 1; repeat constructor. Qed.

Lemma eval_run_calls args llm sp items o evs :
  eval_run args llm sp items o evs → Forall (call_of args) evs.
Proof.
  induction 1 as [|d samples items ps ms outs rs m x o evs _ _ IH
                  |d samples items ex tail Hf].
  - constructor.
  - apply Forall_app. split; [|done]. rewrite iteration_events_split.
    apply Forall_app. split; [repeat constructor|].
    apply Forall_fmap, Forall_true. done.
  - by eapply failed_iteration_calls.
Qed.

(** X3: every call of a run receives what the command line says, an
    omitted option counting with the default [parse_arguments] declares
    for it.  [makedirs] is called on [--output-dir] with [exist_ok=True];
    every loader on [--data-path] (default [NoisyRollout/eval/data]);
    the engine constructor with [--model], [--tensor-parallel-size]
    (default 2), [--max-model-len] (default 8192), [bfloat16] and a GPU
    memory share of 0.7; the sampling constructor with [--temperature]
    (default 0.0), [--top-p] (default 0.95), [--max-tokens] (default
    2048) and [--repetition-penalty] (default 1.0); [prepare_prompts]
    with the whole namespace, where [--min-pixels] (default 262144),
    [--max-pixels] (default 1000000) and [--system-prompt] are; and
    [process_outputs] with [--eval-threads] (default 32). *)
#[warnings="-inexact-float"]
Theorem options_reach_calls argv w :
  let args := parse_arguments argv in
  Forall (call_of args) (events_of (main argv) w) ∧
  output_dir args = cli_output_dir argv ∧
  data_path args = default "NoisyRollout/eval/data" (cli_data_path argv) ∧
  llm_args args =
    {| llm_model := cli_model argv;
       llm_tensor_parallel_size := default 2%Z (cli_tensor_parallel_size argv);
       llm_dtype := bfloat16;
       llm_gpu_memory_utilization := 0.7%float;
       llm_max_model_len := default 8192%Z (cli_max_model_len argv) |} ∧
  sampling_args args =
    {| sp_temperature := default 0.0%float (cli_temperature argv);
       sp_top_p := default 0.95%float (cli_top_p argv);
       sp_max_tokens := default 2048%Z (cli_max_tokens argv);
       sp_repetition_penalty :=
         default 1.0%float (cli_repetition_penalty argv) |} ∧
  min_pixels args = default 262144%Z (cli_min_pixels argv) ∧
  max_pixels args = default 1000000%Z (cli_max_pixels argv) ∧
  system_prompt args = default default_system_prompt (cli_system_prompt argv) ∧
  eval_threads args = default 32%Z (cli_eval_threads argv).
Proof.
  intros args. split; [|by split_and!].
  destruct (main_exact argv w)
    as (rmk & levs & setup & eevs & closing & -> & Hparts & _).
  fold args in Hparts |- *.
  constructor; [done|].
  assert (Hc : Forall (call_of args) (map EvPrint closing))
    by (apply Forall_fmap, Forall_true; done).
  destruct Hparts; rewrite ?Forall_app; split_and?;
    try (by repeat constructor);
    try (by eapply load_trace_calls);
    by eapply eval_run_calls.
Qed.

Lemma raised_app evs1 evs2 : raised (evs1 ++ evs2) = raised evs1 ++ raised evs2.
Proof. apply omap_app. Qed.

Lemma raised_prints lines : raised (map EvPrint lines) = [].
Proof. by apply omap_prints. Qed.

Lemma raised_last_app ex evs1 evs2 :
  raised evs1 = [] → raised_last ex evs2 → raised_last ex (evs1 ++ evs2).
Proof.
  intros H1 (pre & e & -> & He & Hpre). exists (evs1 ++ pre), e.
  split; [by rewrite app_assoc|]. split; [done|].
  by rewrite raised_app, H1, Hpre.
Qed.

Lemma raised_last_nil_r ex evs : raised_last ex evs → raised_last ex (evs ++ []).
Proof. by rewrite app_nil_r. Qed.

Ltac last_raised :=
  match goal with
  | |- raised_last _ [?a] => exists [], a
  | |- raised_last _ [?a; ?b] => exists [a], b
  | |- raised_last _ [?a; ?b; ?c] => exists [a; b], c
  | |- raised_last _ [?a; ?b; ?c; ?d] => exists [a; b; c], d
  | |- raised_last _ [?a; ?b; ?c; ?d; ?e] => exists [a; b; c; d], e
  | |- raised_last _ [?a; ?b; ?c; ?d; ?e; ?f] => exists [a; b; c; d; e], f
  end; by split_and!.

Lemma load_trace_raised args names all r evs :
  load_trace args names all r evs →
  match r with
  | Ok _ => raised evs = []
  | Raise ex => raised_last ex evs
  end.
Proof.
  induction 1 as [all|name names all r evs Hld _ IH
                 |name names all ld samples r evs Hld _ IH
                 |name names all ld ex Hld].
  - done.
  - done.
  - destruct r as [all'|ex]; [done|].
    by apply (raised_last_app ex [_; _]).
  - last_raised.
Qed.

Lemma raised_iteration_events args llm sp d samples ps ms outs rs m x :
  raised (iteration_events args llm sp d samples ps ms outs rs m x) = [].
Proof.
  rewrite iteration_events_split, raised_app, raised_prints. done.
Qed.



(** An iteration that raises: a call raised, last, or all six calls
    returned and the reading of the metrics raised. *)
Lemma failed_iteration_summary args llm sp d samples ex tail :
  failed_iteration args llm sp d samples ex tail →
  raised_last ex tail ∨
  (raised tail = [] ∧
   ∃ ps ms outs rs m,
     tail = pipeline_calls args llm sp d samples ps ms outs rs m ++
            map EvPrint (partial_summary d rs m) ∧
     summary_error m = Some ex).
Proof.
  destruct 1 as [e|e ps ms|e ps ms outs|e ps ms outs rs|e ps ms outs rs m
                |e ps ms outs rs m|ps ms outs rs m Hacc
                |ps ms outs rs m v e Hacc Hfmt|ps ms outs rs m x v Hacc Hsub Hv];
    try (left; last_raised); right; (split; [done|]);
    exists ps, ms, outs, rs, m;
    unfold summary_error, partial_summary; rewrite Hacc; simpl.
  - done.
  - split; [|by destruct v]. by destruct v.
  - rewrite Hsub. split; [done|]. by destruct v.
Qed.



Lemma raised_run path levs setup eevs closing :
  raised (EvMakedirs path true (Ok tt) ::
          levs ++ setup ++ eevs ++ map EvPrint closing) =
  raised levs ++ raised setup ++ raised eevs.
Proof.
  change (EvMakedirs path true (Ok tt) ::
          levs ++ setup ++ eevs ++ map EvPrint closing)
    with ([EvMakedirs path true (Ok tt)] ++
          levs ++ setup ++ eevs ++ map EvPrint closing).
  by rewrite !raised_app, raised_prints, app_nil_r.
Qed.



(** *** Where an event of the evaluation loop stands *)

Lemma eval_run_elem args llm sp items o evs e :
  eval_run args llm sp items o evs → e ∈ evs →
  ∃ before d samples after pre,
    items = before ++ (d, samples) :: after ∧
    eval_run args llm sp before None pre ∧
    ((∃ ps ms outs rs m x post,
        good_metrics m x ∧
        e ∈ iteration_events args llm sp d samples ps ms outs rs m x ∧
        evs = pre ++ iteration_events args llm sp d samples ps ms outs rs m x
                  ++ post ∧
        eval_run args llm sp after o post) ∨
     (∃ ex tail,
        o = Some ex ∧ failed_iteration args llm sp d samples ex tail ∧
        e ∈ tail ∧ evs = pre ++ tail)).
Proof.
  induction 1 as [|d samples items ps ms outs rs m x o evs Hm Her IH
                  |d samples items ex tail Hf]; intros Hin.
  - by apply elem_of_nil in Hin.
  - apply elem_of_app in Hin as [Hin|Hin].
    + exists [], d, samples, items, []. split; [done|]. split; [constructor|].
      left. exists ps, ms, outs, rs, m, x, evs. by split_and!.
    + destruct (IH Hin)
        as (before & d' & samples' & after & pre & -> & Hpre & Hcase).
      exists ((d, samples) :: before), d', samples', after,
        (iteration_events args llm sp d samples ps ms outs rs m x ++ pre).
      split; [done|]. split; [by constructor|].
      destruct Hcase
        as [(ps' & ms' & outs' & rs' & m' & x' & post & ? & ? & -> & ?)
           |(ex & tail & ? & ? & ? & ->)].
      * left. exists ps', ms', outs', rs', m', x', post.
        split_and!; try done. by rewrite <- app_assoc.
      * right. exists ex, tail. split_and!; try done. by rewrite <- app_assoc.
  - exists [], d, samples, items, []. split; [done|]. split; [constructor|].
    right. exists ex, tail. by split_and!.
Qed.

Lemma eval_run_replay_other args llm sp items o evs p c :
  eval_run args llm sp items o evs →
  (∀ d, d ∈ dict_keys items → report_path args d ≠ p) →
  replay p c evs = c.
Proof.
  intros H. revert c.
  induction H as [|d samples items ps ms outs rs m x o evs Hm Her IH
                  |d samples items ex tail Hf]; intros c Hne.
  - done.
  - rewrite replay_app, replay_iteration_events.
    assert (Hd : report_path args d ≠ p) by (apply Hne, list_elem_of_here).
    apply String.eqb_neq in Hd. rewrite Hd. apply IH.
    intros d' Hd'. by apply Hne, list_elem_of_further.
  - assert (Hd : report_path args d ≠ p) by (apply Hne, list_elem_of_here).
    apply String.eqb_neq in Hd.
    destruct Hf; unfold replay, pipeline_calls;
      cbn [foldl replay_event app]; by rewrite ?Hd.
Qed.

Lemma load_trace_keys args names all all' evs :
  load_trace args names all (Ok all') evs →
  dict_keys all' =
    dict_keys all ++
    first_occurrences (dict_keys all)
      (filter (fun n => recognized n = true) names).
Proof.
  remember (Ok all') as r eqn:Hr. intros H. revert all' Hr.
  induction H as [all|name names all r evs Hld _ IH
                 |name names all ld samples r evs Hld _ IH
                 |name names all ld e Hld]; intros all' Hr.
  - injection Hr as ->. simpl. by rewrite app_nil_r.
  - rewrite filter_cons_False by (unfold recognized; by rewrite Hld). auto.
  - rewrite (IH _ Hr), dict_keys_set.
    rewrite filter_cons_True by (unfold recognized; by rewrite Hld).
    simpl. case_bool_decide; [done|]. by rewrite <- app_assoc.
  - discriminate Hr.
Qed.

Lemma loaded_samples args all_samples levs :
  load_trace args (datasets_to_eval args) [] (Ok all_samples) levs →
  dict_keys all_samples = selection args ∧
  NoDup (dict_keys all_samples) ∧
  Forall (fun d => recognized d = true) (dict_keys all_samples).
Proof.
  intros Hk%load_trace_keys. simpl in Hk. fold (selection args) in Hk.
  rewrite Hk. split; [done|]. apply selection_keys.
Qed.

(** *** Which samples are evaluated *)

Lemma loaded_by_cons_ok ld ld' p samples evs :
  loaded_by ld' (EvLoad ld p (Ok samples) :: evs) =
  (if decide (ld = ld') then [samples] else []) ++ loaded_by ld' evs.
Proof. unfold loaded_by. csimpl. by destruct (decide (ld = ld')). Qed.

Lemma load_trace_last args names all all' evs :
  load_trace args names all (Ok all') evs →
  ∀ d v, dict_get d all' = Some v →
    (∃ ld, loader_of d = Some ld ∧ last (loaded_by ld evs) = Some v) ∨
    (dict_get d all = Some v ∧
     ∀ ld, loader_of d = Some ld → loaded_by ld evs = []).
Proof.
  remember (Ok all') as r eqn:Hr. intros H. revert all' Hr.
  induction H as [all|name names all r evs Hld _ IH
                 |name names all ld samples r evs Hld _ IH
                 |name names all ld e Hld]; intros all' Hr d v Hget.
  - injection Hr as ->. by right.
  - eauto.
  - destruct (IH _ Hr _ _ Hget) as [(ld' & Hld' & Hlast)|[Hget' Hnone]].
    + left. exists ld'. split; [done|].
      rewrite loaded_by_cons_ok, last_app.
      change (loaded_by ld' (EvPrint (loaded_line (length samples) ld) :: evs))
        with (loaded_by ld' evs).
      by rewrite Hlast.
    + destruct (decide (name = d)) as [->|Hne].
      * rewrite dict_get_set_eq in Hget'. injection Hget' as ->.
        left. exists ld. split; [done|].
        rewrite loaded_by_cons_ok, decide_True by done.
        change (loaded_by ld (EvPrint (loaded_line (length v) ld) :: evs))
          with (loaded_by ld evs).
        by rewrite (Hnone _ Hld).
      * rewrite dict_get_set_ne in Hget' by done. right. split; [done|].
        intros ld' Hld'. rewrite loaded_by_cons_ok, decide_False.
        -- change (loaded_by ld' (EvPrint (loaded_line (length samples) ld) :: evs))
             with (loaded_by ld' evs). by apply Hnone.
        -- intros ->. apply Hne. by eapply loader_of_inj.
  - discriminate Hr.
Qed.

Lemma loaded_by_no_loads ld evs : loads evs = [] → loaded_by ld evs = [].
Proof.
  unfold loads, loaded_by. induction evs as [|e evs IH]; [done|].
  destruct e; csimpl; try done; auto.
Qed.

Lemma loaded_by_run ld path rmk levs setup eevs closing :
  Forall setup_event setup → Forall evaluating_event eevs →
  loaded_by ld (EvMakedirs path true rmk ::
                levs ++ setup ++ eevs ++ map EvPrint closing) =
  loaded_by ld levs.
Proof.
  intros Hs He.
  destruct (setup_events_obs _ Hs) as (Sl & _).
  destruct (evaluating_events_obs _ He) as (El & _).
  change (loaded_by ld (EvMakedirs path true rmk ::
                        levs ++ setup ++ eevs ++ map EvPrint closing))
    with (loaded_by ld (levs ++ setup ++ eevs ++ map EvPrint closing)).
  unfold loaded_by. rewrite !omap_app.
  fold (loaded_by ld setup) (loaded_by ld eevs).
  rewrite (loaded_by_no_loads _ _ Sl), (loaded_by_no_loads _ _ El).
  rewrite omap_prints by done. by rewrite !app_nil_r.
Qed.

Lemma iteration_events_prepare args llm sp d0 s0 ps ms outs rs m x d s a r :
  EvPreparePrompts d s a r ∈
    iteration_events args llm sp d0 s0 ps ms outs rs m x →
  d = d0 ∧ s = s0 ∧ a = args.
Proof.
  rewrite iteration_events_split. unfold pipeline_calls.
  rewrite elem_of_app, !elem_of_cons, elem_of_nil, list_elem_of_fmap.
  intros [[H|[H|[H|[H|[H|[H|[]]]]]]]|(line & H & _)]; try discriminate H.
  by injection H as -> -> -> _.
Qed.

Lemma failed_iteration_prepare args llm sp d0 s0 ex tail d s a r :
  failed_iteration args llm sp d0 s0 ex tail →
  EvPreparePrompts d s a r ∈ tail →
  d = d0 ∧ s = s0 ∧ a = args.
Proof.
  destruct 1; unfold pipeline_calls; simpl;
    rewrite !elem_of_cons, elem_of_nil; intros Hin;
    repeat (destruct Hin as [Hin|Hin]; [try discriminate Hin|]); try done;
    by injection Hin as -> -> -> _.
Qed.

(** X4: a dataset named more than once in [--datasets] is loaded once
    per occurrence, and the samples that are evaluated are those of the
    last load: [all_samples[name] = loader(...)] replaces what an earlier
    occurrence stored.  Every [prepare_prompts] call is made for a
    recognised dataset, on the list its loader returned last. *)
Theorem last_load_is_evaluated argv w d samples a r :
  let evs := events_of (main argv) w in
  EvPreparePrompts d samples a r ∈ evs →
  ∃ ld, loader_of d = Some ld ∧ last (loaded_by ld evs) = Some samples.
Proof.
  intros evs Hin.
  destruct (main_exact argv w)
    as (rmk & levs & setup & eevs & closing & Hevs & Hparts & _ & Hshape & _).
  fold evs in Hevs. destruct Hshape as (Hl & Hs & He & _).
  rewrite Hevs in Hin |- *.
  apply pipeline_event_eval in Hin; [|done..].
  assert (∃ all_samples llm sp o,
            load_trace (parse_arguments argv)
              (datasets_to_eval (parse_arguments argv)) [] (Ok all_samples) levs ∧
            eval_run (parse_arguments argv) llm sp all_samples o eevs)
    as (all_samples & llm & sp & o & Hlt & Her).
  { destruct Hparts; try (by apply elem_of_nil in Hin); eauto 10. }
  destruct (loaded_samples _ _ _ Hlt) as (_ & Hnd & _).
  destruct (eval_run_elem _ _ _ _ _ _ _ Her Hin)
    as (before & d0 & s0 & after & pre & Hitems & _ & Hcase).
  assert (d = d0 ∧ samples = s0) as [-> ->].
  { destruct Hcase
      as [(ps' & ms' & outs' & rs' & m' & x' & post & _ & He0 & _)
         |(ex & tail & _ & Hf & He0 & _)].
    - by apply iteration_events_prepare in He0 as (? & ? & _).
    - by eapply failed_iteration_prepare in He0 as (? & ? & _). }
  assert (Hget : dict_get d0 all_samples = Some s0).
  { apply elem_of_dict_get; [done|]. rewrite Hitems.
    apply elem_of_app. right. apply list_elem_of_here. }
  destruct (load_trace_last _ _ _ _ _ Hlt _ _ Hget)
    as [(ld & Hld & Hlast)|[Habs _]]; [|discriminate Habs].
  exists ld. split; [done|]. by rewrite loaded_by_run.
Qed.

(** *** Progress lines *)

Lemma load_trace_follow args names all r evs i ld p samples :
  load_trace args names all r evs →
  evs !! i = Some (EvLoad ld p (Ok samples)) →
  evs !! S i = Some (EvPrint (loaded_line (length samples) ld)).
Proof.
  intros H. revert i.
  induction H as [all|name names all r evs Hld _ IH
                 |name names all ld' samples' r evs Hld _ IH
                 |name names all ld' e Hld]; intros i Hi.
  - done.
  - auto.
  - destruct i as [|[|i]]; simpl in *.
    + by injection Hi as -> _ ->.
    + discriminate Hi.
    + auto.
  - destruct i as [|i]; simpl in Hi; discriminate Hi.
Qed.

(** X5: every loader call that returns is directly followed by its
    progress line, [Loaded <n> samples from <Label>], where [n] is the
    length of the list the loader returned and the label is the one of
    that loader's branch. *)
Theorem progress_line_follows_load argv w i ld p samples :
  let evs := events_of (main argv) w in
  evs !! i = Some (EvLoad ld p (Ok samples)) →
  evs !! S i =
    Some (EvPrint ("Loaded " +:+ pretty (length samples) +:+
                   " samples from " +:+ loader_label ld)).
Proof.
  intros evs Hi.
  change ("Loaded " +:+ pretty (length samples) +:+ " samples from " +:+
          loader_label ld) with (loaded_line (length samples) ld).
  destruct (main_exact argv w)
    as (rmk & levs & setup & eevs & closing & Hevs & Hparts & _ & Hshape & _).
  fold evs in Hevs. destruct Hshape as (Hl & Hs & He & _).
  rewrite Hevs in Hi |- *.
  destruct i as [|i]; [discriminate Hi|]. simpl in Hi. simpl.
  apply lookup_app_Some in Hi as [Hi|[_ Hi]].
  - apply lookup_app_l_Some.
    assert (∃ names all r,
              load_trace (parse_arguments argv) names all r levs)
      as (names & all & r & Hlt).
    { destruct Hparts; try (by destruct i); eauto. }
    by eapply load_trace_follow.
  - apply list_elem_of_lookup_2 in Hi.
    assert (Hin : EvLoad ld p (Ok samples) ∈
              setup ++ eevs ++ map EvPrint closing) by done.
    apply elem_of_app in Hin as [Hin|Hin].
    { eapply Forall_forall in Hs; [|exact Hin]. done. }
    apply elem_of_app in Hin as [Hin|Hin].
    { eapply Forall_forall in He; [|exact Hin]. done. }
    apply list_elem_of_fmap in Hin as (line & Hin & _). discriminate Hin.
Qed.

(** *** Locating a call of the evaluation loop in a run *)

Lemma main_locate argv w e :
  let args := parse_arguments argv in
  let evs := events_of (main argv) w in
  let w' := final (main argv) w in
  e ∈ evs → pipeline_event e →
  ∃ levs llm sp eevs all_samples o before d samples after pre,
    evs = EvMakedirs (output_dir args) true (Ok tt) ::
          levs ++ [EvPrint (initializing_line args);
                   EvLLM (llm_args args) (Ok llm);
                   EvSamplingParams (sampling_args args) (Ok sp)] ++
          eevs ++
          map EvPrint (match o with None => [saved_line args] | Some _ => [] end) ∧
    load_trace args (datasets_to_eval args) [] (Ok all_samples) levs ∧
    eval_run args llm sp all_samples o eevs ∧
    outcome (main argv) w = match o with None => Ok tt | Some ex => Raise ex end ∧
    (∀ p, files w' !! p = replay p (files w !! p) eevs) ∧
    all_samples = before ++ (d, samples) :: after ∧
    eval_run args llm sp before None pre ∧
    ((∃ ps ms outs rs m x post,
        good_metrics m x ∧
        e ∈ iteration_events args llm sp d samples ps ms outs rs m x ∧
        eevs = pre ++ iteration_events args llm sp d samples ps ms outs rs m x
                   ++ post ∧
        eval_run args llm sp after o post) ∨
     (∃ ex tail,
        o = Some ex ∧ failed_iteration args llm sp d samples ex tail ∧
        e ∈ tail ∧ eevs = pre ++ tail)).
Proof.
  intros args evs w' Hin He.
  destruct (main_exact argv w)
    as (rmk & levs & setup & eevs & closing & Hevs & Hparts & Hfiles & Hshape & _).
  fold args evs w' in Hevs, Hparts, Hfiles. destruct Hshape as (Hl & Hs & _).
  rewrite Hevs in Hin. apply pipeline_event_eval in Hin; [|done..].
  destruct Hparts as [ex|ex levs Hlt|Hlt|ex all levs Hlt Hne
                     |ex all levs llm Hlt Hne|ex all levs llm sp eevs Hlt Hne Her
                     |all levs llm sp eevs Hlt Hne Her];
    try (by apply elem_of_nil in Hin).
  - destruct (eval_run_elem _ _ _ _ _ _ _ Her Hin)
      as (before & d & samples & after & pre & Hitems & Hpre & Hcase).
    exists levs, llm, sp, eevs, all, (Some ex), before, d, samples, after, pre.
    by split_and!.
  - destruct (eval_run_elem _ _ _ _ _ _ _ Her Hin)
      as (before & d & samples & after & pre & Hitems & Hpre & Hcase).
    exists levs, llm, sp, eevs, all, None, before, d, samples, after, pre.
    by split_and!.
Qed.

Lemma run_window (mk : event X) levs setup pre mid post tl :
  mk :: levs ++ setup ++ (pre ++ mid ++ post) ++ tl =
  (mk :: levs ++ setup ++ pre) ++ mid ++ (post ++ tl).
Proof. simpl. by rewrite <- !app_assoc. Qed.

Lemma run_window_end (mk : event X) levs setup pre mid :
  mk :: levs ++ setup ++ (pre ++ mid) ++ map EvPrint [] =
  (mk :: levs ++ setup ++ pre) ++ mid.
Proof. simpl. by rewrite app_nil_r, <- !app_assoc. Qed.

Lemma written_elem evs p obj :
  EvJsonDump p obj (Ok tt) ∈ evs → (p, obj) ∈ written evs.
Proof.
  intros Hin. apply list_elem_of_omap. by exists (EvJsonDump p obj (Ok tt)).
Qed.

Lemma report_path_before {V} args (before after : dict V) d (samples : V) :
  NoDup (dict_keys (before ++ (d, samples) :: after)) →
  Forall (fun k => recognized k = true)
    (dict_keys (before ++ (d, samples) :: after)) →
  ∀ k, k ∈ dict_keys before → report_path args k ≠ report_path args d.
Proof.
  unfold dict_keys. rewrite fmap_app. csimpl.
  intros Hnd Hrec k Hk Heq.
  apply Forall_app in Hrec as [Hb Hrec].
  apply Forall_cons in Hrec as [Hd _].
  eapply Forall_forall in Hb; [|exact Hk].
  apply report_path_inj in Heq; [|done..]. subst k.
  apply NoDup_app in Hnd as (_ & Hdis & _).
  apply (Hdis d Hk). apply list_elem_of_here.
Qed.

Ltac in_list H :=
  rewrite ?elem_of_app, ?elem_of_cons, ?elem_of_nil, ?list_elem_of_fmap in H;
  repeat (destruct H as [H|H]); try (destruct H as (? & H & _));
  try discriminate H; try done.

(** *** Failures while writing a report *)

(** X8: a [json.dump] that raises ends the run.  It is the last event,
    [main] raises its exception, and the report file is left incomplete:
    it was truncated when it was opened, so whatever it held before the
    run is lost. *)
Theorem failed_dump_leaves_partial_report argv w p obj ex :
  let evs := events_of (main argv) w in
  let w' := final (main argv) w in
  EvJsonDump p obj (Raise ex) ∈ evs →
  outcome (main argv) w = Raise ex ∧
  last evs = Some (EvJsonDump p obj (Raise ex)) ∧
  files w' !! p = Some FilePartial.
Proof.
  intros evs w' Hin.
  destruct (main_locate argv w _ Hin I)
    as (levs & llm & sp & eevs & all & o & before & d & samples & after & pre
        & Hevs & Hlt & Her & Hout & Hfiles & Hall & Hpre & Hcase).
  fold evs w' in Hevs, Hfiles.
  destruct Hcase
    as [(ps & ms & outs & rs & m & x & post & _ & He & _)
       |(ex0 & tail & -> & Hf & He & Heevs)].
  { rewrite iteration_events_split in He. unfold pipeline_calls in He.
    in_list He. }
  destruct Hf; unfold pipeline_calls in He; in_list He.
  injection He as -> -> ->. split_and!.
  - done.
  - rewrite Hevs, Heevs, run_window_end, last_app. done.
  - rewrite Hfiles, Heevs, replay_app. unfold replay at 1.
    cbn [foldl replay_event]. by rewrite String.eqb_refl.
Qed.

(** X9: an [open] that raises ends the run.  It is the last event,
    [main] raises its exception, and the file is as it was before the
    run: nothing was written to it, and no other dataset of the run
    writes to that path. *)
Theorem failed_open_leaves_file argv w p ex :
  let evs := events_of (main argv) w in
  let w' := final (main argv) w in
  EvOpenW p (Raise ex) ∈ evs →
  outcome (main argv) w = Raise ex ∧
  last evs = Some (EvOpenW p (Raise ex)) ∧
  files w' !! p = files w !! p.
Proof.
  intros evs w' Hin.
  destruct (main_locate argv w _ Hin I)
    as (levs & llm & sp & eevs & all & o & before & d & samples & after & pre
        & Hevs & Hlt & Her & Hout & Hfiles & Hall & Hpre & Hcase).
  fold evs w' in Hevs, Hfiles.
  destruct Hcase
    as [(ps & ms & outs & rs & m & x & post & _ & He & _)
       |(ex0 & tail & -> & Hf & He & Heevs)].
  { rewrite iteration_events_split in He. unfold pipeline_calls in He.
    in_list He. }
  destruct (loaded_samples _ _ _ Hlt) as (_ & Hnd & Hrec).
  rewrite Hall in Hnd, Hrec.
  pose proof (report_path_before (parse_arguments argv) _ _ _ _ Hnd Hrec)
    as Hother.
  destruct Hf; unfold pipeline_calls in He; in_list He.
  injection He as -> ->. split_and!.
  - done.
  - rewrite Hevs, Heevs, run_window_end, last_app. done.
  - rewrite Hfiles, Heevs, replay_app.
    by rewrite (eval_run_replay_other _ _ _ _ _ _ _ _ Hpre Hother).
Qed.

Ltac same_list :=
  unfold pipeline_calls; rewrite <- ?app_assoc; simpl;
  rewrite <- ?app_assoc; reflexivity.

Lemma eval_run_counts args llm sp items o evs :
  eval_run args llm sp items o evs →
  (length (generated evs) ≤ length (prepared evs))%nat ∧
  (o = None → length (generated evs) = length items).
Proof.
  induction 1 as [|d samples items ps ms outs rs m x o evs Hm Her [IH1 IH2]
                  |d samples items ex tail Hf].
  - done.
  - destruct (iteration_events_obs args llm sp d samples ps ms outs rs m x)
      as (Ep & _ & _ & Eg & _).
    unfold generated, prepared in *. rewrite !omap_app, Ep, Eg. simpl.
    split; [lia|]. intros Ho. by rewrite IH2.
  - split; [|done]. destruct Hf; unfold generated, prepared, pipeline_calls;
      csimpl; lia.
Qed.

(** *** The pipeline of an iteration *)

(** X15: every [json.dump] of a run, whether it returns or raises,
    directly follows the five other calls of its own iteration, and what
    it is given is their product: [prepare_prompts] on a dataset, its
    samples and the run's namespace; [generate] on the prompts that
    returned; [process_outputs] on the outputs of that, the metadata of
    [prepare_prompts] and [--eval-threads]; [calculate_metrics] on the
    results of that; and [open] on the dataset's report path.  The dict
    dumped holds those results and those metrics. *)
Theorem dump_follows_pipeline argv w p obj r :
  let args := parse_arguments argv in
  let evs := events_of (main argv) w in
  EvJsonDump p obj r ∈ evs →
  ∃ pre post llm sp d samples ps ms outs rs m,
    p = report_path args d ∧ obj = output_dict_of args rs m ∧
    evs = pre ++
          [ EvPreparePrompts d samples args (Ok (ps, ms));
            EvGenerate llm ps sp (Ok outs);
            EvProcessOutputs outs ms (eval_threads args) (Ok rs);
            EvCalculateMetrics rs (Ok m);
            EvOpenW p (Ok tt);
            EvJsonDump p obj r ] ++ post.
Proof.
  intros args evs Hin.
  destruct (main_locate argv w _ Hin I)
    as (levs & llm & sp & eevs & all & o & before & d & samples & after & pre
        & Hevs & Hlt & Her & Hout & Hfiles & Hall & Hpre & Hcase).
  fold args evs in Hevs. rewrite Hevs.
  set (front := EvMakedirs (output_dir args) true (Ok tt) ::
                levs ++ [EvPrint (initializing_line args);
                         EvLLM (llm_args args) (Ok llm);
                         EvSamplingParams (sampling_args args) (Ok sp)] ++ pre).
  destruct Hcase
    as [(ps & ms & outs & rs & m & x & post & _ & He & -> & _)
       |(ex0 & tail & -> & Hf & He & ->)].
  - rewrite iteration_events_split in He |- *. unfold pipeline_calls in He.
    in_list He. injection He as -> -> ->.
    exists front,
      (map EvPrint (summary_lines d rs m x ++ [""]) ++ post ++
       map EvPrint (match o with None => [saved_line args] | Some _ => [] end)),
      llm, sp, d, samples, ps, ms, outs, rs, m.
    split; [done|]. split; [done|]. subst front. same_list.
  - destruct Hf; unfold pipeline_calls in He; in_list He;
      injection He as -> -> ->.
    + exists front, [], llm, sp, d, samples, ps, ms, outs, rs, m.
      split; [done|]. split; [done|]. subst front. same_list.
    + eexists front, [_; _], llm, sp, d, samples, ps, ms, outs, rs, m.
      split; [done|]. split; [done|]. subst front. same_list.
    + eexists front, [_; _], llm, sp, d, samples, ps, ms, outs, rs, m.
      split; [done|]. split; [done|]. subst front. same_list.
    + eexists front, [_; _; _; _], llm, sp, d, samples, ps, ms, outs, rs, m.
      split; [done|]. split; [done|]. subst front. same_list.
Qed.


Lemma dump_written evs pre post args llm sp d samples ps ms outs rs m :
  evs = pre ++ pipeline_calls args llm sp d samples ps ms outs rs m ++ post →
  (report_path args d, output_dict_of args rs m) ∈ written evs.
Proof.
  intros ->. apply written_elem, elem_of_app. right. apply elem_of_app. left.
  unfold pipeline_calls. do 5 apply list_elem_of_further. apply list_elem_of_here.
Qed.


(** X16: each dataset goes to the engine in one call.  Every call of
    [generate] directly follows the [prepare_prompts] call of its
    dataset and receives all the prompts that call returned; no run
    makes more [generate] calls than it started evaluations, and a run
    that returns made exactly one per selected dataset. *)
Theorem one_generate_per_dataset argv w :
  let args := parse_arguments argv in
  let evs := events_of (main argv) w in
  (∀ llm ps sp r,
     EvGenerate llm ps sp r ∈ evs →
     ∃ pre post d samples ms,
       evs = pre ++ [ EvPreparePrompts d samples args (Ok (ps, ms));
                      EvGenerate llm ps sp r ] ++ post) ∧
  (length (generated evs) ≤ length (prepared evs))%nat ∧
  (outcome (main argv) w = Ok tt →
   length (generated evs) = length (selection args)).
Proof.
  intros args evs. split; [|split].
  - intros llm0 ps0 sp0 r Hin.
    destruct (main_locate argv w _ Hin I)
      as (levs & llm & sp & eevs & all & o & before & d & samples & after & pre
          & Hevs & Hlt & Her & Hout & Hfiles & Hall & Hpre & Hcase).
    fold args evs in Hevs. rewrite Hevs.
    set (front := EvMakedirs (output_dir args) true (Ok tt) ::
                  levs ++ [EvPrint (initializing_line args);
                           EvLLM (llm_args args) (Ok llm);
                           EvSamplingParams (sampling_args args) (Ok sp)] ++ pre).
    destruct Hcase
      as [(ps & ms & outs & rs & m & x & post & _ & He & -> & _)
         |(ex0 & tail & -> & Hf & He & ->)].
    + rewrite iteration_events_split in He |- *. unfold pipeline_calls in He.
      in_list He. injection He as -> -> -> ->.
      exists front,
        ([ EvProcessOutputs outs ms (eval_threads args) (Ok rs);
           EvCalculateMetrics rs (Ok m);
           EvOpenW (report_path args d) (Ok tt);
           EvJsonDump (report_path args d) (output_dict_of args rs m) (Ok tt) ]
         ++ map EvPrint (summary_lines d rs m x ++ [""]) ++ post ++
         map EvPrint (match o with None => [saved_line args] | Some _ => [] end)),
        d, samples, ms.
      subst front. same_list.
    + destruct Hf; unfold pipeline_calls in He; in_list He;
        injection He as -> -> -> ->;
        first
          [ by (exists front, [], d, samples, ms; subst front; same_list)
          | by (eexists front, [_], d, samples, ms; subst front; same_list)
          | by (eexists front, [_; _], d, samples, ms; subst front; same_list)
          | by (eexists front, [_; _; _], d, samples, ms; subst front;
                same_list)
          | by (eexists front, [_; _; _; _], d, samples, ms; subst front;
                same_list)
          | by (eexists front, [_; _; _; _; _; _], d, samples, ms; subst front;
                same_list)
          | by (eexists front, [_; _; _; _; _; _; _; _], d, samples, ms;
                subst front; same_list) ].
  - destruct (main_exact argv w)
      as (rmk & levs & setup & eevs & closing & _ & Hparts & _ & _ & Hobs).
    fold evs in Hobs.
    destruct Hobs as (_ & _ & _ & -> & _ & _ & _ & -> & _).
    destruct Hparts; try done; by eapply eval_run_counts.
  - intros Hr.
    destruct (main_exact argv w)
      as (rmk & levs & setup & eevs & closing & _ & Hparts & _ & _ & Hobs).
    fold args evs in Hobs, Hparts. rewrite Hr in Hparts.
    destruct Hobs as (_ & _ & _ & _ & _ & _ & _ & -> & _).
    inversion Hparts as [| |Hlt| | | |all levs' llm sp eevs' Hlt Hne Her];
      subst; apply loaded_samples in Hlt as (Hk & _).
    + by rewrite <- Hk.
    + apply eval_run_counts in Her as (_ & Hc).
      rewrite <- Hk. unfold dict_keys. rewrite length_fmap. by apply Hc.
Qed.

(** *** What a run prints *)

Lemma printed_app evs1 evs2 :
  printed (evs1 ++ evs2) = printed evs1 ++ printed evs2.
Proof. apply omap_app. Qed.

Ltac in_chars := repeat first [apply list_elem_of_here | apply list_elem_of_further].

Lemma header_body_line d :
  recognized d = true → body_line (str_upper d +:+ " Results:").
Proof.
  rewrite recognized_elem_of. unfold all_datasets.
  rewrite !elem_of_cons, elem_of_nil.
  intros [->|[->|[->|[->|[->|[->|[]]]]]]]; simpl; in_chars.
Qed.

Lemma summary_body_lines d rs m x :
  recognized d = true → Forall body_line (summary_lines d rs m x ++ [""]).
Proof.
  intros Hd. unfold summary_lines. rewrite <- app_assoc.
  apply Forall_app. split.
  { repeat constructor; [by apply header_body_line|simpl; in_chars..]. }
  apply Forall_app. split; [|by repeat constructor].
  unfold sub_accuracy_lines.
  destruct (dict_get "sub_accuracies" m) as [[?|sub|?|]|]; try constructor.
  - simpl. in_chars.
  - apply Forall_fmap, Forall_true. intros item. simpl. in_chars.
Qed.

Lemma printed_iteration_events args llm sp d samples ps ms outs rs m x :
  printed (iteration_events args llm sp d samples ps ms outs rs m x) =
  summary_lines d rs m x ++ [""].
Proof. by rewrite iteration_events_split, printed_app, printed_prints. Qed.

Lemma load_trace_lines args names all r evs :
  load_trace args names all r evs → Forall body_line (printed evs).
Proof.
  induction 1 as [all|name names all r evs Hld _ IH
                 |name names all ld samples r evs Hld _ IH
                 |name names all ld e Hld].
  - constructor.
  - done.
  - unfold printed in *. csimpl. constructor; [|done]. simpl. in_chars.
  - constructor.
Qed.

Lemma failed_iteration_lines args llm sp d samples ex tail :
  recognized d = true →
  failed_iteration args llm sp d samples ex tail →
  Forall body_line (printed tail).
Proof.
  intros Hd. destruct 1; unfold printed, pipeline_calls; csimpl;
    repeat constructor; try (by apply header_body_line); simpl; in_chars.
Qed.

Lemma eval_run_lines args llm sp items o evs :
  eval_run args llm sp items o evs →
  Forall (fun d => recognized d = true) (dict_keys items) →
  Forall body_line (printed evs).
Proof.
  induction 1 as [|d samples items ps ms outs rs m x o evs Hm Her IH
                  |d samples items ex tail Hf]; intros Hrec.
  - constructor.
  - unfold dict_keys in Hrec. csimpl in Hrec.
    apply Forall_cons in Hrec as [Hd Hrec].
    rewrite printed_app, printed_iteration_events. apply Forall_app.
    split; [by apply summary_body_lines|by apply IH].
  - unfold dict_keys in Hrec. csimpl in Hrec.
    apply Forall_cons in Hrec as [Hd Hrec].
    by eapply failed_iteration_lines.
Qed.

Lemma eval_run_all_written args llm sp items evs :
  eval_run args llm sp items None evs →
  ∀ d, d ∈ dict_keys items →
    ∃ rs m, (report_path args d, output_dict_of args rs m) ∈ written evs.
Proof.
  remember None as o eqn:Ho. intros H.
  induction H as [|d samples items ps ms outs rs m x o evs Hm Her IH
                  |d samples items ex tail Hf]; intros d' Hd'.
  - by apply elem_of_nil in Hd'.
  - unfold dict_keys in Hd'. csimpl in Hd'.
    unfold written. rewrite omap_app.
    apply elem_of_cons in Hd' as [->|Hd'].
    + exists rs, m. apply elem_of_app. left.
      destruct (iteration_events_obs args llm sp d samples ps ms outs rs m x)
        as (_ & _ & Hw & _).
      unfold written in Hw. rewrite Hw. apply list_elem_of_here.
    + destruct (IH Ho _ Hd') as (rs' & m' & Hin). exists rs', m'.
      apply elem_of_app. by right.
  - discriminate Ho.
Qed.

Lemma dict_keys_nil {V} (d : dict V) : dict_keys d = [] → d = [].
Proof. by destruct d. Qed.

(** A printed line that is not a progress or summary line is the closing
    line of the run. *)
Lemma closing_line argv w line :
  let args := parse_arguments argv in
  let evs := events_of (main argv) w in
  line ∈ printed evs → ¬ body_line line →
  outcome (main argv) w = Ok tt ∧
  last evs = Some (EvPrint line) ∧
  EvMakedirs (output_dir args) true (Ok tt) ∈ evs ∧
  ((line = no_datasets_notice ∧ selection args = [] ∧ loads evs = []) ∨
   (line = saved_line args ∧ selection args ≠ [])).
Proof.
  intros args evs Hin Hnb.
  destruct (main_exact argv w)
    as (rmk & levs & setup & eevs & closing & Hevs & Hparts & _ & _ & Hobs).
  fold args evs in Hevs, Hparts, Hobs.
  destruct Hobs as (Hloads & _).
  assert (Hpr : printed evs =
                printed levs ++ printed setup ++ printed eevs ++ closing).
  { rewrite Hevs.
    change (printed (EvMakedirs (output_dir args) true rmk ::
                     levs ++ setup ++ eevs ++ map EvPrint closing))
      with (printed (levs ++ setup ++ eevs ++ map EvPrint closing)).
    by rewrite !printed_app, printed_prints. }
  assert (Hbody : ∀ l, line ∈ l → Forall body_line l → False).
  { intros l Hl Hall. eapply Forall_forall in Hall; [|exact Hl]. done. }
  assert (Hinit : Forall body_line [initializing_line args]).
  { constructor; [|constructor]. simpl. in_chars. }
  rewrite Hpr in Hin. rewrite Hevs.
  destruct Hparts as [ex|ex levs Hlt|Hlt|ex all levs Hlt Hne
                     |ex all levs llm Hlt Hne|ex all levs llm sp eevs Hlt Hne Her
                     |all levs llm sp eevs Hlt Hne Her];
    try (pose proof (load_trace_lines _ _ _ _ _ Hlt) as Hll);
    try (destruct (loaded_samples _ _ _ Hlt) as (Hk & _ & Hrec);
         pose proof (eval_run_lines _ _ _ _ _ _ Her Hrec) as Hel);
    rewrite ?elem_of_app in Hin; unfold printed in Hin; csimpl in Hin.
  - destruct Hin as [Hin|[Hin|[Hin|Hin]]]; by apply elem_of_nil in Hin.
  - destruct Hin as [Hin|[Hin|[Hin|Hin]]];
      [by destruct (Hbody _ Hin Hll)|by apply elem_of_nil in Hin..].
  - destruct Hin as [Hin|[Hin|[Hin|Hin]]];
      try (by apply elem_of_nil in Hin).
    apply list_elem_of_singleton in Hin as ->.
    apply loaded_samples in Hlt as (Hk & _).
    split; [done|]. split; [done|]. split; [apply list_elem_of_here|].
    left. by split_and!.
  - destruct Hin as [Hin|[Hin|[Hin|Hin]]];
      [by destruct (Hbody _ Hin Hll)|by destruct (Hbody _ Hin Hinit)
      |by apply elem_of_nil in Hin..].
  - destruct Hin as [Hin|[Hin|[Hin|Hin]]];
      [by destruct (Hbody _ Hin Hll)|by destruct (Hbody _ Hin Hinit)
      |by apply elem_of_nil in Hin..].
  - destruct Hin as [Hin|[Hin|[Hin|Hin]]];
      [by destruct (Hbody _ Hin Hll)|by destruct (Hbody _ Hin Hinit)
      |by destruct (Hbody _ Hin Hel)|by apply elem_of_nil in Hin].
  - destruct Hin as [Hin|[Hin|[Hin|Hin]]];
      [by destruct (Hbody _ Hin Hll)|by destruct (Hbody _ Hin Hinit)
      |by destruct (Hbody _ Hin Hel)|].
    apply list_elem_of_singleton in Hin as ->.
    split; [done|]. split.
    { rewrite app_comm_cons, !app_assoc. apply last_snoc. }
    split; [apply list_elem_of_here|].
    right. split; [done|]. rewrite <- Hk. intros ?%dict_keys_nil. done.
Qed.

Lemma not_body_saved_line args : ¬ body_line (saved_line args).
Proof.
  simpl. intros H.
  repeat (apply elem_of_cons in H as [H|H]; [discriminate H|]).
  by apply elem_of_nil in H.
Qed.

Lemma not_body_notice : ¬ body_line no_datasets_notice.
Proof.
  simpl. intros H.
  repeat (apply elem_of_cons in H as [H|H]; [discriminate H|]).
  by apply elem_of_nil in H.
Qed.

(** A run that returns with a dataset selected. *)
Lemma success_run argv w :
  let args := parse_arguments argv in
  let evs := events_of (main argv) w in
  outcome (main argv) w = Ok tt → selection args ≠ [] →
  ∃ levs llm sp eevs all_samples,
    evs = EvMakedirs (output_dir args) true (Ok tt) ::
          levs ++ [EvPrint (initializing_line args);
                   EvLLM (llm_args args) (Ok llm);
                   EvSamplingParams (sampling_args args) (Ok sp)] ++
          eevs ++ [EvPrint (saved_line args)] ∧
    dict_keys all_samples = selection args ∧
    eval_run args llm sp all_samples None eevs ∧
    written evs = written eevs.
Proof.
  intros args evs Hr Hsel.
  destruct (main_exact argv w)
    as (rmk & levs & setup & eevs & closing & Hevs & Hparts & _ & _ & Hobs).
  fold args evs in Hevs, Hparts, Hobs. rewrite Hr in Hparts.
  destruct Hobs as (_ & _ & _ & _ & _ & _ & Hw & _).
  inversion Hparts as [| |Hlt| | | |all levs' llm sp eevs' Hlt Hne Her];
    subst; apply loaded_samples in Hlt as (Hk & _).
  - by destruct Hsel.
  - by exists levs, llm, sp, eevs, all.
Qed.

(** X11: the closing line tells the truth.  [All results saved to
    <output_dir>] is printed exactly by the runs in which [main]
    returns after selecting at least one dataset; it is then the last
    thing the run does, and for every selected dataset (every recognised
    requested name) a report was written in full and is on disk. *)
Theorem saved_line_means_all_reports argv w :
  let args := parse_arguments argv in
  let evs := events_of (main argv) w in
  let w' := final (main argv) w in
  ("All results saved to " +:+ output_dir args ∈ printed evs ↔
   outcome (main argv) w = Ok tt ∧ selection args ≠ []) ∧
  (outcome (main argv) w = Ok tt → selection args ≠ [] →
   last evs = Some (EvPrint ("All results saved to " +:+ output_dir args)) ∧
   ∀ d, d ∈ selection args →
     ∃ rs m,
       (report_path args d, output_dict_of args rs m) ∈ written evs ∧
       files w' !! report_path args d =
         Some (FileJson (output_dict_of args rs m))).
Proof.
  intros args evs w'.
  change ("All results saved to " +:+ output_dir args) with (saved_line args).
  destruct (main_spec argv w) as (_ & _ & _ & _ & _ & Hwritten & _).
  fold evs w' in Hwritten.
  assert (Hok : outcome (main argv) w = Ok tt → selection args ≠ [] →
            saved_line args ∈ printed evs ∧
            last evs = Some (EvPrint (saved_line args)) ∧
            ∀ d, d ∈ selection args →
              ∃ rs m,
                (report_path args d, output_dict_of args rs m) ∈ written evs ∧
                files w' !! report_path args d =
                  Some (FileJson (output_dict_of args rs m))).
  { intros Hr Hsel.
    destruct (success_run argv w Hr Hsel)
      as (levs & llm & sp & eevs & all & Hevs & Hk & Her & Hw).
    fold args evs in Hevs, Hw, Hk, Her. split; [|split].
    - rewrite Hevs. apply list_elem_of_omap. exists (EvPrint (saved_line args)).
      split; [|done]. apply list_elem_of_further.
      rewrite !elem_of_app. do 3 right. apply list_elem_of_here.
    - rewrite Hevs, app_comm_cons, !app_assoc. apply last_snoc.
    - intros d Hd. rewrite <- Hk in Hd.
      destruct (eval_run_all_written _ _ _ _ _ Her _ Hd) as (rs & m & Hin).
      rewrite <- Hw in Hin. exists rs, m. split; [done|]. by apply Hwritten. }
  split.
  - split.
    + intros Hin.
      destruct (closing_line argv w _ Hin (not_body_saved_line args))
        as (Hr & _ & _ & [(Heq & _)|(_ & Hsel)]); [|done].
      discriminate Heq.
    + intros [Hr Hsel]. by destruct (Hok Hr Hsel).
  - intros Hr Hsel. by destruct (Hok Hr Hsel) as (_ & ? & ?).
Qed.

(** X13: the no-op notice is printed exactly by the runs in which
    [makedirs] returned and no requested name is recognised.  Such a run
    called no loader, so the notice never follows a loading problem,
    whatever its wording suggests; it is the last thing the run does, and
    [main] returns. *)
Theorem notice_only_without_recognised argv w :
  let args := parse_arguments argv in
  let evs := events_of (main argv) w in
  (no_datasets_notice ∈ printed evs ↔
   selection args = [] ∧ EvMakedirs (output_dir args) true (Ok tt) ∈ evs) ∧
  (no_datasets_notice ∈ printed evs →
   loads evs = [] ∧ outcome (main argv) w = Ok tt ∧
   last evs = Some (EvPrint no_datasets_notice)).
Proof.
  intros args evs.
  assert (Hnotice : no_datasets_notice ∈ printed evs →
            selection args = [] ∧
            EvMakedirs (output_dir args) true (Ok tt) ∈ evs ∧
            loads evs = [] ∧ outcome (main argv) w = Ok tt ∧
            last evs = Some (EvPrint no_datasets_notice)).
  { intros Hin.
    destruct (closing_line argv w _ Hin not_body_notice)
      as (Hr & Hlast & Hmk & [(_ & Hsel & Hl)|(Heq & _)]); [done|].
    discriminate Heq. }
  split; [split|].
  - intros Hin. by destruct (Hnotice Hin) as (? & ? & _).
  - intros [Hsel Hmk].
    destruct (no_selection_run argv w Hsel) as (rmk & Hevs & _).
    fold args evs in Hevs. rewrite Hevs in Hmk |- *.
    destruct rmk as [[]|ex]; simpl in *.
    + unfold printed. csimpl. apply list_elem_of_here.
    + apply list_elem_of_singleton in Hmk. discriminate Hmk.
  - intros Hin. by destruct (Hnotice Hin) as (_ & _ & ? & ? & ?).
Qed.

(** X6: the summary of a completed dataset.  For every dataset whose
    iteration ran to its end the run printed, in one block, the header
    with the dataset name in capitals, the number of results that are in
    its report, the [accuracy] of the metrics in its report, then, when
    the metrics have [sub_accuracies], a header and one line per task in
    the order of that dict, and last a blank line. *)
Theorem completed_dataset_summary argv w d :
  let args := parse_arguments argv in
  let evs := events_of (main argv) w in
  d ∈ completed evs →
  ∃ rs m x before after,
    (report_path args d, output_dict_of args rs m) ∈ written evs ∧
    dict_get "accuracy" m = Some (MNum x) ∧
    printed evs =
      before ++
      [ str_upper d +:+ " Results:";
        "  Total samples: " +:+ pretty (length rs);
        "  Accuracy: " +:+ format_4f x ] ++
      match dict_get "sub_accuracies" m with
      | Some (MMap sub) =>
          "  Task/Category Accuracies:" ::
          map (fun item => "    " +:+ item.1 +:+ ": " +:+ format_4f item.2) sub
      | _ => []
      end ++
      [""] ++ after.
Proof.
  intros args evs Hd.
  destruct (main_parts argv w)
    as (rmk & levs & setup & eevs & closing & Hevs & _ & Hobs & _ & _ & Hcases).
  fold args evs in Hevs, Hobs, Hcases.
  destruct Hobs as (_ & _ & _ & _ & _ & _ & Hwr & _ & Hcomp).
  rewrite Hcomp in Hd.
  destruct Hcases
    as [(e & _ & _ & _ & _ & -> & _)
       |[(e & ld & levs0 & _ & _ & _ & _ & _ & -> & _)
       |[(_ & _ & _ & _ & -> & _)
       |[(e & all & _ & _ & _ & _ & _ & -> & _)
       |[(e & all & llm & _ & _ & _ & _ & _ & -> & _)
       |(all & llm & sp & _ & _ & _ & _ & Htr & _)]]]]];
    try by apply elem_of_nil in Hd.
  eapply eval_trace_completed in Hd
    as (samples & ps & ms & outs & rs & m & x & t1 & t2 & _ & _ & Hacc & Heq);
    [|exact Htr].
  exists rs, m, x,
    (printed (EvMakedirs (output_dir args) true rmk :: levs ++ setup ++ t1)),
    (printed (t2 ++ map EvPrint closing)).
  split; [|split; [done|]].
  - rewrite Hwr, Heq. unfold written. rewrite !omap_app.
    apply elem_of_app. right. apply elem_of_app. left.
    destruct (iteration_events_obs args llm sp d samples ps ms outs rs m x)
      as (_ & _ & Hw & _).
    unfold written in Hw. rewrite Hw. apply list_elem_of_here.
  - rewrite Hevs, Heq.
    rewrite (run_window _ levs setup t1 _ t2 (map EvPrint closing)).
    rewrite !printed_app, printed_iteration_events.
    unfold summary_lines, sub_accuracy_lines, sub_accuracy_line.
    by rewrite <- !app_assoc.
Qed.

Lemma report_path_shape args d :
  recognized d = true →
  report_path args d =
    output_dir args +:+
    (if String.eqb (output_dir args) "" || ends_with_sep (output_dir args)
     then "" else "/") +:+ d +:+ ".json".
Proof.
  rewrite recognized_elem_of. unfold all_datasets, report_path, os_path_join.
  rewrite !elem_of_cons, elem_of_nil.
  intros [->|[->|[->|[->|[->|[->|[]]]]]]]; simpl;
    by destruct (String.eqb (output_dir args) "" ||
                 ends_with_sep (output_dir args)).
Qed.

(** X14: every file a run opens is a report directly inside the output
    directory: its path is [--output-dir], then one separator unless
    [--output-dir] is empty or already ends with one, then the name of a
    requested dataset, which is one of the six, then [.json].  No
    requested name can take a report elsewhere. *)
Theorem reports_live_in_output_dir argv w p :
  let args := parse_arguments argv in
  let evs := events_of (main argv) w in
  p ∈ opened evs →
  ∃ d, d ∈ all_datasets ∧ d ∈ datasets_to_eval args ∧
       p = output_dir args +:+
           (if String.eqb (output_dir args) "" || ends_with_sep (output_dir args)
            then "" else "/") +:+ d +:+ ".json".
Proof.
  intros args evs Hp.
  destruct (main_parts argv w)
    as (rmk & levs & setup & eevs & closing & _ & _ & Hobs & _ & _ & Hcases).
  fold args evs in Hobs, Hcases.
  destruct Hobs as (_ & _ & _ & _ & Hop & _). rewrite Hop in Hp.
  destruct Hcases
    as [(e & _ & _ & _ & _ & -> & _)
       |[(e & ld & levs0 & _ & _ & _ & _ & _ & -> & _)
       |[(_ & _ & _ & _ & -> & _)
       |[(e & all & _ & _ & _ & _ & _ & -> & _)
       |[(e & all & llm & _ & _ & _ & _ & _ & -> & _)
       |(all & llm & sp & _ & Hl & _ & _ & Htr & _)]]]]];
    try by apply elem_of_nil in Hp.
  destruct Hl as (_ & _ & Hkeys & _).
  destruct (eval_trace_paths _ _ _ _ _ _ Htr) as [Ho _].
  rewrite Hkeys in Ho. eapply Forall_forall in Ho; [|exact Hp].
  apply report_of_selected in Ho as (d & Hrec & Hreq & ->).
  exists d. split; [by apply recognized_elem_of|]. split; [done|].
  by apply report_path_shape.
Qed.

(** *** The results dictionary *)

Lemma initial_results_keys {S R : Type} (ks : list string) (acc : dict (list R)) :
  dict_keys (foldl (fun acc k => dict_set k [] acc) acc ks) =
  dict_keys acc ++ first_occurrences (dict_keys acc) ks.
Proof.
  revert acc. induction ks as [|k ks IH]; intros acc; simpl.
  - by rewrite app_nil_r.
  - rewrite IH, dict_keys_set. case_bool_decide; [done|].
    by rewrite <- app_assoc.
Qed.

Lemma evaluate_dataset_irrelevant args llm sp ar ar2 item w r w' :
  evaluate_dataset args llm sp ar item w = (r, w') →
  ∃ r2, evaluate_dataset args llm sp ar2 item w = (r2, w') ∧
        exn_of r2 = exn_of r.
Proof.
  destruct item as [d samples].
  unfold evaluate_dataset, write_json, bind, call, lift, print, ret, raise, log,
    set_file, format_num, items_of.
  destruct w as [s ds fs tr]. simpl.
  destruct (ext_prepare_prompts d samples args s) as [[[ps ms]|e0] s1]; simpl;
    [|intros [= <- <-]; by eexists].
  destruct (ext_generate llm ps sp s1) as [[outs|e0] s2]; simpl;
    [|intros [= <- <-]; by eexists].
  destruct (ext_process_outputs outs ms (eval_threads args) s2) as [[rs|e0] s3];
    simpl; [|intros [= <- <-]; by eexists].
  destruct (ext_calculate_metrics rs s3) as [[m|e0] s4]; simpl;
    [|intros [= <- <-]; by eexists].
  destruct (ext_open_w (report_path args d) s4) as [[[]|e0] s5]; simpl;
    [|intros [= <- <-]; by eexists].
  destruct (json_dump_close (report_path args d) (output_dict_of args rs m) s5)
    as [[[]|e0] s6]; simpl; [|intros [= <- <-]; by eexists].
  unfold dict_getitem, dict_has.
  destruct (dict_get "accuracy" m) as [[x|?|?|]|]; simpl;
    [|intros [= <- <-]; by eexists..].
  destruct (dict_get "sub_accuracies" m) as [[y|sub|?|]|]; simpl;
    [intros [= <- <-]; by eexists| |intros [= <- <-]; by eexists..|].
  - rewrite print_sub_accuracies_run. simpl. intros [= <- <-]. by eexists.
  - intros [= <- <-]. by eexists.
Qed.

Lemma evaluate_all_irrelevant args llm sp items ar ar2 w r w' :
  evaluate_all args llm sp ar items w = (r, w') →
  ∃ r2, evaluate_all args llm sp ar2 items w = (r2, w') ∧
        exn_of r2 = exn_of r.
Proof.
  revert ar ar2 w. induction items as [|item items IH]; intros ar ar2 w.
  - simpl. intros [= <- <-]. by eexists.
  - intros [(ar1 & w1 & Hit & Hrest)|(e & Hit & ->)]%evaluate_all_step.
    + destruct (evaluate_dataset_irrelevant _ _ _ _ ar2 _ _ _ _ Hit)
        as ([a2|e2] & Hit2 & Hx); [|discriminate Hx].
      destruct (IH _ a2 _ Hrest) as (r2 & Hrest2 & Hx2).
      exists r2. split; [|done]. simpl. unfold bind at 1. by rewrite Hit2.
    + destruct (evaluate_dataset_irrelevant _ _ _ _ ar2 _ _ _ _ Hit)
        as ([a2|e2] & Hit2 & Hx); [discriminate Hx|].
      exists (Raise e2). split; [|done]. simpl. unfold bind at 1.
      by rewrite Hit2.
Qed.

Lemma evaluate_all_results args llm sp items ar w ar' w' :
  evaluate_all args llm sp ar items w = (Ok ar', w') →
  NoDup (dict_keys items) →
  (∀ d, d ∈ dict_keys items → d ∈ dict_keys ar) →
  ∃ evs,
    trace w' = trace w ++ evs ∧
    dict_keys ar' = dict_keys ar ∧
    (∀ d, d ∉ dict_keys items → dict_get d ar' = dict_get d ar) ∧
    (∀ d, d ∈ dict_keys items →
       ∃ rs m, dict_get d ar' = Some rs ∧
               (report_path args d, output_dict_of args rs m) ∈ written evs).
Proof.
  revert ar w. induction items as [|[d samples] items IH]; intros ar w.
  - simpl. intros [= <- <-] _ _. exists []. rewrite app_nil_r.
    split_and!; try done. by intros d ?%elem_of_nil.
  - intros Hev Hnd Hin.
    apply evaluate_all_step in Hev as [(ar1 & w1 & Hit & Hrest)|(e & _ & [=])].
    change (dict_keys ((d, samples) :: items)) with (d :: dict_keys items) in *.
    apply NoDup_cons in Hnd as [Hd Hnd].
    apply evaluate_dataset_exact in Hit
      as (evs1 & Ht1 & _ & _ & ps & ms & outs & rs & m & x & -> & _ & ->).
    assert (Hk1 : dict_keys (dict_set d rs ar) = dict_keys ar).
    { rewrite dict_keys_set, bool_decide_eq_true_2; [done|].
      apply Hin, list_elem_of_here. }
    destruct (IH _ _ Hrest Hnd)
      as (evs & Ht & Hk & Hout & Hres).
    { intros d' Hd'. rewrite Hk1. by apply Hin, list_elem_of_further. }
    exists (iteration_events args llm sp d samples ps ms outs rs m x ++ evs).
    split_and!.
    + by rewrite Ht, Ht1, <- app_assoc.
    + by rewrite Hk, Hk1.
    + intros d' [Hne Hd']%not_elem_of_cons.
      rewrite (Hout _ Hd'). by apply dict_get_set_ne.
    + intros d' [->|Hd']%elem_of_cons.
      * exists rs, m. split; [by rewrite (Hout _ Hd), dict_get_set_eq|].
        apply (dump_written _ [] (map EvPrint (summary_lines d rs m x ++ [""])
                                  ++ evs) args llm sp d samples ps ms outs).
        by rewrite iteration_events_split, <- app_assoc.
      * destruct (Hres _ Hd') as (rs' & m' & Hg & Hw). exists rs', m'.
        split; [done|]. unfold written. rewrite omap_app.
        apply elem_of_app. by right.
Qed.

(** X12: the [all_results] dictionary is bookkeeping.  Initialised with
    an empty list for every key of [all_samples] (lines 108-110) and
    assigned to in every iteration (line 119), it has, when the loop
    ends, the keys of [all_samples] in the same order and under each one
    the results that are in that dataset's report; and nothing the loop
    does depends on it: started from any other dictionary the loop
    leaves the same trace and the same files and ends the same way. *)
Theorem all_results_bookkeeping args llm sp (items : dict (list Sample)) w :
  NoDup (dict_keys items) →
  let loop := evaluate_all args llm sp (initial_results items) items in
  (∀ all_results,
     outcome loop w = Ok all_results →
     dict_keys all_results = dict_keys items ∧
     ∀ d, d ∈ dict_keys items →
       ∃ rs m,
         dict_get d all_results = Some rs ∧
         (report_path args d, output_dict_of args rs m)
           ∈ written (events_of loop w)) ∧
  (∀ other,
     final (evaluate_all args llm sp other items) w = final loop w ∧
     exn_of (outcome (evaluate_all args llm sp other items) w) =
       exn_of (outcome loop w)).
Proof.
  intros Hnd loop. split.
  - intros ar' Hr. unfold outcome, events_of in *.
    destruct (loop w) as [r w'] eqn:Hloop. simpl in Hr. subst r. simpl.
    assert (Hik : dict_keys (initial_results (R := Result) items) =
                  dict_keys items).
    { unfold initial_results.
      rewrite (initial_results_keys (S := Sample)). simpl.
      apply first_occurrences_id; [done|]. intros k _. apply not_elem_of_nil. }
    apply evaluate_all_results in Hloop as (evs & Ht & Hk & _ & Hres);
      [|done|by intros d; rewrite Hik].
    rewrite Ht, drop_app_length. split; [by rewrite Hk|done].
  - intros other. unfold final, outcome.
    destruct (loop w) as [r w'] eqn:Hloop.
    destruct (evaluate_all_irrelevant _ _ _ _ _ other _ _ _ Hloop)
      as (r2 & -> & Hx). done.
Qed.

(** *** The answers of the imported modules *)

Lemma appends_ret P {A} (a : A) : appends P (ret a).
Proof. intros w. exists []. by rewrite app_nil_r. Qed.

Lemma appends_raise P {A} ex : appends P (raise (A := A) ex).
Proof. intros w. exists []. by rewrite app_nil_r. Qed.

Lemma appends_lift P {A} (r : result A) : appends P (lift r).
Proof. intros w. exists []. by rewrite app_nil_r. Qed.

Lemma appends_print P line : P (EvPrint line) → appends P (print line).
Proof. intros H w. exists [EvPrint line]. split; [done|by constructor]. Qed.

Lemma appends_set_file P path c : appends P (set_file path c).
Proof. intros w. exists []. by rewrite app_nil_r. Qed.

Lemma appends_add_dir P path : appends P (add_dir path).
Proof. intros w. exists []. by rewrite app_nil_r. Qed.

Lemma appends_call P {A} (f : ExtState → result A * ExtState)
    (ev : result A → event X) :
  (∀ s, P (ev (f s).1)) → appends P (call f ev).
Proof.
  intros H w. unfold call. specialize (H (ext w)).
  destruct (f (ext w)) as [r s]. exists [ev r]. split; [done|by constructor].
Qed.

Lemma appends_bind P {A B} (m : M A) (k : A → M B) :
  appends P m → (∀ a, appends P (k a)) → appends P (bind m k).
Proof.
  intros Hm Hk w. unfold bind. destruct (Hm w) as (evs1 & Ht1 & H1).
  destruct (m w) as [[a|ex] w1]; simpl in *; [|by exists evs1].
  destruct (Hk a w1) as (evs2 & Ht2 & H2). exists (evs1 ++ evs2).
  rewrite Ht2, Ht1, app_assoc. split; [done|by apply Forall_app].
Qed.

Lemma format_num_appends P v : appends P (format_num v).
Proof. destruct v; [apply appends_ret|apply appends_raise..]. Qed.

Lemma items_of_appends P v : appends P (items_of v).
Proof. destruct v; [apply appends_raise|apply appends_ret|apply appends_raise..]. Qed.

Ltac answers :=
  repeat first
    [ apply appends_ret | apply appends_raise | apply appends_lift
    | apply format_num_appends | apply items_of_appends
    | apply appends_print; exact I
    | apply appends_set_file | apply appends_add_dir
    | apply appends_bind; [|intros ?] ].

Lemma os_makedirs_answered path exist_ok :
  appends answered_event (os_makedirs path exist_ok).
Proof.
  intros w. unfold os_makedirs.
  case_bool_decide.
  { destruct exist_ok; simpl; eexists [_]; split; try reflexivity;
      by repeat constructor. }
  case_bool_decide.
  { simpl. eexists [_]. split; [reflexivity|by repeat constructor]. }
  unfold bind, call, add_dir, log.
  destruct (ext_mkdir path (ext w)) as [[[]|ex] s]; simpl;
    eexists [_]; split; try reflexivity; by repeat constructor.
Qed.

Lemma write_json_answered path obj : appends answered_event (write_json path obj).
Proof.
  unfold write_json. answers; [by apply appends_call|].
  intros w. unfold call, set_file, log.
  destruct (json_dump_close path obj (ext w)) as [[[]|ex] s]; simpl;
    eexists [_]; split; try reflexivity; by repeat constructor.
Qed.

Lemma load_datasets_answered args names all :
  appends answered_event (load_datasets args names all).
Proof.
  revert all. induction names as [|name names IH]; intros all; simpl.
  { apply appends_ret. }
  apply appends_bind; [|done].
  unfold load_dataset, load_branch.
  repeat (case_match; [answers; by apply appends_call|]).
  apply appends_ret.
Qed.

Lemma print_sub_accuracies_answered sub :
  appends answered_event (print_sub_accuracies sub).
Proof. induction sub as [|[task acc] sub IH]; simpl; answers. done. Qed.

Lemma evaluate_dataset_answered args llm sp ar item :
  appends answered_event (evaluate_dataset args llm sp ar item).
Proof.
  destruct item as [d samples]. unfold evaluate_dataset.
  apply appends_bind.
  { apply appends_call. intros s. simpl. exists s.
    by destruct (ext_prepare_prompts d samples args s); eexists. }
  intros [ps ms]. apply appends_bind.
  { apply appends_call. intros s. simpl. exists s.
    by destruct (ext_generate llm ps sp s); eexists. }
  intros outs. apply appends_bind.
  { apply appends_call. intros s. simpl. exists s.
    by destruct (ext_process_outputs outs ms (eval_threads args) s); eexists. }
  intros rs. apply appends_bind; [by apply appends_call|].
  intros m. apply appends_bind; [apply write_json_answered|]. intros _.
  answers. destruct (dict_has "sub_accuracies" m); answers.
  apply print_sub_accuracies_answered.
Qed.

Lemma evaluate_all_answered args llm sp ar items :
  appends answered_event (evaluate_all args llm sp ar items).
Proof.
  revert ar. induction items as [|item items IH]; intros ar; simpl.
  { apply appends_ret. }
  apply appends_bind; [apply evaluate_dataset_answered|done].
Qed.

(** Every answer in the trace of a run was given by the imported
    function the event names. *)
Lemma main_answered argv w : Forall answered_event (events_of (main argv) w).
Proof.
  assert (H : appends answered_event (main argv)).
  { unfold main. apply appends_bind; [apply os_makedirs_answered|]. intros _.
    apply appends_bind; [apply load_datasets_answered|]. intros [|item items].
    { by apply appends_print. }
    apply appends_bind; [by apply appends_print|]. intros _.
    apply appends_bind; [by apply appends_call|]. intros llm.
    apply appends_bind; [by apply appends_call|]. intros sp. cbv zeta.
    apply appends_bind; [apply evaluate_all_answered|]. intros _.
    by apply appends_print. }
  destruct (H w) as (evs & Ht & Hall). unfold events_of.
  by rewrite Ht, drop_app_length.
Qed.

(** *** A dataset without samples *)

Lemma raised_last_not_nil ex evs : raised_last ex evs → raised evs ≠ [].
Proof.
  intros (pre & e & -> & He & _). rewrite raised_app. unfold raised at 2.
  simpl. rewrite He. by destruct (raised pre).
Qed.

Lemma loaded_by_elem ld evs samples :
  samples ∈ loaded_by ld evs → ∃ p, EvLoad ld p (Ok samples) ∈ evs.
Proof.
  intros (e & He & Hs)%list_elem_of_omap.
  destruct e as [|ld' p [v|]| | | | | | | | |]; try discriminate Hs.
  simpl in Hs. destruct (decide (ld' = ld)) as [->|]; [|discriminate Hs].
  injection Hs as ->. by exists p.
Qed.

(** An iteration that raises does not reach its closing blank line. *)
Lemma failed_iteration_completed args llm sp d samples ex tail cur :
  failed_iteration args llm sp d samples ex tail → completed_from cur tail = [].
Proof.
  destruct 1; unfold pipeline_calls; cbn [app];
    apply completed_from_raise; try done;
    unfold printed; simpl; rewrite ?not_elem_of_cons; split_and?;
    try apply not_elem_of_nil; try done; by destruct d.
Qed.

(** In a loop where no call raises and the datasets before [d]
    complete, the six calls of the iteration of [d] are made, and they
    return. *)
Lemma eval_run_reaches args llm sp items o eevs pre d post :
  eval_run args llm sp items o eevs →
  dict_keys items = pre ++ d :: post →
  NoDup (dict_keys items) →
  raised eevs = [] →
  (∀ d', d' ∈ pre → d' ∈ completed eevs) →
  ∃ samples ps ms outs rs m before after,
    (d, samples) ∈ items ∧
    eevs = before ++ pipeline_calls args llm sp d samples ps ms outs rs m ++
           after.
Proof.
  intros H. revert pre.
  induction H as [|d0 samples items ps ms outs rs m x o evs Hm Her IH
                  |d0 samples items ex tail Hf]; intros pre Hk Hnd Hr Hc.
  - by destruct pre.
  - change (dict_keys ((d0, samples) :: items)) with (d0 :: dict_keys items)
      in Hk, Hnd.
    apply NoDup_cons in Hnd as [Hnin Hnd].
    destruct pre as [|d1 pre]; injection Hk as -> Hk.
    + exists samples, ps, ms, outs, rs, m, [],
        (map EvPrint (summary_lines d rs m x ++ [""]) ++ evs).
      split; [apply list_elem_of_here|].
      by rewrite iteration_events_split, <- app_assoc.
    + rewrite raised_app, raised_iteration_events in Hr. simpl in Hr.
      destruct (IH pre Hk Hnd Hr)
        as (samples' & ps' & ms' & outs' & rs' & m' & before & after & Hin & ->).
      { intros d' Hd'. specialize (Hc d' (list_elem_of_further _ _ _ Hd')).
        unfold completed in Hc. rewrite completed_from_iteration in Hc.
        apply elem_of_cons in Hc as [->|Hc]; [|done].
        destruct Hnin. rewrite Hk. apply elem_of_app. by left. }
      exists samples', ps', ms', outs', rs', m',
        (iteration_events args llm sp d1 samples ps ms outs rs m x ++ before),
        after.
      split; [by apply list_elem_of_further|by rewrite <- app_assoc].
  - change (dict_keys ((d0, samples) :: items)) with (d0 :: dict_keys items)
      in Hk.
    destruct pre as [|d1 pre]; injection Hk as -> Hk.
    + apply failed_iteration_summary in Hf
        as [Hl%raised_last_not_nil|(_ & ps & ms & outs & rs & m & -> & _)];
        [done|].
      exists samples, ps, ms, outs, rs, m, [],
        (map EvPrint (partial_summary d rs m)).
      split; [apply list_elem_of_here|done].
    + specialize (Hc d1 (list_elem_of_here _ _)). unfold completed in Hc.
      rewrite (failed_iteration_completed _ _ _ _ _ _ _ _ Hf) in Hc.
      by apply elem_of_nil in Hc.
Qed.

(** C10: a recognised dataset whose loader returns no sample is
    evaluated like any other.  With such a dataset requested the run is
    never the early return, whatever else happens, and once [makedirs]
    and the loaders have returned the engine constructor is called.
    Given that the prompt builder, the engine and the output processor
    answer with no more items than they are given: in a run where no
    call raises and the datasets selected before it complete, the six
    calls of its iteration are made, [prepare_prompts] on the empty list
    of samples, [generate] on the empty list of prompts, on the engine
    the run constructed, [process_outputs] on the empty list of outputs
    and [calculate_metrics] on the empty list of results, and its
    report, whose [results] is the empty list, is written in full and is
    on disk when the run ends; in a run that returns, its iteration
    completes as well. *)
Theorem empty_dataset_still_evaluated argv w d ld :
  let args := parse_arguments argv in
  let evs := events_of (main argv) w in
  let w' := final (main argv) w in
  (∀ name samples a s ps ms s',
     ext_prepare_prompts name samples a s = (Ok (ps, ms), s') →
     (length ps ≤ length samples)%nat) →
  (∀ llm ps sp s outs s',
     ext_generate llm ps sp s = (Ok outs, s') →
     (length outs ≤ length ps)%nat) →
  (∀ outs ms threads s rs s',
     ext_process_outputs outs ms threads s = (Ok rs, s') →
     (length rs ≤ length outs)%nat) →
  d ∈ datasets_to_eval args → loader_of d = Some ld →
  (∀ p r, EvLoad ld p r ∈ evs → r = Ok []) →
  evs ≠ [EvMakedirs (output_dir args) true (Ok tt); EvPrint no_datasets_notice] ∧
  (Forall loading_step_returned evs →
   ∃ rl, constructed evs = [(llm_args args, rl)]) ∧
  (∀ pre post,
     selection args = pre ++ d :: post →
     raised evs = [] →
     (∀ d', d' ∈ pre → d' ∈ completed evs) →
     ∃ llm sp ms m before after,
       constructed evs = [(llm_args args, Ok llm)] ∧
       evs = before ++
             [ EvPreparePrompts d [] args (Ok ([], ms));
               EvGenerate llm [] sp (Ok []);
               EvProcessOutputs [] ms (eval_threads args) (Ok []);
               EvCalculateMetrics [] (Ok m);
               EvOpenW (report_path args d) (Ok tt);
               EvJsonDump (report_path args d) (output_dict_of args [] m)
                 (Ok tt) ] ++ after ∧
       dict_get "results" (output_dict_of args [] m) = Some (VResults []) ∧
       (report_path args d, output_dict_of args [] m) ∈ written evs ∧
       files w' !! report_path args d =
         Some (FileJson (output_dict_of args [] m))) ∧
  (outcome (main argv) w = Ok tt →
   d ∈ completed evs ∧
   ∃ llm sp outs m,
     constructed evs = [(llm_args args, Ok llm)] ∧
     EvGenerate llm [] sp (Ok outs) ∈ evs ∧
     (report_path args d, output_dict_of args [] m) ∈ written evs ∧
     files w' !! report_path args d =
       Some (FileJson (output_dict_of args [] m))).
Proof.
  intros args evs w' Hprep Hgen Hproc Hreq Hld Hempty.
  assert (Hsel : d ∈ selection args).
  { apply selection_elem_of. split; [done|]. unfold recognized. by rewrite Hld. }
  assert (Hne : selection args ≠ []) by (intros E; rewrite E in Hsel;
                                         by apply elem_of_nil in Hsel).
  destruct (main_spec argv w) as (_ & _ & _ & _ & _ & Hfiles & _).
  destruct (main_parts argv w)
    as (rmk & levs & setup & eevs & closing & Hevs & _ & Hobs & _ & _ & Hcases).
  fold args evs w' in Hfiles, Hevs, Hobs, Hcases.
  split; [|split; [|split]].
  - intros Heq. rewrite Hevs in Heq. injection Heq as -> Heq.
    destruct Hcases
      as [(e & _ & [=] & _)
         |[(e & ld0 & levs0 & _ & _ & -> & _ & -> & -> & ->)
         |[(_ & _ & _ & _ & _ & _ & ?)
         |[(e & all & _ & _ & _ & _ & -> & -> & ->)
         |[(e & all & llm0 & _ & _ & _ & _ & -> & -> & ->)
         |(all & llm0 & sp0 & _ & _ & _ & -> & _)]]]]]; try done.
    + simpl in Heq. rewrite !app_nil_r in Heq.
      destruct levs0 as [|? [|? ?]]; discriminate Heq.
    + destruct levs as [|? [|? ?]]; discriminate Heq.
    + destruct levs as [|? [|? ?]]; discriminate Heq.
    + destruct levs as [|? [|? ?]]; discriminate Heq.
  - by apply engine_called_when_loaded.
  - clear rmk levs setup eevs closing Hevs Hobs Hcases.
    intros pre post Hpos Hraised Hpre.
    pose proof (main_answered argv w) as Hans. fold evs in Hans.
    destruct (main_exact argv w)
      as (rmk & levs & setup & eevs & closing & Hevs & Hparts & _ & Hshape
          & Hobs).
    fold args evs in Hevs, Hparts, Hobs.
    destruct Hobs as (_ & Hcons & _ & _ & _ & _ & _ & _ & Hcomp).
    assert (Hrun : ∃ all llm sp o,
               rmk = Ok tt ∧
               load_trace args (datasets_to_eval args) [] (Ok all) levs ∧
               setup = [EvPrint (initializing_line args);
                        EvLLM (llm_args args) (Ok llm);
                        EvSamplingParams (sampling_args args) (Ok sp)] ∧
               eval_run args llm sp all o eevs).
    { rewrite Hevs in Hraised.
      destruct Hparts as [ex|ex levs Hlt|Hlt|ex all levs Hlt Hall
                         |ex all levs llm Hlt Hall
                         |ex all levs llm sp eevs Hlt Hall Her
                         |all levs llm sp eevs Hlt Hall Her].
      - discriminate Hraised.
      - rewrite raised_run in Hraised.
        apply app_eq_nil in Hraised as [Hraised _].
        apply load_trace_raised in Hlt. by apply raised_last_not_nil in Hlt.
      - apply loaded_samples in Hlt as [Hk _]. by rewrite <- Hk in Hne.
      - rewrite raised_run in Hraised.
        apply app_eq_nil in Hraised as [_ Hraised]. discriminate Hraised.
      - rewrite raised_run in Hraised.
        apply app_eq_nil in Hraised as [_ Hraised]. discriminate Hraised.
      - by exists all, llm, sp, (Some ex).
      - by exists all, llm, sp, None. }
    destruct Hrun as (all & llm & sp & o & -> & Hlt & -> & Her).
    destruct (loaded_samples _ _ _ Hlt) as (Hk & Hnd & _).
    assert (Hre : raised eevs = []).
    { rewrite Hevs, raised_run in Hraised.
      apply app_eq_nil in Hraised as [_ Hraised].
      by apply app_eq_nil in Hraised as [_ Hraised]. }
    destruct (eval_run_reaches _ _ _ _ _ _ pre d post Her)
      as (samples & ps & ms & outs & rs & m & before & after & Hin & Heevs);
      [by rewrite Hk|done|done|by rewrite <- Hcomp|].
    set (front := EvMakedirs (output_dir args) true (Ok tt) ::
                  levs ++ [EvPrint (initializing_line args);
                           EvLLM (llm_args args) (Ok llm);
                           EvSamplingParams (sampling_args args) (Ok sp)] ++
                  before).
    assert (Hwin : evs = front ++
                     pipeline_calls args llm sp d samples ps ms outs rs m ++
                     (after ++ map EvPrint closing)).
    { rewrite Hevs, Heevs. subst front. same_list. }
    assert (samples = []) as ->.
    { apply (elem_of_dict_get _ _ _ Hnd) in Hin.
      destruct (load_trace_last _ _ _ _ _ Hlt _ _ Hin)
        as [(ld' & Hld' & Hlast)|[Hget _]]; [|discriminate Hget].
      rewrite Hld in Hld'. injection Hld' as <-.
      apply last_Some in Hlast as (l' & Hl').
      destruct (loaded_by_elem ld levs samples) as (p & Hp).
      { rewrite Hl'. apply elem_of_app. right. apply list_elem_of_here. }
      assert (Hev : EvLoad ld p (Ok samples) ∈ evs).
      { rewrite Hevs. apply list_elem_of_further, elem_of_app. by left. }
      apply Hempty in Hev. by injection Hev. }
    assert (Hcall : ∀ e,
              e ∈ pipeline_calls args llm sp d [] ps ms outs rs m →
              answered_event e).
    { intros e He. eapply Forall_forall; [exact Hans|].
      rewrite Hwin. apply elem_of_app. right. apply elem_of_app. by left. }
    assert (ps = []) as ->.
    { destruct (Hcall (EvPreparePrompts d [] args (Ok (ps, ms))))
        as (s & s' & Hs); [apply list_elem_of_here|].
      apply Hprep in Hs. by apply length_zero_nil in Hs. }
    assert (outs = []) as ->.
    { destruct (Hcall (EvGenerate llm [] sp (Ok outs))) as (s & s' & Hs);
        [apply list_elem_of_further, list_elem_of_here|].
      apply Hgen in Hs. by apply length_zero_nil in Hs. }
    assert (rs = []) as ->.
    { destruct (Hcall (EvProcessOutputs [] ms (eval_threads args) (Ok rs)))
        as (s & s' & Hs);
        [do 2 apply list_elem_of_further; apply list_elem_of_here|].
      apply Hproc in Hs. by apply length_zero_nil in Hs. }
    assert (Hw : (report_path args d, output_dict_of args [] m) ∈ written evs)
      by (by eapply dump_written).
    exists llm, sp, ms, m, front, (after ++ map EvPrint closing).
    split_and!; try done. by apply Hfiles.
  - intros Hr.
    destruct Hobs as (_ & Hcons & _ & _ & _ & _ & Hwr & _ & Hcomp).
    destruct Hcases
      as [(e & Hr' & _)
         |[(e & ld0 & levs0 & Hr' & _)
         |[(_ & _ & _ & _ & _ & _ & ?)
         |[(e & all & Hr' & _)
         |[(e & all & llm0 & Hr' & _)
         |(all & llm0 & sp0 & _ & Hl & _ & Hsetup & Htr & _)]]]]];
      try done; try (rewrite Hr in Hr'; discriminate Hr').
    rewrite Hr in Htr. simpl in Htr.
    destruct Hl as (_ & _ & Hkeys & Hprov).
    destruct (eval_trace_order _ _ _ _ _ _ Htr) as [_ Hok].
    destruct Hok as (_ & _ & _ & Hc); [done|].
    assert (Hdone : d ∈ completed evs).
    { rewrite Hcomp. unfold completed. by rewrite Hc, Hkeys. }
    split; [done|].
    rewrite Hcomp in Hdone.
    eapply eval_trace_completed in Hdone
      as (samples & ps & ms & outs & rs & m & x & t1 & t2 & Hin & Hans & _ & Heq);
      [|exact Htr].
    assert (samples = []) as ->.
    { destruct (selection_keys args) as [Hnd _]. rewrite <- Hkeys in Hnd.
      apply (elem_of_dict_get _ _ _ Hnd) in Hin.
      apply Hprov in Hin as (ld' & Hld' & Hev).
      rewrite Hld in Hld'. injection Hld' as <-.
      assert (Hev' : EvLoad ld (data_path args) (Ok samples) ∈ evs).
      { rewrite Hevs. apply list_elem_of_further, elem_of_app. by left. }
      apply Hempty in Hev'. by injection Hev'. }
    destruct Hans as ((s1 & s1' & H1) & (s2 & s2' & H2) & (s3 & s3' & H3) & _).
    apply Hprep in H1. apply Hgen in H2. apply Hproc in H3.
    simpl in H1. apply length_zero_nil in H1 as ->.
    simpl in H2. apply length_zero_nil in H2 as ->.
    simpl in H3. apply length_zero_nil in H3 as ->.
    assert (Hw : (report_path args d, output_dict_of args [] m) ∈ written evs).
    { rewrite Hwr, Heq. unfold written. rewrite !omap_app.
      apply elem_of_app. right. apply elem_of_app. left.
      destruct (iteration_events_obs args llm0 sp0 d [] [] ms [] [] m x)
        as (_ & _ & Hw & _).
      unfold written in Hw. rewrite Hw. apply list_elem_of_here. }
    exists llm0, sp0, [], m. split_and!; try done.
    + by rewrite Hcons, Hsetup.
    + rewrite Hevs, Heq. apply list_elem_of_further.
      apply elem_of_app. right. apply elem_of_app. right.
      apply elem_of_app. left. apply elem_of_app. right.
      apply elem_of_app. left. unfold iteration_events.
      apply elem_of_app. left. apply list_elem_of_further, list_elem_of_here.
    + by apply Hfiles.
Qed.

End Further.

(** * The further properties on concrete runs *)

Module FurtherRuns.
Import Scenario Faults.

Ltac find_event :=
  repeat first [apply list_elem_of_here | apply list_elem_of_further].

(** Omitting [--datasets] and passing [--datasets all] resolve to the
    same namespace: the two runs write the same report. *)
Lemma report_determines_run_witness :
  let X := healthy in
  let a := parse_arguments (cli "out" None) in
  let a' := parse_arguments (cli "out" (Some "all")) in
  output_dict_of a [true; true] full_marks =
    output_dict_of a' [true; true] full_marks ∧
  a = a'.
Proof.
  intros X a a'.
  assert (H : output_dict_of a [true; true] full_marks =
              output_dict_of a' [true; true] full_marks) by reflexivity.
  split; [exact H|].
  exact (proj1 (report_determines_run a a' _ _ _ _ H)).
Defined.

(** Geo3K is requested twice and its loader answers differently each
    time: the samples of the second load are the ones evaluated. *)
Lemma last_load_is_evaluated_witness :
  let X := numbered in
  let argv := cli "out" (Some "geo3k,wemath,geo3k") in
  let w := start X 0%nat in
  let evs := events_of (main argv) w in
  loaded_by load_geo3k_dataset evs = [[1]; [3]]%nat ∧
  EvPreparePrompts "geo3k" [3]%nat (parse_arguments argv)
    (Ok ([3]%nat, [3]%nat)) ∈ evs ∧
  ∃ ld, loader_of "geo3k" = Some ld ∧ last (loaded_by ld evs) = Some [3]%nat.
Proof.
  intros X argv w evs.
  assert (H : EvPreparePrompts "geo3k" [3]%nat (parse_arguments argv)
                (Ok ([3]%nat, [3]%nat)) ∈ evs).
  { subst evs w argv X. vm_compute.
    find_event. }
  split; [vm_compute; reflexivity|]. split; [exact H|].
  exact (last_load_is_evaluated argv w _ _ _ _ H).
Defined.

Lemma progress_line_follows_load_witness :
  let X := healthy in
  let argv := cli "out" (Some "geo3k") in
  let w := start X 0%nat in
  let evs := events_of (main argv) w in
  evs !! 1%nat = Some (EvLoad load_geo3k_dataset "data" (Ok [1; 2]%nat)) ∧
  evs !! 2%nat = Some (EvPrint "Loaded 2 samples from Geo3K").
Proof.
  intros X argv w evs.
  assert (H : evs !! 1%nat =
              Some (EvLoad load_geo3k_dataset "data" (Ok [1; 2]%nat)))
    by (vm_compute; reflexivity).
  split; [exact H|].
  pose proof (progress_line_follows_load argv w _ _ _ _ H) as H2.
  vm_compute in H2. vm_compute. exact H2.
Defined.

(** A dataset with sub-accuracies for two tasks. *)
Lemma completed_dataset_summary_witness :
  let X := with_tasks in
  let argv := cli "out" (Some "geo3k") in
  let w := start X 0%nat in
  let evs := events_of (main argv) w in
  "geo3k" ∈ completed evs ∧
  printed evs =
    [ "Loaded 2 samples from Geo3K"; "Initializing model from model";
      "GEO3K Results:"; "  Total samples: 2"; "  Accuracy: 1.0000";
      "  Task/Category Accuracies:"; "    algebra: 1.0000";
      "    geometry: 1.0000"; ""; "All results saved to out" ] ∧
  ∃ (rs : list (@Result X)) m x before after,
    dict_get "accuracy" m = Some (MNum x) ∧
    printed evs =
      before ++
      [ "GEO3K Results:";
        "  Total samples: " +:+ pretty (length rs);
        "  Accuracy: " +:+ format_4f x ] ++
      match dict_get "sub_accuracies" m with
      | Some (MMap sub) =>
          "  Task/Category Accuracies:" ::
          map (fun item => "    " +:+ item.1 +:+ ": " +:+ format_4f item.2) sub
      | _ => []
      end ++
      [""] ++ after.
Proof.
  intros X argv w evs.
  assert (H : "geo3k" ∈ completed evs)
    by (vm_compute; apply list_elem_of_here).
  split; [exact H|]. split; [vm_compute; reflexivity|].
  destruct (completed_dataset_summary argv w "geo3k" H)
    as (rs & m & x & before & after & _ & Hacc & Hpr).
  exists rs, m, x, before, after. split; [exact Hacc|exact Hpr].
Defined.


(** The accuracy is a string: the report is written, the header and
    the total are printed, and the format raises a [ValueError]. *)
Example text_accuracy_raises_after_report :
  let X := accuracy_text in
  let argv := cli "out" (Some "geo3k,wemath") in
  let w := start X 0%nat in
  outcome (main argv) w = Raise (PyExc "ValueError") ∧
  raised (events_of (main argv) w) = [] ∧
  printed (events_of (main argv) w) =
    [ "Loaded 2 samples from Geo3K"; "Loaded 2 samples from WeMath";
      "Initializing model from model";
      "GEO3K Results:"; "  Total samples: 2" ] ∧
  files (final (main argv) w) !! "out/geo3k.json" =
    Some (FileJson (output_dict_of (parse_arguments argv) [true; true]
                      [("accuracy", MStr "n/a")])) ∧
  files (final (main argv) w) !! "out/wemath.json" = None.
Proof. vm_compute. by split_and!. Qed.

(** The close of the report raises after [json.dump] returned: the run
    ends there with that exception and the report is incomplete. *)
Example failed_close_leaves_partial_report :
  let X := flush_fails in
  let argv := cli "out" (Some "geo3k") in
  let w := start X 0%nat in
  outcome (main argv) w = Raise (PyExc "OSError") ∧
  last (events_of (main argv) w) =
    Some (EvJsonDump "out/geo3k.json"
            (output_dict_of (parse_arguments argv) [true; true] full_marks)
            (Raise (PyExc "OSError"))) ∧
  written (events_of (main argv) w) = [] ∧
  files (final (main argv) w) !! "out/geo3k.json" = Some FilePartial.
Proof. vm_compute. by split_and!. Qed.

(** The disk is full while a report of an earlier run is in the way:
    the old report is lost. *)
Lemma failed_dump_leaves_partial_report_witness :
  let X := disk_full in
  let argv := cli "out" (Some "geo3k") in
  let w := start_with X 0%nat "out" "out/geo3k.json" stale in
  let obj := output_dict_of (parse_arguments argv) [true; true] full_marks in
  files w !! "out/geo3k.json" = Some stale ∧
  EvJsonDump "out/geo3k.json" obj (Raise (PyExc "OSError"))
    ∈ events_of (main argv) w ∧
  outcome (main argv) w = Raise (PyExc "OSError") ∧
  files (final (main argv) w) !! "out/geo3k.json" = Some FilePartial.
Proof.
  intros X argv w obj.
  assert (H : EvJsonDump "out/geo3k.json" obj (Raise (PyExc "OSError"))
                ∈ events_of (main argv) w).
  { subst obj w argv X. vm_compute.
    find_event. }
  split; [vm_compute; reflexivity|]. split; [exact H|].
  destruct (failed_dump_leaves_partial_report argv w _ _ _ H) as (Hr & _ & Hf).
  split; [exact Hr|exact Hf].
Defined.

(** The report cannot be opened: the report of the earlier run stays. *)
Lemma failed_open_leaves_file_witness :
  let X := read_only in
  let argv := cli "out" (Some "geo3k") in
  let w := start_with X 0%nat "out" "out/geo3k.json" stale in
  files w !! "out/geo3k.json" = Some stale ∧
  EvOpenW "out/geo3k.json" (Raise (PyExc "PermissionError"))
    ∈ events_of (main argv) w ∧
  outcome (main argv) w = Raise (PyExc "PermissionError") ∧
  files (final (main argv) w) !! "out/geo3k.json" = files w !! "out/geo3k.json".
Proof.
  intros X argv w.
  assert (H : EvOpenW "out/geo3k.json" (Raise (PyExc "PermissionError"))
                ∈ events_of (main argv) w).
  { subst w argv X. vm_compute.
    find_event. }
  split; [vm_compute; reflexivity|]. split; [exact H|].
  destruct (failed_open_leaves_file argv w _ _ H) as (Hr & _ & Hf).
  split; [exact Hr|exact Hf].
Defined.

(** The loop started from an empty [all_results] instead. *)
Lemma all_results_bookkeeping_witness :
  let X := healthy in
  let args := parse_arguments (cli "out" (Some "geo3k,wemath")) in
  let items := [("geo3k", [1; 2]); ("wemath", [3])]%nat in
  let w := start_in X 0%nat "out" in
  let loop := evaluate_all args 0%nat (sampling_args args)
                (initial_results items) items in
  NoDup (dict_keys items) ∧
  final (evaluate_all args 0%nat (sampling_args args) [] items) w =
    final loop w.
Proof.
  intros X args items w loop.
  assert (H : NoDup (dict_keys items)).
  { apply NoDup_cons. split.
    - intros Hin. apply list_elem_of_singleton in Hin. discriminate Hin.
    - apply NoDup_singleton. }
  split; [exact H|].
  exact (proj1 (proj2 (all_results_bookkeeping args 0%nat (sampling_args args)
                         items w H) [])).
Defined.

Lemma reports_live_in_output_dir_witness :
  let X := healthy in
  let argv := cli "out/" (Some "geo3k") in
  let w := start X 0%nat in
  "out/geo3k.json" ∈ opened (events_of (main argv) w) ∧
  ∃ d, d ∈ all_datasets ∧
       "out/geo3k.json" = "out/" +:+ "" +:+ d +:+ ".json".
Proof.
  intros X argv w.
  assert (H : "out/geo3k.json" ∈ opened (events_of (main argv) w))
    by (vm_compute; apply list_elem_of_here).
  split; [exact H|].
  destruct (reports_live_in_output_dir argv w _ H) as (d & Hd & _ & Hp).
  exists d. split; [exact Hd|exact Hp].
Defined.

Lemma dump_follows_pipeline_witness :
  let X := healthy in
  let argv := cli "out" (Some "geo3k") in
  let w := start X 0%nat in
  let args := parse_arguments argv in
  let evs := events_of (main argv) w in
  let obj := output_dict_of args [true; true] full_marks in
  EvJsonDump "out/geo3k.json" obj (Ok tt) ∈ evs ∧
  ∃ pre post llm sp d samples ps ms outs rs m,
    "out/geo3k.json" = report_path args d ∧ obj = output_dict_of args rs m ∧
    evs = pre ++
          [ EvPreparePrompts d samples args (Ok (ps, ms));
            EvGenerate llm ps sp (Ok outs);
            EvProcessOutputs outs ms (eval_threads args) (Ok rs);
            EvCalculateMetrics rs (Ok m);
            EvOpenW "out/geo3k.json" (Ok tt);
            EvJsonDump "out/geo3k.json" obj (Ok tt) ] ++ post.
Proof.
  intros X argv w args evs obj.
  assert (H : EvJsonDump "out/geo3k.json" obj (Ok tt) ∈ evs).
  { subst obj evs args w argv X. vm_compute.
    find_event. }
  split; [exact H|].
  exact (dump_follows_pipeline argv w _ _ _ H).
Defined.

(** Geo3K has no sample and the aggregator returns no [accuracy]: the
    run raises while it prints the summary of Geo3K, after the six
    calls of its iteration, made on empty lists, and with the report,
    whose [results] is empty, on disk. *)
Lemma empty_dataset_still_evaluated_witness :
  let X := empty_without_accuracy in
  let argv := cli "out" (Some "geo3k,wemath") in
  let args := parse_arguments argv in
  let w := start X 0%nat in
  let evs := events_of (main argv) w in
  (∀ p r, EvLoad load_geo3k_dataset p r ∈ evs → r = Ok []) ∧
  selection args = [] ++ "geo3k" :: ["wemath"] ∧
  raised evs = [] ∧
  outcome (main argv) w = Raise (PyExc "KeyError") ∧
  ∃ llm sp ms m before after,
    evs = before ++
          [ EvPreparePrompts "geo3k" [] args (Ok ([], ms));
            EvGenerate llm [] sp (Ok []);
            EvProcessOutputs [] ms (eval_threads args) (Ok []);
            EvCalculateMetrics [] (Ok m);
            EvOpenW "out/geo3k.json" (Ok tt);
            EvJsonDump "out/geo3k.json"
              [ ("results", VResults []); ("metrics", VMetrics m);
                ("config", VConfig (vars args)) ] (Ok tt) ] ++ after ∧
    files (final (main argv) w) !! "out/geo3k.json" =
      Some (FileJson [ ("results", VResults []); ("metrics", VMetrics m);
                       ("config", VConfig (vars args)) ]).
Proof.
  intros X argv args w evs.
  assert (Hl : ∀ p r, EvLoad load_geo3k_dataset p r ∈ evs → r = Ok []).
  { intros p r Hin. subst evs w args argv X. vm_compute in Hin.
    repeat (apply elem_of_cons in Hin as [Hin|Hin];
            [first [discriminate Hin
                   |injection Hin as _ ->; reflexivity]|]).
    apply elem_of_nil in Hin. destruct Hin. }
  assert (Hsel : selection args = [] ++ "geo3k" :: ["wemath"])
    by (vm_compute; reflexivity).
  assert (Hraised : raised evs = []) by (vm_compute; reflexivity).
  assert (Hreq : "geo3k" ∈ datasets_to_eval args)
    by (vm_compute; apply list_elem_of_here).
  assert (Hpre : ∀ d', d' ∈ [] → d' ∈ completed evs).
  { intros d' Hd'. apply elem_of_nil in Hd'. destruct Hd'. }
  assert (H1 : ∀ name samples a s ps ms s',
            ext_prepare_prompts name samples a s = (Ok (ps, ms), s') →
            (length ps ≤ length samples)%nat).
  { intros name samples a s ps ms s' H. injection H as <- _ _. done. }
  assert (H2 : ∀ llm ps sp s outs s',
            ext_generate llm ps sp s = (Ok outs, s') →
            (length outs ≤ length ps)%nat).
  { intros llm ps sp s outs s' H. injection H as <- _. done. }
  assert (H3 : ∀ outs ms threads s rs s',
            ext_process_outputs outs ms threads s = (Ok rs, s') →
            (length rs ≤ length outs)%nat).
  { intros outs ms threads s rs s' H. injection H as <- _.
    rewrite length_zip_with. apply Nat.le_min_l. }
  split; [exact Hl|]. split; [exact Hsel|]. split; [exact Hraised|].
  split; [vm_compute; reflexivity|].
  destruct (empty_dataset_still_evaluated argv w "geo3k" load_geo3k_dataset
              H1 H2 H3 Hreq eq_refl Hl) as (_ & _ & Hrun & _).
  destruct (Hrun _ _ Hsel Hraised Hpre)
    as (llm & sp & ms & m & before & after & _ & Hevs & _ & _ & Hf).
  exists llm, sp, ms, m, before, after. split; [exact Hevs|exact Hf].
Defined.

End FurtherRuns.
